(** * Readers and Writers: the two librarian implementations

    A shallow embedding of [r_w_1.c] (windowed admission, "Policy A") and
    [r_w_2.c] (one common FIFO queue, "Policy B").

    - C [int] values are integers in [Z]; every arithmetic result is
      brought back into the 32-bit two's-complement range by [wrap_int].
    - A [malloc]ed array is the list of its slots.  A read or write outside
      the list is reported as [None].
    - Each mutex-protected block of the source is one function on the
      record of globals; [get_timestamp ()] and [rand ()] are passed in as
      the value the call returned.
    - [exit] is the [Exit] outcome of the [process] type. *)

From Stdlib Require Import ZArith List Bool String Ascii Lia.
Import ListNotations.
Open Scope Z_scope.

(** ** C integers *)

Definition INT_MIN : Z := -2147483648.
Definition INT_MAX : Z := 2147483647.
Definition LONG_MIN : Z := -9223372036854775808.
Definition LONG_MAX : Z := 9223372036854775807.

Definition wrap_int (z : Z) : Z :=
  (z + 2147483648) mod 4294967296 - 2147483648.

Definition in_int (z : Z) : Prop := INT_MIN <= z <= INT_MAX.

(** ** Option and process monads *)

Definition obind {A B : Type} (o : option A) (k : A -> option B) : option B :=
  match o with
  | Some a => k a
  | None => None
  end.

Notation "x <- e ;; k" := (obind e (fun x => k))
  (at level 61, e at next level, right associativity).

(** A run of start-up code either goes on with a value or ends the process
    with what it printed and its exit status. *)
Inductive process (A : Type) : Type :=
| Exit (printed : string) (status : Z)
| Continue (a : A).
Arguments Exit {A} printed status.
Arguments Continue {A} a.

Definition pbind {A B : Type} (p : process A) (k : A -> process B) : process B :=
  match p with
  | Exit m st => Exit m st
  | Continue a => k a
  end.

Notation "x <-- e ;; k" := (pbind e (fun x => k))
  (at level 61, e at next level, right associativity).

(** [EXIT_FAILURE] of <stdlib.h>. *)
Definition EXIT_FAILURE : Z := 1.

Definition newline : string := String (ascii_of_nat 10) EmptyString.

(** ** Arrays *)

Definition load {A : Type} (l : list A) (i : Z) : option A :=
  if i <? 0 then None else nth_error l (Z.to_nat i).

Definition store {A : Type} (l : list A) (i : Z) (v : A) : option (list A) :=
  if (0 <=? i) && (i <? Z.of_nat (List.length l))
  then Some (firstn (Z.to_nat i) l ++ v :: skipn (S (Z.to_nat i)) l)
  else None.

(** ** Threads

    The threads of one kind are listed by id, each with the place in its
    code where it stands. Thread [i] of [l] moves from [from] to [to]; no
    result when it is not at [from]. *)
Definition move {A : Type} (eqb : A -> A -> bool) (l : list A) (i : Z) (from to : A)
  : option (list A) :=
  match load l i with
  | Some a => if eqb a from then store l i to else None
  | None => None
  end.

(** ** [get_random], the same text in both files

    [rand_value] is what [rand ()] returned. [%] is C's truncating
    remainder; a zero divisor has no result. *)
Definition get_random (rand_value min max : Z) : option Z :=
  let range := wrap_int (wrap_int (max - min) + 1) in
  if range =? 0 then None
  else Some (wrap_int (Z.rem rand_value range + min)).

(** ** A model of [atoi] for concrete command lines

    [args_interpreter] below takes the conversion as an argument; this is
    the instance used on explicit inputs: leading blanks, an optional sign,
    the longest run of decimal digits, [strtol]'s saturation and the cast to
    [int]. *)

Definition is_blank (c : ascii) : bool :=
  let n := nat_of_ascii c in
  (Nat.eqb n 32 || (Nat.leb 9 n && Nat.leb n 13))%bool.

Definition digit_of (c : ascii) : option Z :=
  let n := nat_of_ascii c in
  if (Nat.leb 48 n && Nat.leb n 57)%bool then Some (Z.of_nat n - 48) else None.

Fixpoint skip_blanks (s : string) : string :=
  match s with
  | String c rest => if is_blank c then skip_blanks rest else s
  | EmptyString => s
  end.

Fixpoint digits_value (s : string) (acc : Z) : Z :=
  match s with
  | String c rest =>
      match digit_of c with
      | Some d => digits_value rest (10 * acc + d)
      | None => acc
      end
  | EmptyString => acc
  end.

Definition atoi_c (s : string) : Z :=
  let clamp v := Z.max LONG_MIN (Z.min LONG_MAX v) in
  match skip_blanks s with
  | String "-" rest => wrap_int (clamp (- digits_value rest 0))
  | String "+" rest => wrap_int (clamp (digits_value rest 0))
  | rest => wrap_int (clamp (digits_value rest 0))
  end.

(** * [r_w_1.c]: readers let in during a time window, then the writer that
    waited longest *)
Module RW1.

Definition ERROR_ARGUMENTS_MESSAGE : string :=
  ("Usage: ReaderAndWriters1 number_of_writers number_of_readers [-t min_reading_time max_reading_time min_writing_time max_writing_time min_allow_read_time max_allow_read_time] [-debug]"
   ++ newline)%string.

(** The globals of the file. The four arrays are indexed by thread id and
    hold a timestamp, 0 for "not here". *)
Record globals : Type := mkGlobals {
  is_debug_run : Z;
  readers_count : Z;
  writers_count : Z;
  writers_in_library : list Z;
  writers_in_library_count : Z;
  readers_in_library : list Z;
  readers_in_library_count : Z;
  writers_queue : list Z;
  writers_queue_count : Z;
  readers_queue : list Z;
  readers_queue_count : Z;
  writer_notification : Z;
  min_reading_time : Z;
  max_reading_time : Z;
  min_writing_time : Z;
  max_writing_time : Z;
  min_allow_read_time : Z;
  max_allow_read_time : Z
}.

(** The initialisers of the globals; the four pointers are not set yet. *)
Definition globals0 : globals :=
  {| is_debug_run := 0; readers_count := 0; writers_count := 0;
     writers_in_library := []; writers_in_library_count := 0;
     readers_in_library := []; readers_in_library_count := 0;
     writers_queue := []; writers_queue_count := 0;
     readers_queue := []; readers_queue_count := 0;
     writer_notification := 0;
     min_reading_time := 0; max_reading_time := 5;
     min_writing_time := 5; max_writing_time := 15;
     min_allow_read_time := 10; max_allow_read_time := 20 |}.

Definition set_is_debug_run (g : globals) (v : Z) : globals :=
  mkGlobals v (readers_count g) (writers_count g) (writers_in_library g)
    (writers_in_library_count g) (readers_in_library g) (readers_in_library_count g)
    (writers_queue g) (writers_queue_count g) (readers_queue g) (readers_queue_count g)
    (writer_notification g) (min_reading_time g) (max_reading_time g)
    (min_writing_time g) (max_writing_time g) (min_allow_read_time g)
    (max_allow_read_time g).
Definition set_readers_count (g : globals) (v : Z) : globals :=
  mkGlobals (is_debug_run g) v (writers_count g) (writers_in_library g)
    (writers_in_library_count g) (readers_in_library g) (readers_in_library_count g)
    (writers_queue g) (writers_queue_count g) (readers_queue g) (readers_queue_count g)
    (writer_notification g) (min_reading_time g) (max_reading_time g)
    (min_writing_time g) (max_writing_time g) (min_allow_read_time g)
    (max_allow_read_time g).
Definition set_writers_count (g : globals) (v : Z) : globals :=
  mkGlobals (is_debug_run g) (readers_count g) v (writers_in_library g)
    (writers_in_library_count g) (readers_in_library g) (readers_in_library_count g)
    (writers_queue g) (writers_queue_count g) (readers_queue g) (readers_queue_count g)
    (writer_notification g) (min_reading_time g) (max_reading_time g)
    (min_writing_time g) (max_writing_time g) (min_allow_read_time g)
    (max_allow_read_time g).
Definition set_writers_in_library (g : globals) (v : list Z) : globals :=
  mkGlobals (is_debug_run g) (readers_count g) (writers_count g) v
    (writers_in_library_count g) (readers_in_library g) (readers_in_library_count g)
    (writers_queue g) (writers_queue_count g) (readers_queue g) (readers_queue_count g)
    (writer_notification g) (min_reading_time g) (max_reading_time g)
    (min_writing_time g) (max_writing_time g) (min_allow_read_time g)
    (max_allow_read_time g).
Definition set_writers_in_library_count (g : globals) (v : Z) : globals :=
  mkGlobals (is_debug_run g) (readers_count g) (writers_count g) (writers_in_library g)
    v (readers_in_library g) (readers_in_library_count g) (writers_queue g)
    (writers_queue_count g) (readers_queue g) (readers_queue_count g)
    (writer_notification g) (min_reading_time g) (max_reading_time g)
    (min_writing_time g) (max_writing_time g) (min_allow_read_time g)
    (max_allow_read_time g).
Definition set_readers_in_library (g : globals) (v : list Z) : globals :=
  mkGlobals (is_debug_run g) (readers_count g) (writers_count g) (writers_in_library g)
    (writers_in_library_count g) v (readers_in_library_count g) (writers_queue g)
    (writers_queue_count g) (readers_queue g) (readers_queue_count g)
    (writer_notification g) (min_reading_time g) (max_reading_time g)
    (min_writing_time g) (max_writing_time g) (min_allow_read_time g)
    (max_allow_read_time g).
Definition set_readers_in_library_count (g : globals) (v : Z) : globals :=
  mkGlobals (is_debug_run g) (readers_count g) (writers_count g) (writers_in_library g)
    (writers_in_library_count g) (readers_in_library g) v (writers_queue g)
    (writers_queue_count g) (readers_queue g) (readers_queue_count g)
    (writer_notification g) (min_reading_time g) (max_reading_time g)
    (min_writing_time g) (max_writing_time g) (min_allow_read_time g)
    (max_allow_read_time g).
Definition set_writers_queue (g : globals) (v : list Z) : globals :=
  mkGlobals (is_debug_run g) (readers_count g) (writers_count g) (writers_in_library g)
    (writers_in_library_count g) (readers_in_library g) (readers_in_library_count g) v
    (writers_queue_count g) (readers_queue g) (readers_queue_count g)
    (writer_notification g) (min_reading_time g) (max_reading_time g)
    (min_writing_time g) (max_writing_time g) (min_allow_read_time g)
    (max_allow_read_time g).
Definition set_writers_queue_count (g : globals) (v : Z) : globals :=
  mkGlobals (is_debug_run g) (readers_count g) (writers_count g) (writers_in_library g)
    (writers_in_library_count g) (readers_in_library g) (readers_in_library_count g)
    (writers_queue g) v (readers_queue g) (readers_queue_count g)
    (writer_notification g) (min_reading_time g) (max_reading_time g)
    (min_writing_time g) (max_writing_time g) (min_allow_read_time g)
    (max_allow_read_time g).
Definition set_readers_queue (g : globals) (v : list Z) : globals :=
  mkGlobals (is_debug_run g) (readers_count g) (writers_count g) (writers_in_library g)
    (writers_in_library_count g) (readers_in_library g) (readers_in_library_count g)
    (writers_queue g) (writers_queue_count g) v (readers_queue_count g)
    (writer_notification g) (min_reading_time g) (max_reading_time g)
    (min_writing_time g) (max_writing_time g) (min_allow_read_time g)
    (max_allow_read_time g).
Definition set_readers_queue_count (g : globals) (v : Z) : globals :=
  mkGlobals (is_debug_run g) (readers_count g) (writers_count g) (writers_in_library g)
    (writers_in_library_count g) (readers_in_library g) (readers_in_library_count g)
    (writers_queue g) (writers_queue_count g) (readers_queue g) v
    (writer_notification g) (min_reading_time g) (max_reading_time g)
    (min_writing_time g) (max_writing_time g) (min_allow_read_time g)
    (max_allow_read_time g).
Definition set_writer_notification (g : globals) (v : Z) : globals :=
  mkGlobals (is_debug_run g) (readers_count g) (writers_count g) (writers_in_library g)
    (writers_in_library_count g) (readers_in_library g) (readers_in_library_count g)
    (writers_queue g) (writers_queue_count g) (readers_queue g) (readers_queue_count g)
    v (min_reading_time g) (max_reading_time g) (min_writing_time g)
    (max_writing_time g) (min_allow_read_time g) (max_allow_read_time g).
Definition set_min_reading_time (g : globals) (v : Z) : globals :=
  mkGlobals (is_debug_run g) (readers_count g) (writers_count g) (writers_in_library g)
    (writers_in_library_count g) (readers_in_library g) (readers_in_library_count g)
    (writers_queue g) (writers_queue_count g) (readers_queue g) (readers_queue_count g)
    (writer_notification g) v (max_reading_time g) (min_writing_time g)
    (max_writing_time g) (min_allow_read_time g) (max_allow_read_time g).
Definition set_max_reading_time (g : globals) (v : Z) : globals :=
  mkGlobals (is_debug_run g) (readers_count g) (writers_count g) (writers_in_library g)
    (writers_in_library_count g) (readers_in_library g) (readers_in_library_count g)
    (writers_queue g) (writers_queue_count g) (readers_queue g) (readers_queue_count g)
    (writer_notification g) (min_reading_time g) v (min_writing_time g)
    (max_writing_time g) (min_allow_read_time g) (max_allow_read_time g).
Definition set_min_writing_time (g : globals) (v : Z) : globals :=
  mkGlobals (is_debug_run g) (readers_count g) (writers_count g) (writers_in_library g)
    (writers_in_library_count g) (readers_in_library g) (readers_in_library_count g)
    (writers_queue g) (writers_queue_count g) (readers_queue g) (readers_queue_count g)
    (writer_notification g) (min_reading_time g) (max_reading_time g) v
    (max_writing_time g) (min_allow_read_time g) (max_allow_read_time g).
Definition set_max_writing_time (g : globals) (v : Z) : globals :=
  mkGlobals (is_debug_run g) (readers_count g) (writers_count g) (writers_in_library g)
    (writers_in_library_count g) (readers_in_library g) (readers_in_library_count g)
    (writers_queue g) (writers_queue_count g) (readers_queue g) (readers_queue_count g)
    (writer_notification g) (min_reading_time g) (max_reading_time g)
    (min_writing_time g) v (min_allow_read_time g) (max_allow_read_time g).
Definition set_min_allow_read_time (g : globals) (v : Z) : globals :=
  mkGlobals (is_debug_run g) (readers_count g) (writers_count g) (writers_in_library g)
    (writers_in_library_count g) (readers_in_library g) (readers_in_library_count g)
    (writers_queue g) (writers_queue_count g) (readers_queue g) (readers_queue_count g)
    (writer_notification g) (min_reading_time g) (max_reading_time g)
    (min_writing_time g) (max_writing_time g) v (max_allow_read_time g).
Definition set_max_allow_read_time (g : globals) (v : Z) : globals :=
  mkGlobals (is_debug_run g) (readers_count g) (writers_count g) (writers_in_library g)
    (writers_in_library_count g) (readers_in_library g) (readers_in_library_count g)
    (writers_queue g) (writers_queue_count g) (readers_queue g) (readers_queue_count g)
    (writer_notification g) (min_reading_time g) (max_reading_time g)
    (min_writing_time g) (max_writing_time g) (min_allow_read_time g) v.

(** The two mutex-protected blocks of [write_book]; the [sleep] between
    them is outside the mutex. [now] is what [get_timestamp ()] returned. *)
Definition write_book_enter (now writer_id : Z) (g : globals) : option globals :=
  wl <- store (writers_in_library g) writer_id now ;;
  let g := set_writers_in_library g wl in
  wq <- store (writers_queue g) writer_id 0 ;;
  let g := set_writers_queue g wq in
  let g := set_writers_in_library_count g (wrap_int (writers_in_library_count g + 1)) in
  Some (set_writers_queue_count g (wrap_int (writers_queue_count g - 1))).

Definition write_book_leave (now writer_id : Z) (g : globals) : option globals :=
  wl <- store (writers_in_library g) writer_id 0 ;;
  let g := set_writers_in_library g wl in
  wq <- store (writers_queue g) writer_id now ;;
  let g := set_writers_queue g wq in
  let g := set_writers_in_library_count g (wrap_int (writers_in_library_count g - 1)) in
  let g := set_writers_queue_count g (wrap_int (writers_queue_count g + 1)) in
  Some (set_writer_notification g 0).

(** The two blocks of [read_books]. *)
Definition read_books_enter (now reader_id : Z) (g : globals) : option globals :=
  rl <- store (readers_in_library g) reader_id now ;;
  let g := set_readers_in_library g rl in
  rq <- store (readers_queue g) reader_id 0 ;;
  let g := set_readers_queue g rq in
  let g := set_readers_in_library_count g (wrap_int (readers_in_library_count g + 1)) in
  Some (set_readers_queue_count g (wrap_int (readers_queue_count g - 1))).

Definition read_books_leave (now reader_id : Z) (g : globals) : option globals :=
  rl <- store (readers_in_library g) reader_id 0 ;;
  let g := set_readers_in_library g rl in
  rq <- store (readers_queue g) reader_id now ;;
  let g := set_readers_queue g rq in
  let g := set_readers_in_library_count g (wrap_int (readers_in_library_count g - 1)) in
  Some (set_readers_queue_count g (wrap_int (readers_queue_count g + 1))).

(** [init_queue]: both queues get the one timestamp read at its start. *)
Fixpoint fill (n : nat) (i : Z) (v : Z) (a : list Z) : option (list Z) :=
  match n with
  | O => Some a
  | S n' => a1 <- store a i v ;; fill n' (wrap_int (i + 1)) v a1
  end.

Definition init_queue (now : Z) (g : globals) : option globals :=
  rq <- fill (Z.to_nat (readers_count g)) 0 now (readers_queue g) ;;
  let g := set_readers_queue g rq in
  wq <- fill (Z.to_nat (writers_count g)) 0 now (writers_queue g) ;;
  Some (set_writers_queue g wq).

(** [variables_initializer]: the arguments are the four blocks [malloc]
    returned, with whatever they hold. *)
Definition variables_initializer (wl_block wq_block rl_block rq_block : list Z)
  (g : globals) : globals :=
  let g := set_writers_in_library g wl_block in
  let g := set_writers_queue g wq_block in
  let g := set_readers_in_library g rl_block in
  set_readers_queue g rq_block.

(** The scan of the librarian,
    [for (i = 0; i < writers_count; i++)], started with
    [max_waiter_id = 0] and [max_time = 0]. [clock i] is the timestamp read
    in iteration [i]; the difference of two [time_t] is stored in an [int]. *)
Fixpoint longest_waiter (n : nat) (i : Z) (clock : Z -> Z) (wq : list Z)
  (max_waiter_id max_time : Z) : option Z :=
  match n with
  | O => Some max_waiter_id
  | S n' =>
      since <- load wq i ;;
      let time := wrap_int (clock i - since) in
      if time >? max_time
      then longest_waiter n' (wrap_int (i + 1)) clock wq i time
      else longest_waiter n' (wrap_int (i + 1)) clock wq max_waiter_id max_time
  end.

(** One turn of the librarian after its [sleep]: the [if] block. The second
    component is the index [k] of the call
    [pthread_cond_signal (&writers_conds[k])], if the call is made. *)
Definition librarian_turn (clock : Z -> Z) (g : globals) : option (globals * option Z) :=
  if writers_in_library_count g =? 0 then
    let g := set_writer_notification g 1 in
    k <- longest_waiter (Z.to_nat (writers_count g)) 0 clock (writers_queue g) 0 0 ;;
    Some (g, Some k)
  else Some (g, None).

(** [args_interpreter]. [argc] is the length of [argv]; every [argv[k]] the
    source reads is guarded by a test on [argc]. *)
Definition arg (argv : list string) (k : nat) : string := nth k argv EmptyString.

Definition usage : process globals := Exit ERROR_ARGUMENTS_MESSAGE EXIT_FAILURE.

Definition ordered_pair (lo hi : Z) : Z * Z :=
  if lo >? hi then (hi, lo) else (lo, hi).

Definition args_interpreter (atoi : string -> Z) (argv : list string) (g : globals)
  : process globals :=
  let argc := Z.of_nat (List.length argv) in
  if argc <? 3 then usage else
  let g := set_writers_count g (atoi (arg argv 1)) in
  let g := set_writers_queue_count g (writers_count g) in
  let g := set_readers_count g (atoi (arg argv 2)) in
  let g := set_readers_queue_count g (readers_count g) in
  g <-- (if argc >? 3 then
           if String.eqb (arg argv 3) "-t" then
             if argc <? 10 then usage
             else
               let (rlo, rhi) := ordered_pair (atoi (arg argv 4)) (atoi (arg argv 5)) in
               let g := set_max_reading_time (set_min_reading_time g rlo) rhi in
               let (wlo, whi) := ordered_pair (atoi (arg argv 6)) (atoi (arg argv 7)) in
               let g := set_max_writing_time (set_min_writing_time g wlo) whi in
               let (alo, ahi) := ordered_pair (atoi (arg argv 8)) (atoi (arg argv 9)) in
               Continue (set_max_allow_read_time (set_min_allow_read_time g alo) ahi)
           else if String.eqb (arg argv 3) "-debug" then Continue (set_is_debug_run g 1)
           else usage
         else Continue g) ;;
  g <-- (if argc =? 11 then
           if String.eqb (arg argv 10) "-debug" then Continue (set_is_debug_run g 1)
           else usage
         else Continue g) ;;
  if argc >? 11 then usage else Continue g.

(** [main] up to the creation of the threads. *)
Definition main_start (atoi : string -> Z) (argv : list string)
  (wl_block wq_block rl_block rq_block : list Z) (now : Z)
  : process (option globals) :=
  g <-- args_interpreter atoi argv globals0 ;;
  Continue (init_queue now (variables_initializer wl_block wq_block rl_block rq_block g)).

(** ** The threads

    Where each thread stands between two of its steps. A step is a
    mutex-protected block, a test made outside the mutex, or a call on a
    condition variable. *)
Inductive reader_at : Type :=
| RTop          (* before [pthread_mutex_lock] in the loop of [reader] *)
| RCondWait     (* in [pthread_cond_wait (&readers_cond, &mutex)] *)
| RPassed       (* after [pthread_mutex_unlock], before [read_books] *)
| RReading.     (* in the [sleep] of [read_books] *)

Inductive writer_at : Type :=
| WTop          (* before [pthread_mutex_lock] in the loop of [writer] *)
| WCondWait     (* in [pthread_cond_wait (&writers_conds[writer_id], &mutex)] *)
| WSpin         (* at [while (readers_in_library_count);] *)
| WCleared      (* the loop is left, before [write_book] *)
| WWriting      (* in the [sleep] of [write_book] *)
| WDone.        (* after [write_book], before [pthread_cond_broadcast] *)

Inductive librarian_at : Type :=
| LSleep        (* in [sleep (get_random (...))] *)
| LSpin.        (* at [while (writers_in_library_count);] *)

Record system : Type := mkSystem {
  mem : globals;
  readers : list reader_at;
  writers : list writer_at;
  librarian : librarian_at;
  time_now : Z
}.

Inductive action : Type :=
| Tick
| ReaderCheck (reader_id : Z)
| ReaderEnter (reader_id : Z)
| ReaderLeave (reader_id : Z)
| WriterWait (writer_id : Z)
| WriterSpin (writer_id : Z)
| WriterEnter (writer_id : Z)
| WriterLeave (writer_id : Z)
| WriterBroadcast (writer_id : Z)
| LibrarianTurn
| LibrarianSpin.

Definition reader_at_eqb (a b : reader_at) : bool :=
  match a, b with
  | RTop, RTop | RCondWait, RCondWait | RPassed, RPassed | RReading, RReading => true
  | _, _ => false
  end.

Definition writer_at_eqb (a b : writer_at) : bool :=
  match a, b with
  | WTop, WTop | WCondWait, WCondWait | WSpin, WSpin | WCleared, WCleared
  | WWriting, WWriting | WDone, WDone => true
  | _, _ => false
  end.

(** [pthread_cond_signal] on the condition variable of writer [k]: the
    writer leaves its wait; lost when no thread waits there. *)
Definition signal_writer (ws : list writer_at) (k : Z) : list writer_at :=
  match move writer_at_eqb ws k WCondWait WSpin with
  | Some ws' => ws'
  | None => ws
  end.

(** [pthread_cond_broadcast (&readers_cond)]: every waiting reader leaves
    its wait, unlocks and goes on to [read_books]. *)
Definition broadcast_readers (rs : list reader_at) : list reader_at :=
  map (fun r => if reader_at_eqb r RCondWait then RPassed else r) rs.

Definition with_mem (s : system) (g : globals) : system :=
  mkSystem g (readers s) (writers s) (librarian s) (time_now s).
Definition with_readers (s : system) (rs : list reader_at) : system :=
  mkSystem (mem s) rs (writers s) (librarian s) (time_now s).
Definition with_writers (s : system) (ws : list writer_at) : system :=
  mkSystem (mem s) (readers s) ws (librarian s) (time_now s).
Definition with_librarian (s : system) (l : librarian_at) : system :=
  mkSystem (mem s) (readers s) (writers s) l (time_now s).

Definition step (a : action) (s : system) : option system :=
  match a with
  | Tick => Some (mkSystem (mem s) (readers s) (writers s) (librarian s) (time_now s + 1))
  | ReaderCheck i =>
      rs <- move reader_at_eqb (readers s) i RTop
              (if writer_notification (mem s) =? 0 then RPassed else RCondWait) ;;
      Some (with_readers s rs)
  | ReaderEnter i =>
      rs <- move reader_at_eqb (readers s) i RPassed RReading ;;
      g <- read_books_enter (time_now s) i (mem s) ;;
      Some (with_mem (with_readers s rs) g)
  | ReaderLeave i =>
      rs <- move reader_at_eqb (readers s) i RReading RTop ;;
      g <- read_books_leave (time_now s) i (mem s) ;;
      Some (with_mem (with_readers s rs) g)
  | WriterWait j =>
      ws <- move writer_at_eqb (writers s) j WTop WCondWait ;;
      Some (with_writers s ws)
  | WriterSpin j =>
      ws <- move writer_at_eqb (writers s) j WSpin
              (if readers_in_library_count (mem s) =? 0 then WCleared else WSpin) ;;
      Some (with_writers s ws)
  | WriterEnter j =>
      ws <- move writer_at_eqb (writers s) j WCleared WWriting ;;
      g <- write_book_enter (time_now s) j (mem s) ;;
      Some (with_mem (with_writers s ws) g)
  | WriterLeave j =>
      ws <- move writer_at_eqb (writers s) j WWriting WDone ;;
      g <- write_book_leave (time_now s) j (mem s) ;;
      Some (with_mem (with_writers s ws) g)
  | WriterBroadcast j =>
      ws <- move writer_at_eqb (writers s) j WDone WTop ;;
      Some (with_readers (with_writers s ws) (broadcast_readers (readers s)))
  | LibrarianTurn =>
      match librarian s with
      | LSleep =>
          r <- librarian_turn (fun _ => time_now s) (mem s) ;;
          let s := with_librarian (with_mem s (fst r)) LSpin in
          Some (match snd r with
                | Some k => with_writers s (signal_writer (writers s) k)
                | None => s
                end)
      | LSpin => None
      end
  | LibrarianSpin =>
      match librarian s with
      | LSpin =>
          Some (if writers_in_library_count (mem s) =? 0
                then with_librarian s LSleep else s)
      | LSleep => None
      end
  end.

Fixpoint run (acts : list action) (s : system) : option system :=
  match acts with
  | [] => Some s
  | a :: rest => s1 <- step a s ;; run rest s1
  end.

(** The system as [main] leaves it once the threads are created. *)
Definition boot (g : globals) (now : Z) : system :=
  {| mem := g;
     readers := repeat RTop (Z.to_nat (readers_count g));
     writers := repeat WTop (Z.to_nat (writers_count g));
     librarian := LSleep;
     time_now := now |}.

Definition reachable (s0 s : system) : Prop :=
  exists acts, run acts s0 = Some s.

End RW1.

(** * [r_w_2.c]: one FIFO queue for readers and writers *)
Module RW2.

Definition ERROR_ARGUMENTS_MESSAGE : string :=
  ("Usage: ReaderAndWriters2 number_of_writers number_of_readers [-t min_reading_time max_reading_time min_writing_time max_writing_time] [-debug]"
   ++ newline)%string.

Definition NO_KIND : Z := 0.
Definition READER_KIND : Z := 1.
Definition WRITER_KIND : Z := 2.

(** [struct presence] *)
Record presence : Type := mkPresence {
  kind : Z;
  id : Z;
  timestamp : Z
}.

Definition set_kind (p : presence) (k : Z) : presence :=
  {| kind := k; id := id p; timestamp := timestamp p |}.

(** The globals of the file. [queue] and [in_library] are the two blocks of
    [writers_count + readers_count] slots. *)
Record globals : Type := mkGlobals {
  is_debug_run : Z;
  readers_count : Z;
  writers_count : Z;
  queue : list presence;
  in_library : list presence;
  min_reading_time : Z;
  max_reading_time : Z;
  min_writing_time : Z;
  max_writing_time : Z
}.

(** The initialisers of the globals; the two pointers are not set yet. *)
Definition globals0 : globals :=
  {| is_debug_run := 0; readers_count := 0; writers_count := 0;
     queue := []; in_library := [];
     min_reading_time := 0; max_reading_time := 5;
     min_writing_time := 5; max_writing_time := 15 |}.

Definition set_is_debug_run (g : globals) (v : Z) : globals :=
  mkGlobals v (readers_count g) (writers_count g) (queue g) (in_library g)
    (min_reading_time g) (max_reading_time g) (min_writing_time g) (max_writing_time g).
Definition set_readers_count (g : globals) (v : Z) : globals :=
  mkGlobals (is_debug_run g) v (writers_count g) (queue g) (in_library g)
    (min_reading_time g) (max_reading_time g) (min_writing_time g) (max_writing_time g).
Definition set_writers_count (g : globals) (v : Z) : globals :=
  mkGlobals (is_debug_run g) (readers_count g) v (queue g) (in_library g)
    (min_reading_time g) (max_reading_time g) (min_writing_time g) (max_writing_time g).
Definition set_queue (g : globals) (v : list presence) : globals :=
  mkGlobals (is_debug_run g) (readers_count g) (writers_count g) v (in_library g)
    (min_reading_time g) (max_reading_time g) (min_writing_time g) (max_writing_time g).
Definition set_in_library (g : globals) (v : list presence) : globals :=
  mkGlobals (is_debug_run g) (readers_count g) (writers_count g) (queue g) v
    (min_reading_time g) (max_reading_time g) (min_writing_time g) (max_writing_time g).
Definition set_reading_time (g : globals) (lo hi : Z) : globals :=
  mkGlobals (is_debug_run g) (readers_count g) (writers_count g) (queue g) (in_library g)
    lo hi (min_writing_time g) (max_writing_time g).
Definition set_writing_time (g : globals) (lo hi : Z) : globals :=
  mkGlobals (is_debug_run g) (readers_count g) (writers_count g) (queue g) (in_library g)
    (min_reading_time g) (max_reading_time g) lo hi.

(** The four counting loops: [i] runs over the first
    [writers_count + readers_count] slots of the array. *)
Fixpoint count_kind (k : Z) (n : nat) (a : list presence) (count : Z) : option Z :=
  match n with
  | O => Some count
  | S n' =>
      match a with
      | [] => None
      | p :: rest =>
          count_kind k n' rest (if kind p =? k then wrap_int (count + 1) else count)
      end
  end.

Definition slots (g : globals) : nat :=
  Z.to_nat (wrap_int (writers_count g + readers_count g)).

Definition get_writers_queue_count (g : globals) : option Z :=
  count_kind WRITER_KIND (slots g) (queue g) 0.
Definition get_readers_queue_count (g : globals) : option Z :=
  count_kind READER_KIND (slots g) (queue g) 0.
Definition get_writers_in_library_count (g : globals) : option Z :=
  count_kind WRITER_KIND (slots g) (in_library g) 0.
Definition get_readers_in_library_count (g : globals) : option Z :=
  count_kind READER_KIND (slots g) (in_library g) 0.

(** The scan [while (a[first_empty_position].kind != NO_KIND)] followed by
    the three assignments. The scan has no bound: it leaves the block when
    no slot is empty. *)
Fixpoint put_first_empty (p : presence) (a : list presence) : option (list presence) :=
  match a with
  | [] => None
  | x :: rest =>
      if kind x =? NO_KIND then Some (p :: rest)
      else option_map (cons x) (put_first_empty p rest)
  end.

Definition get_to_queue (kind id now : Z) (g : globals) : option globals :=
  option_map (set_queue g) (put_first_empty (mkPresence kind id now) (queue g)).

Definition get_to_library (kind id now : Z) (g : globals) : option globals :=
  option_map (set_in_library g) (put_first_empty (mkPresence kind id now) (in_library g)).

(** [leave_queue]: slot [i] takes the content of slot [i + 1] while that one
    is occupied and [i < 20]; then slot [i] is marked empty. The test reads
    [queue[i + 1].kind] before it compares [i], so on a block whose slots
    are all occupied it reads the word that follows the block: [past_end]
    is the value found there. When that word is not [NO_KIND] the loop goes
    on outside the block and the model gives no result. *)
Fixpoint leave_queue_from (past_end : Z) (i : nat) (a : list presence)
  : option (list presence) :=
  match a with
  | [] => None
  | x :: rest =>
      match rest with
      | y :: _ =>
          if negb (kind y =? NO_KIND) && (i <? 20)%nat
          then option_map (cons y) (leave_queue_from past_end (S i) rest)
          else Some (set_kind x NO_KIND :: rest)
      | [] =>
          if negb (past_end =? NO_KIND) && (i <? 20)%nat
          then None
          else Some [set_kind x NO_KIND]
      end
  end.

Definition leave_queue (past_end : Z) (g : globals) : option globals :=
  option_map (set_queue g) (leave_queue_from past_end 0 (queue g)).

(** [leave_library]: the first of the [readers_count + writers_count] slots
    that holds ([kind], [id]) gets kind [NO_KIND]; [break]. *)
Fixpoint leave_library_loop (n : nat) (k i : Z) (a : list presence)
  : option (list presence) :=
  match n with
  | O => Some a
  | S n' =>
      match a with
      | [] => None
      | p :: rest =>
          if (kind p =? k) && (id p =? i)
          then Some (set_kind p NO_KIND :: rest)
          else option_map (cons p) (leave_library_loop n' k i rest)
      end
  end.

Definition leave_library (kind id : Z) (g : globals) : option globals :=
  option_map (set_in_library g)
    (leave_library_loop (Z.to_nat (wrap_int (readers_count g + writers_count g)))
       kind id (in_library g)).

(** The two mutex-protected blocks of [read_books] and of [write_book];
    the [sleep] between them is outside the mutex. *)
Definition read_books_enter (past_end now reader_id : Z) (g : globals) : option globals :=
  g1 <- leave_queue past_end g ;;
  get_to_library READER_KIND reader_id now g1.

Definition read_books_leave (now reader_id : Z) (g : globals) : option globals :=
  g1 <- leave_library READER_KIND reader_id g ;;
  get_to_queue READER_KIND reader_id now g1.

Definition write_book_enter (past_end now writer_id : Z) (g : globals) : option globals :=
  g1 <- leave_queue past_end g ;;
  get_to_library WRITER_KIND writer_id now g1.

Definition write_book_leave (now writer_id : Z) (g : globals) : option globals :=
  g1 <- leave_library WRITER_KIND writer_id g ;;
  get_to_queue WRITER_KIND writer_id now g1.

(** [init_queue]. [clock i] is the timestamp read in iteration [i]. *)
Definition clear_library_slot (i : Z) (g : globals) : option globals :=
  p <- load (in_library g) i ;;
  lib <- store (in_library g) i (set_kind p NO_KIND) ;;
  Some (set_in_library g lib).

Fixpoint init_readers (n : nat) (i : Z) (clock : Z -> Z) (g : globals) : option globals :=
  match n with
  | O => Some g
  | S n' =>
      g1 <- get_to_queue READER_KIND i (clock i) g ;;
      g2 <- clear_library_slot i g1 ;;
      init_readers n' (wrap_int (i + 1)) clock g2
  end.

Fixpoint init_writers (n : nat) (i : Z) (clock : Z -> Z) (g : globals) : option globals :=
  match n with
  | O => Some g
  | S n' =>
      g1 <- get_to_queue WRITER_KIND (wrap_int (i - readers_count g)) (clock i) g ;;
      g2 <- clear_library_slot i g1 ;;
      init_writers n' (wrap_int (i + 1)) clock g2
  end.

Definition init_queue (clock : Z -> Z) (g : globals) : option globals :=
  g1 <- init_readers (Z.to_nat (readers_count g)) 0 clock g ;;
  init_writers
    (Z.to_nat (wrap_int (writers_count g + readers_count g) - readers_count g))
    (readers_count g) clock g1.

(** [variables_initializer]: the two arguments are the blocks [malloc]
    returned, with whatever they hold. *)
Definition variables_initializer (queue_block library_block : list presence)
  (g : globals) : globals :=
  set_in_library (set_queue g queue_block) library_block.

(** [args_interpreter]. [argc] is the length of [argv]; every [argv[k]] the
    source reads is guarded by a test on [argc]. *)
Definition arg (argv : list string) (k : nat) : string := nth k argv EmptyString.

Definition usage : process globals := Exit ERROR_ARGUMENTS_MESSAGE EXIT_FAILURE.

Definition ordered_pair (lo hi : Z) : Z * Z :=
  if lo >? hi then (hi, lo) else (lo, hi).

Definition args_interpreter (atoi : string -> Z) (argv : list string) (g : globals)
  : process globals :=
  let argc := Z.of_nat (List.length argv) in
  if argc <? 3 then usage else
  let g := set_writers_count g (atoi (arg argv 1)) in
  let g := set_readers_count g (atoi (arg argv 2)) in
  g <-- (if argc >? 3 then
           if String.eqb (arg argv 3) "-t" then
             if argc <? 8 then usage
             else
               let (rlo, rhi) := ordered_pair (atoi (arg argv 4)) (atoi (arg argv 5)) in
               let g := set_reading_time g rlo rhi in
               let (wlo, whi) := ordered_pair (atoi (arg argv 6)) (atoi (arg argv 7)) in
               Continue (set_writing_time g wlo whi)
           else if String.eqb (arg argv 3) "-debug" then Continue (set_is_debug_run g 1)
           else usage
         else Continue g) ;;
  g <-- (if argc =? 9 then
           if String.eqb (arg argv 8) "-debug" then Continue (set_is_debug_run g 1)
           else usage
         else Continue g) ;;
  if argc >? 9 then usage else Continue g.

(** [main] up to the creation of the threads. *)
Definition main_start (atoi : string -> Z) (argv : list string)
  (queue_block library_block : list presence) (clock : Z -> Z)
  : process (option globals) :=
  g <-- args_interpreter atoi argv globals0 ;;
  Continue (init_queue clock (variables_initializer queue_block library_block g)).

(** The librarian's choice in one turn of its loop: whose condition
    variable it broadcasts once the wait of the chosen branch is over.
    [None] means that it is still waiting. *)
Inductive wake : Type :=
| WakeReader (reader_id : Z)
| WakeWriter (writer_id : Z).

Definition librarian_turn (g : globals) : option (option wake) :=
  head <- load (queue g) 0 ;;
  if kind head =? READER_KIND then
    w <- get_writers_in_library_count g ;;
    Some (if w =? 0 then Some (WakeReader (id head)) else None)
  else if kind head =? WRITER_KIND then
    r <- get_readers_in_library_count g ;;
    w <- get_writers_in_library_count g ;;
    Some (if (r =? 0) && (w =? 0) then Some (WakeWriter (id head)) else None)
  else
    r <- get_readers_in_library_count g ;;
    w <- get_writers_in_library_count g ;;
    Some (if (r =? 0) && (w =? 0) then Some (WakeReader (id head)) else None).

(** The woken thread runs the first block of [read_books] or [write_book]. *)
Definition enter (past_end now : Z) (w : wake) (g : globals) : option globals :=
  match w with
  | WakeReader i => read_books_enter past_end now i g
  | WakeWriter i => write_book_enter past_end now i g
  end.

Definition depart (now : Z) (w : wake) (g : globals) : option globals :=
  match w with
  | WakeReader i => read_books_leave now i g
  | WakeWriter i => write_book_leave now i g
  end.

(** [serve n]: [n] turns of the librarian, each followed by the admission
    of the thread it woke; the result lists the admissions in order. *)
Fixpoint serve (n : nat) (past_end now : Z) (g : globals)
  : option (list wake * globals) :=
  match n with
  | O => Some ([], g)
  | S n' =>
      t <- librarian_turn g ;;
      match t with
      | None => Some ([], g)
      | Some w =>
          g1 <- enter past_end now w g ;;
          r <- serve n' past_end now g1 ;;
          Some (w :: fst r, snd r)
      end
  end.

(** ** The threads

    Where each thread stands between two of its steps. A step is a
    mutex-protected block, a read of the queue head made outside the
    mutex, or a call on a condition variable. [reader] and [writer] are the
    same loop. *)
Inductive thread_at : Type :=
| TTop          (* before [pthread_mutex_lock] in the loop of the thread *)
| TCondWait     (* in [pthread_cond_wait] on its own condition variable *)
| TWoken        (* after [pthread_mutex_unlock], before [read_books] or [write_book] *)
| TInside.      (* in the [sleep] of [read_books] or [write_book] *)

Inductive librarian_at : Type :=
| LTop                  (* before [switch (queue[0].kind)] *)
| LWait (case : Z)      (* in the [do ... while] of the case taken for that kind *)
| LBroadcast (case : Z). (* the loop is left, before [pthread_cond_broadcast] *)

Record system : Type := mkSystem {
  mem : globals;
  readers : list thread_at;
  writers : list thread_at;
  librarian : librarian_at;
  time_now : Z
}.

Inductive action : Type :=
| Tick
| ThreadWait (t : wake)
| ThreadEnter (t : wake)
| ThreadLeave (t : wake)
| LibrarianSwitch
| LibrarianCheck
| LibrarianBroadcast.

Definition thread_at_eqb (a b : thread_at) : bool :=
  match a, b with
  | TTop, TTop | TCondWait, TCondWait | TWoken, TWoken | TInside, TInside => true
  | _, _ => false
  end.

Definition with_mem (s : system) (g : globals) : system :=
  mkSystem g (readers s) (writers s) (librarian s) (time_now s).
Definition with_readers (s : system) (rs : list thread_at) : system :=
  mkSystem (mem s) rs (writers s) (librarian s) (time_now s).
Definition with_writers (s : system) (ws : list thread_at) : system :=
  mkSystem (mem s) (readers s) ws (librarian s) (time_now s).
Definition with_librarian (s : system) (l : librarian_at) : system :=
  mkSystem (mem s) (readers s) (writers s) l (time_now s).

(** Thread [t] moves from [from] to [to]. *)
Definition move_thread (t : wake) (from to : thread_at) (s : system) : option system :=
  match t with
  | WakeReader i =>
      option_map (with_readers s) (move thread_at_eqb (readers s) i from to)
  | WakeWriter i =>
      option_map (with_writers s) (move thread_at_eqb (writers s) i from to)
  end.

(** [pthread_cond_broadcast] on the condition variable of thread [t]: the
    thread leaves its wait and unlocks; lost when it does not wait there. *)
Definition broadcast (t : wake) (s : system) : system :=
  match move_thread t TCondWait TWoken s with
  | Some s' => s'
  | None => s
  end.

(** The test that ends the [do ... while] of a case of the librarian. *)
Definition librarian_may_go (case : Z) (g : globals) : option bool :=
  if case =? READER_KIND then
    w <- get_writers_in_library_count g ;;
    Some (w =? 0)
  else
    r <- get_readers_in_library_count g ;;
    w <- get_writers_in_library_count g ;;
    Some ((r =? 0) && (w =? 0)).

(** [past_end] is the value of the word after the queue block. *)
Definition step (past_end : Z) (a : action) (s : system) : option system :=
  match a with
  | Tick => Some (mkSystem (mem s) (readers s) (writers s) (librarian s) (time_now s + 1))
  | ThreadWait t => move_thread t TTop TCondWait s
  | ThreadEnter t =>
      s1 <- move_thread t TWoken TInside s ;;
      g <- enter past_end (time_now s) t (mem s) ;;
      Some (with_mem s1 g)
  | ThreadLeave t =>
      s1 <- move_thread t TInside TTop s ;;
      g <- depart (time_now s) t (mem s) ;;
      Some (with_mem s1 g)
  | LibrarianSwitch =>
      match librarian s with
      | LTop =>
          head <- load (queue (mem s)) 0 ;;
          Some (with_librarian s (LWait (kind head)))
      | _ => None
      end
  | LibrarianCheck =>
      match librarian s with
      | LWait case =>
          go <- librarian_may_go case (mem s) ;;
          Some (if go then with_librarian s (LBroadcast case) else s)
      | _ => None
      end
  | LibrarianBroadcast =>
      match librarian s with
      | LBroadcast case =>
          head <- load (queue (mem s)) 0 ;;
          let t := if case =? WRITER_KIND then WakeWriter (id head)
                   else WakeReader (id head) in
          Some (with_librarian (broadcast t s) LTop)
      | _ => None
      end
  end.

Fixpoint run (past_end : Z) (acts : list action) (s : system) : option system :=
  match acts with
  | [] => Some s
  | a :: rest => s1 <- step past_end a s ;; run past_end rest s1
  end.

(** The system as [main] leaves it once the threads are created. *)
Definition boot (g : globals) (now : Z) : system :=
  {| mem := g;
     readers := repeat TTop (Z.to_nat (readers_count g));
     writers := repeat TTop (Z.to_nat (writers_count g));
     librarian := LTop;
     time_now := now |}.

Definition reachable (past_end : Z) (s0 s : system) : Prop :=
  exists acts, run past_end acts s0 = Some s.

End RW2.

(** * The vocabulary of the properties *)

(** ** Command lines *)

(** What a command line with [-t] leaves in the globals of [r_w_1.c]. *)
Definition times_ordered_1 (atoi : string -> Z) (argv : list string) (g : RW1.globals)
  : Prop :=
  let a k := atoi (RW1.arg argv k) in
  RW1.min_reading_time g = Z.min (a 4%nat) (a 5%nat) /\
  RW1.max_reading_time g = Z.max (a 4%nat) (a 5%nat) /\
  RW1.min_writing_time g = Z.min (a 6%nat) (a 7%nat) /\
  RW1.max_writing_time g = Z.max (a 6%nat) (a 7%nat) /\
  RW1.min_allow_read_time g = Z.min (a 8%nat) (a 9%nat) /\
  RW1.max_allow_read_time g = Z.max (a 8%nat) (a 9%nat) /\
  RW1.min_reading_time g <= RW1.max_reading_time g /\
  RW1.min_writing_time g <= RW1.max_writing_time g /\
  RW1.min_allow_read_time g <= RW1.max_allow_read_time g.

(** The same for [r_w_2.c], which has no window bounds. *)
Definition times_ordered_2 (atoi : string -> Z) (argv : list string) (g : RW2.globals)
  : Prop :=
  let a k := atoi (RW2.arg argv k) in
  RW2.min_reading_time g = Z.min (a 4%nat) (a 5%nat) /\
  RW2.max_reading_time g = Z.max (a 4%nat) (a 5%nat) /\
  RW2.min_writing_time g = Z.min (a 6%nat) (a 7%nat) /\
  RW2.max_writing_time g = Z.max (a 6%nat) (a 7%nat) /\
  RW2.min_reading_time g <= RW2.max_reading_time g /\
  RW2.min_writing_time g <= RW2.max_writing_time g.

(** The command lines the specification calls malformed, as far as the
    programs refuse them: too few arguments, a flag that is not known at
    the place where a flag is looked for, too many arguments. [most] is the
    largest accepted length, [need] the length a [-t] line needs. *)
Definition too_few (arg : list string -> nat -> string) (need : nat)
  (argv : list string) : Prop :=
  (List.length argv < 3)%nat \/
  (arg argv 3%nat = "-t"%string /\ (3 < List.length argv < need)%nat).

Definition unknown_flag (arg : list string -> nat -> string) (most : nat)
  (argv : list string) : Prop :=
  ((3 < List.length argv)%nat /\
   arg argv 3%nat <> "-t"%string /\ arg argv 3%nat <> "-debug"%string) \/
  (List.length argv = most /\ arg argv (most - 1)%nat <> "-debug"%string).

(** More arguments than the longest accepted command line has. *)
Definition too_many (most : nat) (argv : list string) : Prop :=
  (most < List.length argv)%nat.

(** The three cases for [r_w_1.c] (a [-t] line has 10 or 11 arguments) and
    for [r_w_2.c] (8 or 9). *)
Definition refused_1 (argv : list string) : Prop :=
  too_few RW1.arg 10 argv \/ unknown_flag RW1.arg 11 argv \/ too_many 11 argv.

Definition refused_2 (argv : list string) : Prop :=
  too_few RW2.arg 8 argv \/ unknown_flag RW2.arg 9 argv \/ too_many 9 argv.

(** ** The queue and the library of [r_w_2.c] *)

(** The slot holds the thread ([k], [i]). *)
Definition holds (k i : Z) (p : RW2.presence) : bool :=
  (RW2.kind p =? k) && (RW2.id p =? i).

(** A slot with a thread in it and a slot without. *)
Definition occupied (p : RW2.presence) : Prop := RW2.kind p <> RW2.NO_KIND.
Definition empty (p : RW2.presence) : Prop := RW2.kind p = RW2.NO_KIND.

(** The slot written in iteration [j] of the first and of the second loop
    of [init_queue], for [r] readers. *)
Definition reader_slot (clock : Z -> Z) (j : nat) : RW2.presence :=
  RW2.mkPresence RW2.READER_KIND (Z.of_nat j) (clock (Z.of_nat j)).

Definition writer_slot (clock : Z -> Z) (r : Z) (j : nat) : RW2.presence :=
  RW2.mkPresence RW2.WRITER_KIND (Z.of_nat j - r) (clock (Z.of_nat j)).

(** The slot after [in_library[i].kind = NO_KIND]. *)
Definition cleared (p : RW2.presence) : RW2.presence := RW2.set_kind p RW2.NO_KIND.

(** The queue [init_queue] builds for [r] readers and [w] writers: the
    readers 0, ..., [r - 1], then the writers 0, ..., [w - 1], each with the
    timestamp read when it was put there. *)
Definition initial_queue (clock : Z -> Z) (r w : nat) : list RW2.presence :=
  map (fun j => RW2.mkPresence RW2.READER_KIND (Z.of_nat j) (clock (Z.of_nat j))) (seq 0 r)
  ++ map (fun j => RW2.mkPresence RW2.WRITER_KIND (Z.of_nat j) (clock (Z.of_nat (r + j))))
       (seq 0 w).

(** How many slots of an array satisfy [f]. *)
Fixpoint tally (f : RW2.presence -> bool) (a : list RW2.presence) : Z :=
  match a with
  | [] => 0
  | p :: rest => (if f p then 1 else 0) + tally f rest
  end.

(** The test of the counting loops: the slot holds a thread of kind [k]. *)
Definition kind_is (k : Z) (p : RW2.presence) : bool := RW2.kind p =? k.

(** [f] looks at threads only: it is false on an empty slot and does not
    depend on the timestamp. *)
Definition counts_threads (f : RW2.presence -> bool) : Prop :=
  (forall p, RW2.kind p = RW2.NO_KIND -> f p = false) /\
  (forall p q, RW2.kind p = RW2.kind q -> RW2.id p = RW2.id q -> f p = f q).

(** Both arrays have the [writers_count + readers_count] slots that
    [variables_initializer] asks for. *)
Definition well_formed (g : RW2.globals) : Prop :=
  List.length (RW2.queue g) = RW2.slots g /\
  List.length (RW2.in_library g) = RW2.slots g.

(** For each kind, the number of threads in the queue plus the number in
    the library, as the four counting functions of the source give them:
    (readers, writers). *)
Definition kind_sums (g : RW2.globals) : option (Z * Z) :=
  rq <- RW2.get_readers_queue_count g ;;
  rl <- RW2.get_readers_in_library_count g ;;
  wq <- RW2.get_writers_queue_count g ;;
  wl <- RW2.get_writers_in_library_count g ;;
  Some (rq + rl, wq + wl).

(** The number of slots of both arrays together that hold thread
    ([k], [i]). *)
Definition copies (k i : Z) (g : RW2.globals) : Z :=
  tally (holds k i) (RW2.queue g) + tally (holds k i) (RW2.in_library g).

(** What is the same before and after a move of a thread between the two
    arrays: the arrays keep their sizes, the per-kind sums of the counting
    functions have a value and keep it, and every thread occupies as many
    slots as before. *)
Definition conserved (g g' : RW2.globals) : Prop :=
  well_formed g' /\
  (exists sums, kind_sums g = Some sums /\ kind_sums g' = Some sums) /\
  (forall k i, k <> RW2.NO_KIND -> copies k i g' = copies k i g).

(** ** The counters and the arrays of [r_w_1.c] *)

(** (readers queued + readers inside, writers queued + writers inside),
    from the four counters. *)
Definition counter_sums (g : RW1.globals) : Z * Z :=
  (RW1.readers_queue_count g + RW1.readers_in_library_count g,
   RW1.writers_queue_count g + RW1.writers_in_library_count g).

(** No counter is at an end of the [int] range. *)
Definition counters_safe (g : RW1.globals) : Prop :=
  INT_MIN < RW1.readers_queue_count g < INT_MAX /\
  INT_MIN < RW1.readers_in_library_count g < INT_MAX /\
  INT_MIN < RW1.writers_queue_count g < INT_MAX /\
  INT_MIN < RW1.writers_in_library_count g < INT_MAX.

(** [i] is an index of the two arrays of its kind. *)
Definition reader_id_ok (g : RW1.globals) (i : Z) : Prop :=
  0 <= i < Z.of_nat (List.length (RW1.readers_in_library g)) /\
  0 <= i < Z.of_nat (List.length (RW1.readers_queue g)).

Definition writer_id_ok (g : RW1.globals) (i : Z) : Prop :=
  0 <= i < Z.of_nat (List.length (RW1.writers_in_library g)) /\
  0 <= i < Z.of_nat (List.length (RW1.writers_queue g)).

(** Thread [i] is the only one whose slot changed from [a] to [a']. *)
Definition only_slot (i : Z) (a a' : list Z) : Prop :=
  List.length a' = List.length a /\ forall j, j <> i -> load a' j = load a j.

(** The time writer [j] has waited, as the scan computes it. *)
Definition waited (clock : Z -> Z) (wq : list Z) (j : nat) : Z :=
  wrap_int (clock (Z.of_nat j) - nth j wq 0).

(** What the scan knows after the first [k] writers: [t] bounds their
    waiting times, and [m] is 0 as long as no time was positive, else the
    first writer that waited [t]. *)
Definition scanned (clock : Z -> Z) (wq : list Z) (k : nat) (m t : Z) : Prop :=
  0 <= t /\
  (forall j, (j < k)%nat -> waited clock wq j <= t) /\
  ((t = 0 /\ m = 0) \/
   (exists m', m = Z.of_nat m' /\ (m' < k)%nat /\ waited clock wq m' = t /\ 0 < t /\
               forall j, (j < m')%nat -> waited clock wq j < t)).

(** ** Threads and counters of [r_w_1.c] *)

(** How many threads of a list stand at [x]. *)
Fixpoint standing {A : Type} (eqb : A -> A -> bool) (x : A) (l : list A) : Z :=
  match l with
  | [] => 0
  | a :: rest => (if eqb a x then 1 else 0) + standing eqb x rest
  end.

(** The readers in the [sleep] of [read_books] and the writers in the
    [sleep] of [write_book]. *)
Definition reading (s : RW1.system) : Z :=
  standing RW1.reader_at_eqb RW1.RReading (RW1.readers s).

Definition writing (s : RW1.system) : Z :=
  standing RW1.writer_at_eqb RW1.WWriting (RW1.writers s).

(** The four counters say where the threads are: the library counters are
    the numbers of threads between the two blocks of [read_books] and of
    [write_book], the queue counters the numbers of the other threads; the
    four arrays have one slot per thread. *)
Definition counted (s : RW1.system) : Prop :=
  RW1.readers_in_library_count (RW1.mem s) = reading s /\
  RW1.readers_queue_count (RW1.mem s)
  = Z.of_nat (List.length (RW1.readers s)) - reading s /\
  RW1.writers_in_library_count (RW1.mem s) = writing s /\
  RW1.writers_queue_count (RW1.mem s)
  = Z.of_nat (List.length (RW1.writers s)) - writing s /\
  List.length (RW1.readers_in_library (RW1.mem s)) = List.length (RW1.readers s) /\
  List.length (RW1.readers_queue (RW1.mem s)) = List.length (RW1.readers s) /\
  List.length (RW1.writers_in_library (RW1.mem s)) = List.length (RW1.writers s) /\
  List.length (RW1.writers_queue (RW1.mem s)) = List.length (RW1.writers s) /\
  Z.of_nat (List.length (RW1.readers s)) < INT_MAX /\
  Z.of_nat (List.length (RW1.writers s)) < INT_MAX.

(** ** Accepted command lines *)

(** The command line asks for the debug mode: [-debug] is its fourth
    argument, or its last one at the largest accepted length. *)
Definition asks_debug (arg : list string -> nat -> string) (most : nat)
  (argv : list string) : Prop :=
  ((3 < List.length argv)%nat /\ arg argv 3%nat = "-debug"%string) \/
  (List.length argv = most /\ arg argv (most - 1)%nat = "-debug"%string).

(** What [args_interpreter] of [r_w_1.c] leaves in the globals [g'] when it
    goes on from [g]: the two counts as [atoi] gives them, the queue
    counters equal to them, the debug flag as asked, the time bounds
    untouched unless [-t] gives them, and the rest as it was. *)
Definition accepted_1 (atoi : string -> Z) (argv : list string) (g g' : RW1.globals)
  : Prop :=
  RW1.writers_count g' = atoi (RW1.arg argv 1) /\
  RW1.writers_queue_count g' = atoi (RW1.arg argv 1) /\
  RW1.readers_count g' = atoi (RW1.arg argv 2) /\
  RW1.readers_queue_count g' = atoi (RW1.arg argv 2) /\
  (asks_debug RW1.arg 11 argv -> RW1.is_debug_run g' = 1) /\
  (~ asks_debug RW1.arg 11 argv -> RW1.is_debug_run g' = RW1.is_debug_run g) /\
  (RW1.arg argv 3 <> "-t"%string ->
   RW1.min_reading_time g' = RW1.min_reading_time g /\
   RW1.max_reading_time g' = RW1.max_reading_time g /\
   RW1.min_writing_time g' = RW1.min_writing_time g /\
   RW1.max_writing_time g' = RW1.max_writing_time g /\
   RW1.min_allow_read_time g' = RW1.min_allow_read_time g /\
   RW1.max_allow_read_time g' = RW1.max_allow_read_time g) /\
  RW1.writers_in_library_count g' = RW1.writers_in_library_count g /\
  RW1.readers_in_library_count g' = RW1.readers_in_library_count g /\
  RW1.writer_notification g' = RW1.writer_notification g /\
  RW1.writers_in_library g' = RW1.writers_in_library g /\
  RW1.readers_in_library g' = RW1.readers_in_library g /\
  RW1.writers_queue g' = RW1.writers_queue g /\
  RW1.readers_queue g' = RW1.readers_queue g.

(** The same for [r_w_2.c]. *)
Definition accepted_2 (atoi : string -> Z) (argv : list string) (g g' : RW2.globals)
  : Prop :=
  RW2.writers_count g' = atoi (RW2.arg argv 1) /\
  RW2.readers_count g' = atoi (RW2.arg argv 2) /\
  (asks_debug RW2.arg 9 argv -> RW2.is_debug_run g' = 1) /\
  (~ asks_debug RW2.arg 9 argv -> RW2.is_debug_run g' = RW2.is_debug_run g) /\
  (RW2.arg argv 3 <> "-t"%string ->
   RW2.min_reading_time g' = RW2.min_reading_time g /\
   RW2.max_reading_time g' = RW2.max_reading_time g /\
   RW2.min_writing_time g' = RW2.min_writing_time g /\
   RW2.max_writing_time g' = RW2.max_writing_time g) /\
  RW2.queue g' = RW2.queue g /\
  RW2.in_library g' = RW2.in_library g.

(** ** Who is in the library of [r_w_2.c] *)

(** As the two counting functions of the library see it: readers only, or
    one writer and nobody else. *)
Definition exclusive (g : RW2.globals) : Prop :=
  exists r w,
    RW2.get_readers_in_library_count g = Some r /\
    RW2.get_writers_in_library_count g = Some w /\
    0 <= r /\ (w = 0 \/ (w = 1 /\ r = 0)).

(** The admissions of a round of service: readers only, or one writer. *)
Definition is_reader (w : RW2.wake) : Prop :=
  match w with
  | RW2.WakeReader _ => True
  | RW2.WakeWriter _ => False
  end.

Definition readers_or_one_writer (ws : list RW2.wake) : Prop :=
  Forall is_reader ws \/ exists i, ws = [RW2.WakeWriter i].

(** ** The queue of [r_w_2.c] as a line of threads *)

(** What follows the queued threads: an empty slot, or the end of the
    block with [NO_KIND] in the word after it. *)
Definition compact_tail (past_end : Z) (tail : list RW2.presence) : Prop :=
  match tail with
  | [] => past_end = RW2.NO_KIND
  | e :: _ => empty e
  end.

(** The slot of a reader, and the wake-up its turn at the head gives. *)
Definition queued_reader (p : RW2.presence) : Prop := RW2.kind p = RW2.READER_KIND.

Definition wake_reader (p : RW2.presence) : RW2.wake := RW2.WakeReader (RW2.id p).

(** The slot [get_to_library] writes for the reader of slot [p]. *)
Definition reading_since (now : Z) (p : RW2.presence) : RW2.presence :=
  RW2.mkPresence RW2.READER_KIND (RW2.id p) now.

(** ** Threads and library slots of [r_w_2.c] *)

(** 1 for a thread in the [sleep] of [read_books] or [write_book]. *)
Definition is_inside (a : RW2.thread_at) : Z :=
  if RW2.thread_at_eqb a RW2.TInside then 1 else 0.

(** 1 when thread [j] of the list is inside, 0 when it is elsewhere or
    when there is no thread [j]. *)
Definition inside (l : list RW2.thread_at) (j : Z) : Z :=
  match load l j with
  | Some a => is_inside a
  | None => 0
  end.

Definition kind_of (t : RW2.wake) : Z :=
  match t with
  | RW2.WakeReader _ => RW2.READER_KIND
  | RW2.WakeWriter _ => RW2.WRITER_KIND
  end.

Definition id_of (t : RW2.wake) : Z :=
  match t with
  | RW2.WakeReader i => i
  | RW2.WakeWriter i => i
  end.

(** The same for thread ([k], [j]) of the system. *)
Definition thread_inside (s : RW2.system) (k j : Z) : Z :=
  if k =? RW2.READER_KIND then inside (RW2.readers s) j
  else if k =? RW2.WRITER_KIND then inside (RW2.writers s) j
  else 0.

(** How many threads of the list are inside. *)
Definition headcount (l : list RW2.thread_at) : Z :=
  standing RW2.thread_at_eqb RW2.TInside l.

(** The library array says who is inside: it has the allocated size, and
    every reader and writer has one slot there when it is between the two
    blocks of [read_books] or [write_book], and none otherwise. *)
Definition library_tracks (s : RW2.system) : Prop :=
  List.length (RW2.in_library (RW2.mem s)) = RW2.slots (RW2.mem s) /\
  forall k j, k = RW2.READER_KIND \/ k = RW2.WRITER_KIND ->
    tally (holds k j) (RW2.in_library (RW2.mem s)) = thread_inside s k j.

(** The slot holds a thread of kind [k] whose id is one of the first [m]. *)
Definition below (k : Z) (m : nat) (p : RW2.presence) : bool :=
  kind_is k p && (0 <=? RW2.id p) && (RW2.id p <? Z.of_nat m).

(** The library after the threads [ps] took, one after the other, the
    first slot that was empty: the empty slots are filled in the order of
    the array, the other slots are kept. *)
Fixpoint seat (ps : list RW2.presence) (lib : list RW2.presence) : list RW2.presence :=
  match lib with
  | [] => []
  | s :: rest =>
      if RW2.kind s =? RW2.NO_KIND
      then match ps with
           | p :: ps' => p :: seat ps' rest
           | [] => s :: rest
           end
      else s :: seat ps rest
  end.

(** * Properties *)

(** ** Tactics *)

Ltac int_bounds := unfold in_int, INT_MIN, INT_MAX in *.

(** Lists of a known length are opened into their elements. *)
Ltac open_argv argv H :=
  repeat (destruct argv as [| ? argv]; simpl in H; try discriminate H).

Ltac bool_facts :=
  repeat match goal with
    | H : (_ <? _) = true |- _ => apply Z.ltb_lt in H
    | H : (_ <? _) = false |- _ => apply Z.ltb_ge in H
    | H : (_ >? _) = true |- _ => rewrite Z.gtb_ltb in H; apply Z.ltb_lt in H
    | H : (_ >? _) = false |- _ => rewrite Z.gtb_ltb in H; apply Z.ltb_ge in H
    | H : (_ =? _) = true |- _ => apply Z.eqb_eq in H
    | H : (_ =? _) = false |- _ => apply Z.eqb_neq in H
    | H : String.eqb _ _ = true |- _ => apply String.eqb_eq in H
    | H : String.eqb _ _ = false |- _ => apply String.eqb_neq in H
    end.

Ltac split_tests :=
  repeat match goal with
    | |- context [if ?c then _ else _] => destruct c eqn:?; cbn [pbind]
    | |- context [let (_, _) := ?p in _] => destruct p
    end.

(** Closed facts about explicit runs: each conjunct is evaluated in turn,
    the earlier ones giving the states the later ones start from. *)
Ltac by_running :=
  repeat (split; [vm_compute; reflexivity |]); vm_compute; reflexivity.

(** ** C integers *)

Lemma wrap_int_shift (z k : Z) :
  in_int (z - k * 4294967296) -> wrap_int z = z - k * 4294967296.
Proof.
  unfold in_int, INT_MIN, INT_MAX, wrap_int. intros H.
  replace (z + 2147483648)
    with ((z - k * 4294967296 + 2147483648) + k * 4294967296) by ring.
  rewrite Z_mod_plus_full, Z.mod_small; lia.
Qed.

Lemma wrap_int_id (z : Z) : in_int z -> wrap_int z = z.
Proof.
  intros H. rewrite (wrap_int_shift z 0); [ring | now rewrite Z.sub_0_r].
Qed.

Lemma wrap_int_range (z : Z) : in_int (wrap_int z).
Proof.
  unfold in_int, INT_MIN, INT_MAX, wrap_int.
  pose proof (Z.mod_pos_bound (z + 2147483648) 4294967296 ltac:(lia)). lia.
Qed.

(** ** [get_random] *)

Lemma rem_by_negative (r m : Z) :
  0 <= r -> 0 < m -> 0 <= Z.rem r (- m) < m.
Proof.
  intros Hr Hm. rewrite Z.rem_opp_r by lia. apply Z.rem_bound_pos; lia.
Qed.

(** Away from the pair ([INT_MIN], [INT_MAX]) a value is returned, and it
    is within the bounds. *)
Lemma get_random_in_range (rand_value min max : Z) :
  in_int min -> in_int max -> 0 <= rand_value <= INT_MAX ->
  min <= max ->
  ~ (min = INT_MIN /\ max = INT_MAX) ->
  exists v, get_random rand_value min max = Some v /\ min <= v <= max.
Proof.
  intros Hmin Hmax Hr Hle Hfull. unfold get_random.
  destruct (Z_le_gt_dec (max - min) 2147483646) as [Hsmall | Hbig].
  - (* the range is computed without overflow *)
    rewrite (wrap_int_id (max - min)) by (int_bounds; lia).
    rewrite (wrap_int_id (max - min + 1)) by (int_bounds; lia).
    destruct (Z.eqb_spec (max - min + 1) 0) as [E | _]; [lia |].
    pose proof (Z.rem_bound_pos rand_value (max - min + 1)) as Hb.
    exists (Z.rem rand_value (max - min + 1) + min).
    rewrite wrap_int_id by (int_bounds; lia). split; [reflexivity | int_bounds; lia].
  - destruct (Z.eq_dec (max - min) 2147483647) as [Heq | Hne].
    + (* [max - min] is INT_MAX: adding 1 wraps to INT_MIN *)
      rewrite (wrap_int_id (max - min)) by (int_bounds; lia).
      rewrite Heq. change (wrap_int (2147483647 + 1)) with (- 2147483648).
      simpl (_ =? _).
      assert (Z.rem rand_value (- 2147483648) = rand_value) as ->.
      { change (- 2147483648) with (Z.opp 2147483648).
        rewrite Z.rem_opp_r by lia. apply Z.rem_small. int_bounds; lia. }
      exists (rand_value + min).
      rewrite wrap_int_id by (int_bounds; lia). split; [reflexivity | int_bounds; lia].
    + (* the subtraction itself wraps: the range is negative *)
      rewrite (wrap_int_shift (max - min) 1) by (int_bounds; lia).
      rewrite (wrap_int_id (max - min - 1 * 4294967296 + 1)) by (int_bounds; lia).
      destruct (Z.eqb_spec (max - min - 1 * 4294967296 + 1) 0) as [E | _];
        [int_bounds; lia |].
      pose proof (rem_by_negative rand_value (4294967296 - (max - min) - 1)) as Hb.
      replace (- (4294967296 - (max - min) - 1))
        with (max - min - 1 * 4294967296 + 1) in Hb by ring.
      exists (Z.rem rand_value (max - min - 1 * 4294967296 + 1) + min).
      rewrite wrap_int_id by (int_bounds; lia). split; [reflexivity | int_bounds; lia].
Qed.

(** C8: for all [int] bounds [min <= max] and every value [rand ()] can
    return, every value that [get_random] returns lies within
    [min, max], both ends included. A value is returned for every such
    pair but ([INT_MIN], [INT_MAX]), whose size wraps to 0. *)
Theorem get_random_within_bounds (rand_value min max : Z) :
  in_int min -> in_int max -> 0 <= rand_value <= INT_MAX ->
  min <= max ->
  (forall v, get_random rand_value min max = Some v -> min <= v <= max) /\
  (get_random rand_value min max = None <-> min = INT_MIN /\ max = INT_MAX).
Proof.
  intros Hmin Hmax Hr Hle.
  destruct (Z.eq_dec min INT_MIN) as [E1 | N1];
    [destruct (Z.eq_dec max INT_MAX) as [E2 | N2] |].
  - subst min max.
    assert (Hnone : get_random rand_value INT_MIN INT_MAX = None) by reflexivity.
    split.
    + intros v H. rewrite Hnone in H. discriminate H.
    + split; [intros _; split; reflexivity | intros _; exact Hnone].
  - destruct (get_random_in_range rand_value min max Hmin Hmax Hr Hle)
      as (v0 & E & Hb); [intros [_ H]; contradiction |].
    split.
    + intros v H. rewrite E in H. injection H as <-. exact Hb.
    + split; [intros H; rewrite E in H; discriminate H | intros [_ H]; contradiction].
  - destruct (get_random_in_range rand_value min max Hmin Hmax Hr Hle)
      as (v0 & E & Hb); [intros [H _]; contradiction |].
    split.
    + intros v H. rewrite E in H. injection H as <-. exact Hb.
    + split; [intros H; rewrite E in H; discriminate H | intros [H _]; contradiction].
Qed.

Lemma get_random_within_bounds_witness :
  get_random 12345 5 15 = Some 8 /\ 5 <= 8 <= 15.
Proof.
  split; [reflexivity |].
  apply (proj1 (get_random_within_bounds 12345 5 15
                  ltac:(int_bounds; lia) ltac:(int_bounds; lia)
                  ltac:(int_bounds; lia) ltac:(lia)) 8).
  reflexivity.
Defined.

(** ** [args_interpreter] *)

Lemma ordered_pair_min_max (ordered_pair : Z -> Z -> Z * Z) (lo hi : Z) :
  ordered_pair lo hi = (if lo >? hi then (hi, lo) else (lo, hi)) ->
  ordered_pair lo hi = (Z.min lo hi, Z.max lo hi).
Proof.
  intros ->. rewrite Z.gtb_ltb.
  destruct (Z.ltb_spec hi lo); f_equal; lia.
Qed.

Lemma ordered_pair_1 (lo hi : Z) :
  RW1.ordered_pair lo hi = (Z.min lo hi, Z.max lo hi).
Proof. now apply ordered_pair_min_max. Qed.

Lemma ordered_pair_2 (lo hi : Z) :
  RW2.ordered_pair lo hi = (Z.min lo hi, Z.max lo hi).
Proof. now apply ordered_pair_min_max. Qed.

(** C6: a command line that gives the durations with [-t] is accepted, and
    each pair it gives (reading, writing and, in [r_w_1.c], the window) ends
    up in the globals as (smaller, larger): a pair with [min > max] is
    swapped, and [min <= max] holds for every pair. *)
Theorem args_interpreter_orders_time_bounds (atoi : string -> Z) (argv : list string) :
  (forall g,
      RW1.arg argv 3 = "-t"%string ->
      (List.length argv = 10%nat \/
       (List.length argv = 11%nat /\ RW1.arg argv 10 = "-debug"%string)) ->
      exists g', RW1.args_interpreter atoi argv g = Continue g' /\
                 times_ordered_1 atoi argv g') /\
  (forall g,
      RW2.arg argv 3 = "-t"%string ->
      (List.length argv = 8%nat \/
       (List.length argv = 9%nat /\ RW2.arg argv 8 = "-debug"%string)) ->
      exists g', RW2.args_interpreter atoi argv g = Continue g' /\
                 times_ordered_2 atoi argv g').
Proof.
  split; intros g Ht Hlen.
  - destruct Hlen as [Hlen | [Hlen Hd]]; open_argv argv Hlen;
      cbn in Ht; try (cbn in Hd); subst;
      unfold RW1.args_interpreter, times_ordered_1; cbn;
      rewrite !ordered_pair_1; cbn;
      eexists; (split; [reflexivity |]); cbn; repeat split; lia.
  - destruct Hlen as [Hlen | [Hlen Hd]]; open_argv argv Hlen;
      cbn in Ht; try (cbn in Hd); subst;
      unfold RW2.args_interpreter, times_ordered_2; cbn;
      rewrite !ordered_pair_2; cbn;
      eexists; (split; [reflexivity |]); cbn; repeat split; lia.
Qed.

(** The example of the specification: [min = 10], [max = 5] gives the
    bounds 5 and 10, in both programs. *)
Lemma args_interpreter_orders_time_bounds_witness :
  (exists g,
      RW1.args_interpreter atoi_c
        ["ReaderAndWriters1"; "2"; "3"; "-t"; "10"; "5"; "15"; "5"; "20"; "10"]%string
        RW1.globals0 = Continue g /\
      RW1.min_reading_time g = 5 /\ RW1.max_reading_time g = 10) /\
  (exists g,
      RW2.args_interpreter atoi_c
        ["ReaderAndWriters2"; "2"; "3"; "-t"; "10"; "5"; "15"; "5"; "-debug"]%string
        RW2.globals0 = Continue g /\
      RW2.min_reading_time g = 5 /\ RW2.max_reading_time g = 10).
Proof.
  split.
  - destruct (proj1 (args_interpreter_orders_time_bounds atoi_c
        ["ReaderAndWriters1"; "2"; "3"; "-t"; "10"; "5"; "15"; "5"; "20"; "10"]%string)
        RW1.globals0 eq_refl (or_introl eq_refl)) as [g [Hg Ho]].
    exists g. split; [exact Hg |].
    destruct Ho as [H1 [H2 _]]. split; [exact H1 | exact H2].
  - destruct (proj2 (args_interpreter_orders_time_bounds atoi_c
        ["ReaderAndWriters2"; "2"; "3"; "-t"; "10"; "5"; "15"; "5"; "-debug"]%string)
        RW2.globals0 eq_refl (or_intror (conj eq_refl eq_refl))) as [g [Hg Ho]].
    exists g. split; [exact Hg |].
    destruct Ho as [H1 [H2 _]]. split; [exact H1 | exact H2].
Defined.

Lemma refused_1_exits (atoi : string -> Z) (argv : list string) (g : RW1.globals) :
  refused_1 argv ->
  RW1.args_interpreter atoi argv g = Exit RW1.ERROR_ARGUMENTS_MESSAGE EXIT_FAILURE.
Proof.
  unfold refused_1, too_few, unknown_flag, too_many, RW1.args_interpreter, RW1.usage.
  change (11 - 1)%nat with 10%nat.
  intros H; split_tests; try reflexivity; exfalso; bool_facts;
    intuition (try congruence; try lia).
Qed.

Lemma refused_2_exits (atoi : string -> Z) (argv : list string) (g : RW2.globals) :
  refused_2 argv ->
  RW2.args_interpreter atoi argv g = Exit RW2.ERROR_ARGUMENTS_MESSAGE EXIT_FAILURE.
Proof.
  unfold refused_2, too_few, unknown_flag, too_many, RW2.args_interpreter, RW2.usage.
  change (9 - 1)%nat with 8%nat.
  intros H; split_tests; try reflexivity; exfalso; bool_facts;
    intuition (try congruence; try lia).
Qed.

(** ** [r_w_2.c]: the two arrays *)

Lemma set_in_library_same (g : RW2.globals) : RW2.set_in_library g (RW2.in_library g) = g.
Proof. now destruct g. Qed.

Lemma set_queue_same (g : RW2.globals) : RW2.set_queue g (RW2.queue g) = g.
Proof. now destruct g. Qed.

Lemma leave_library_loop_no_match (k i : Z) (a : list RW2.presence) :
  Forall (fun p => holds k i p = false) a ->
  RW2.leave_library_loop (List.length a) k i a = Some a.
Proof.
  induction 1 as [| p a Hp _ IH]; [reflexivity |].
  cbn. unfold holds in Hp. rewrite Hp, IH. reflexivity.
Qed.

Lemma leave_library_loop_first_match (k i : Z) (pre post : list RW2.presence)
  (p : RW2.presence) :
  Forall (fun q => holds k i q = false) pre ->
  holds k i p = true ->
  RW2.leave_library_loop (List.length (pre ++ p :: post)) k i (pre ++ p :: post)
  = Some (pre ++ RW2.mkPresence RW2.NO_KIND (RW2.id p) (RW2.timestamp p) :: post).
Proof.
  intros Hpre Hp. induction Hpre as [| q pre Hq _ IH].
  - cbn. unfold holds in Hp. rewrite Hp. reflexivity.
  - cbn. unfold holds in Hq. rewrite Hq. cbn in IH. rewrite IH. reflexivity.
Qed.

Lemma first_match_or_none (k i : Z) (a : list RW2.presence) :
  Forall (fun p => holds k i p = false) a \/
  exists pre p post,
    a = pre ++ p :: post /\ Forall (fun q => holds k i q = false) pre /\
    holds k i p = true.
Proof.
  induction a as [| x a IH]; [left; constructor |].
  destruct (holds k i x) eqn:Hx.
  - right. exists [], x, a. repeat split; [constructor | assumption].
  - destruct IH as [H | (pre & p & post & -> & Hpre & Hp)].
    + left. now constructor.
    + right. exists (x :: pre), p, post. repeat split; [now constructor | assumption].
Qed.

(** C10: [leave_library (kind, id)] on an [in_library] array of
    [readers_count + writers_count] slots. When no slot holds ([kind],
    [id]) nothing changes. Otherwise the first slot that holds it keeps its
    [id] and [timestamp] and gets kind [NO_KIND]; the slots before and after
    it, and every other global, stay as they were. One of the two cases
    always applies. *)
Theorem leave_library_frame (g : RW2.globals) (k i : Z) :
  List.length (RW2.in_library g)
    = Z.to_nat (wrap_int (RW2.readers_count g + RW2.writers_count g)) ->
  (Forall (fun p => holds k i p = false) (RW2.in_library g) ->
   RW2.leave_library k i g = Some g) /\
  (forall pre p post,
      RW2.in_library g = pre ++ p :: post ->
      Forall (fun q => holds k i q = false) pre ->
      holds k i p = true ->
      RW2.leave_library k i g
      = Some (RW2.set_in_library g
                (pre ++ RW2.mkPresence RW2.NO_KIND (RW2.id p) (RW2.timestamp p) :: post))) /\
  (Forall (fun p => holds k i p = false) (RW2.in_library g) \/
   exists pre p post,
     RW2.in_library g = pre ++ p :: post /\
     Forall (fun q => holds k i q = false) pre /\ holds k i p = true).
Proof.
  intros Hlen. unfold RW2.leave_library. rewrite <- Hlen. repeat split.
  - intros H. rewrite (leave_library_loop_no_match k i _ H). cbn.
    now rewrite set_in_library_same.
  - intros pre p post E Hpre Hp. rewrite E.
    now rewrite (leave_library_loop_first_match k i pre post p Hpre Hp).
  - apply first_match_or_none.
Qed.

Lemma leave_library_frame_witness :
  RW2.leave_library RW2.READER_KIND 1
    (RW2.mkGlobals 0 2 1 []
       [RW2.mkPresence 1 0 100; RW2.mkPresence 1 1 101; RW2.mkPresence 1 1 102] 0 5 5 15)
  = Some (RW2.mkGlobals 0 2 1 []
            [RW2.mkPresence 1 0 100; RW2.mkPresence 0 1 101; RW2.mkPresence 1 1 102]
            0 5 5 15).
Proof.
  apply (proj1 (proj2 (leave_library_frame
                         (RW2.mkGlobals 0 2 1 []
                            [RW2.mkPresence 1 0 100; RW2.mkPresence 1 1 101;
                             RW2.mkPresence 1 1 102] 0 5 5 15)
                         RW2.READER_KIND 1 eq_refl))
           [RW2.mkPresence 1 0 100] (RW2.mkPresence 1 1 101) [RW2.mkPresence 1 1 102]).
  - reflexivity.
  - repeat constructor.
  - reflexivity.
Defined.

(** ** [r_w_2.c]: [init_queue] *)

Lemma put_first_empty_at (p x : RW2.presence) (pre rest : list RW2.presence) :
  Forall occupied pre -> empty x ->
  RW2.put_first_empty p (pre ++ x :: rest) = Some (pre ++ p :: rest).
Proof.
  intros Hpre Hx. induction Hpre as [| q pre Hq _ IH]; cbn.
  - unfold empty in Hx. rewrite Hx. reflexivity.
  - destruct (Z.eqb_spec (RW2.kind q) RW2.NO_KIND) as [E | _]; [now elim Hq |].
    rewrite IH. reflexivity.
Qed.

Lemma load_middle {A : Type} (pre rest : list A) (x : A) :
  load (pre ++ x :: rest) (Z.of_nat (List.length pre)) = Some x.
Proof.
  unfold load. destruct (Z.ltb_spec (Z.of_nat (List.length pre)) 0); [lia |].
  rewrite Nat2Z.id, nth_error_app2, Nat.sub_diag by lia. reflexivity.
Qed.

Lemma store_middle {A : Type} (pre rest : list A) (x v : A) :
  store (pre ++ x :: rest) (Z.of_nat (List.length pre)) v = Some (pre ++ v :: rest).
Proof.
  unfold store. rewrite Nat2Z.id, length_app. cbn [List.length].
  destruct (Z.leb_spec 0 (Z.of_nat (List.length pre))); [| lia].
  destruct (Z.ltb_spec (Z.of_nat (List.length pre))
              (Z.of_nat (List.length pre + S (List.length rest)))); [| lia].
  cbn [andb]. f_equal.
  rewrite firstn_app, Nat.sub_diag, firstn_all, firstn_O, app_nil_r.
  replace (S (List.length pre)) with (List.length (pre ++ [x]))
    by (rewrite length_app; cbn; lia).
  replace (pre ++ x :: rest) with ((pre ++ [x]) ++ rest)
    by (rewrite <- app_assoc; reflexivity).
  rewrite skipn_app, skipn_all, Nat.sub_diag. reflexivity.
Qed.

Lemma clear_library_slot_at (g : RW2.globals) (done todo : list RW2.presence)
  (t : RW2.presence) (k : nat) :
  RW2.in_library g = done ++ t :: todo -> List.length done = k ->
  RW2.clear_library_slot (Z.of_nat k) g
  = Some (RW2.set_in_library g (done ++ cleared t :: todo)).
Proof.
  intros E <-. unfold RW2.clear_library_slot. rewrite E, load_middle. cbn [obind].
  rewrite store_middle. reflexivity.
Qed.

Lemma init_readers_fills (clock : Z -> Z) (n : nat) :
  forall (k : nat) (g : RW2.globals) (pre empties done todo : list RW2.presence),
    RW2.queue g = pre ++ empties -> RW2.in_library g = done ++ todo ->
    List.length pre = k -> List.length done = k ->
    Forall occupied pre -> Forall empty empties ->
    (n <= List.length empties)%nat -> (n <= List.length todo)%nat ->
    Z.of_nat (k + n) <= INT_MAX ->
    RW2.init_readers n (Z.of_nat k) clock g
    = Some (RW2.set_in_library
              (RW2.set_queue g (pre ++ map (reader_slot clock) (seq k n) ++ skipn n empties))
              (done ++ map cleared (firstn n todo) ++ skipn n todo)).
Proof.
  induction n as [| n IH]; intros k g pre empties done todo Hq Hl Hk Hd Hocc Hemp Hn1 Hn2 Hmax.
  - cbn. rewrite <- Hq, <- Hl. now destruct g.
  - destruct empties as [| x empties]; [cbn in Hn1; lia |].
    destruct todo as [| t todo]; [cbn in Hn2; lia |].
    inversion Hemp as [| ? ? Hx Hemp']; subst.
    cbn [RW2.init_readers]. unfold RW2.get_to_queue.
    rewrite Hq, (put_first_empty_at _ x pre empties Hocc Hx). cbn [option_map obind].
    rewrite (clear_library_slot_at _ done todo t (List.length pre))
      by (destruct g; assumption).
    cbn [obind].
    rewrite wrap_int_id by (int_bounds; lia).
    replace (Z.of_nat (List.length pre) + 1) with (Z.of_nat (S (List.length pre))) by lia.
    rewrite (IH (S (List.length pre)) _ (pre ++ [reader_slot clock (List.length pre)])
               empties (done ++ [cleared t]) todo).
    + f_equal. destruct g; cbn. rewrite <- !app_assoc. reflexivity.
    + destruct g; cbn. rewrite <- app_assoc. reflexivity.
    + destruct g; cbn. rewrite <- app_assoc. reflexivity.
    + rewrite length_app. cbn. lia.
    + rewrite length_app. cbn. lia.
    + apply Forall_app. split; [assumption |]. repeat constructor. discriminate.
    + assumption.
    + cbn in Hn1. lia.
    + cbn in Hn2. lia.
    + lia.
Qed.

Lemma init_writers_fills (clock : Z -> Z) (n : nat) :
  forall (k : nat) (g : RW2.globals) (pre empties done todo : list RW2.presence),
    RW2.queue g = pre ++ empties -> RW2.in_library g = done ++ todo ->
    List.length pre = k -> List.length done = k ->
    Forall occupied pre -> Forall empty empties ->
    (n <= List.length empties)%nat -> (n <= List.length todo)%nat ->
    Z.of_nat (k + n) <= INT_MAX -> 0 <= RW2.readers_count g <= INT_MAX ->
    RW2.init_writers n (Z.of_nat k) clock g
    = Some (RW2.set_in_library
              (RW2.set_queue g
                 (pre ++ map (writer_slot clock (RW2.readers_count g)) (seq k n)
                      ++ skipn n empties))
              (done ++ map cleared (firstn n todo) ++ skipn n todo)).
Proof.
  induction n as [| n IH];
    intros k g pre empties done todo Hq Hl Hk Hd Hocc Hemp Hn1 Hn2 Hmax Hr.
  - cbn. rewrite <- Hq, <- Hl. now destruct g.
  - destruct empties as [| x empties]; [cbn in Hn1; lia |].
    destruct todo as [| t todo]; [cbn in Hn2; lia |].
    inversion Hemp as [| ? ? Hx Hemp']; subst.
    cbn [RW2.init_writers]. unfold RW2.get_to_queue.
    rewrite Hq, (put_first_empty_at _ x pre empties Hocc Hx). cbn [option_map obind].
    rewrite (clear_library_slot_at _ done todo t (List.length pre))
      by (destruct g; assumption).
    cbn [obind].
    rewrite !wrap_int_id by (int_bounds; lia).
    replace (Z.of_nat (List.length pre) + 1) with (Z.of_nat (S (List.length pre))) by lia.
    rewrite (IH (S (List.length pre)) _
               (pre ++ [writer_slot clock (RW2.readers_count g) (List.length pre)])
               empties (done ++ [cleared t]) todo).
    + f_equal. destruct g; cbn. rewrite <- !app_assoc. reflexivity.
    + destruct g; cbn. rewrite <- app_assoc. reflexivity.
    + destruct g; cbn. rewrite <- app_assoc. reflexivity.
    + rewrite length_app. cbn. lia.
    + rewrite length_app. cbn. lia.
    + apply Forall_app. split; [assumption |]. repeat constructor. discriminate.
    + assumption.
    + cbn in Hn1. lia.
    + cbn in Hn2. lia.
    + lia.
    + destruct g; cbn in *. lia.
Qed.

Lemma map_seq_from {A : Type} (f : nat -> A) (r n : nat) :
  map f (seq r n) = map (fun j => f (r + j)%nat) (seq 0 n).
Proof.
  rewrite <- (Nat.add_0_r r) at 1. generalize 0%nat as s.
  induction n as [| n IH]; intros s; cbn; [reflexivity |].
  f_equal. rewrite <- IH. f_equal. f_equal. lia.
Qed.

Lemma Forall_empty_cleared (a : list RW2.presence) : Forall empty (map cleared a).
Proof. induction a; cbn; constructor; [reflexivity | assumption]. Qed.

Lemma init_queue_builds (clock : Z -> Z) (r w : nat) (g : RW2.globals) :
  RW2.readers_count g = Z.of_nat r -> RW2.writers_count g = Z.of_nat w ->
  Z.of_nat (r + w) <= INT_MAX ->
  List.length (RW2.queue g) = (r + w)%nat -> Forall empty (RW2.queue g) ->
  List.length (RW2.in_library g) = (r + w)%nat ->
  RW2.init_queue clock g
  = Some (RW2.set_in_library (RW2.set_queue g (initial_queue clock r w))
            (map cleared (RW2.in_library g))).
Proof.
  intros Hr Hw Hmax Hlq Hemp Hll.
  destruct g as [dbg rc wc q lib t1 t2 t3 t4]; cbn in *. subst rc wc.
  unfold RW2.init_queue. cbn [RW2.readers_count RW2.writers_count].
  rewrite Nat2Z.id.
  pose proof (init_readers_fills clock r 0
                (RW2.mkGlobals dbg (Z.of_nat r) (Z.of_nat w) q lib t1 t2 t3 t4)
                [] q [] lib eq_refl eq_refl eq_refl eq_refl
                (Forall_nil _) Hemp ltac:(lia) ltac:(lia) ltac:(lia)) as H0.
  change (Z.of_nat 0) with 0 in H0. rewrite H0. clear H0.
  cbn [obind app RW2.set_queue RW2.set_in_library RW2.readers_count RW2.writers_count
       RW2.queue RW2.in_library RW2.is_debug_run RW2.min_reading_time RW2.max_reading_time
       RW2.min_writing_time RW2.max_writing_time].
  rewrite wrap_int_id by (int_bounds; lia).
  replace (Z.to_nat (Z.of_nat w + Z.of_nat r - Z.of_nat r)) with w by lia.
  assert (Hemp' : Forall empty (skipn r q)).
  { rewrite <- (firstn_skipn r q) in Hemp. now apply Forall_app in Hemp. }
  assert (Hocc : Forall occupied (map (reader_slot clock) (seq 0 r))).
  { clear. induction (seq 0 r); cbn; constructor; [discriminate | assumption]. }
  match goal with
  | |- context [RW2.init_writers w (Z.of_nat r) clock ?g0] =>
      rewrite (init_writers_fills clock w r g0 (map (reader_slot clock) (seq 0 r))
                 (skipn r q) (map cleared (firstn r lib)) (skipn r lib) eq_refl eq_refl)
  end;
    try assumption;
    try (rewrite ?length_map, ?length_seq, ?length_firstn, ?length_skipn; cbn; lia).
  cbn [RW2.set_queue RW2.set_in_library RW2.readers_count RW2.writers_count
       RW2.queue RW2.in_library RW2.is_debug_run RW2.min_reading_time RW2.max_reading_time
       RW2.min_writing_time RW2.max_writing_time].
  assert (Hq : skipn w (skipn r q) = []).
  { apply skipn_all2. rewrite length_skipn. lia. }
  assert (Hl : skipn w (skipn r lib) = []).
  { apply skipn_all2. rewrite length_skipn. lia. }
  assert (Hf : firstn w (skipn r lib) = skipn r lib).
  { apply firstn_all2. rewrite length_skipn. lia. }
  rewrite Hq, Hl, Hf, !app_nil_r, <- map_app, firstn_skipn.
  assert (Hiq : map (reader_slot clock) (seq 0 r)
                ++ map (writer_slot clock (Z.of_nat r)) (seq r w)
                = initial_queue clock r w).
  { unfold initial_queue. f_equal.
    rewrite (map_seq_from (writer_slot clock (Z.of_nat r)) r w).
    apply map_ext. intros j. unfold writer_slot. f_equal; lia. }
  rewrite Hiq. reflexivity.
Qed.

(** X19: for [r] readers and [w] writers, [init_queue], run on a queue block
    whose slots are all [NO_KIND] (the function itself never clears the
    queue) and with both arrays of the allocated size, leaves in the queue
    the readers
    in ascending order of id followed by the writers in ascending order of
    id, and marks every slot of [in_library] empty, whatever it held. *)
Theorem init_queue_layout (clock : Z -> Z) (r w : nat) (g : RW2.globals) :
  RW2.readers_count g = Z.of_nat r -> RW2.writers_count g = Z.of_nat w ->
  Z.of_nat (r + w) <= INT_MAX ->
  List.length (RW2.queue g) = (r + w)%nat -> Forall empty (RW2.queue g) ->
  List.length (RW2.in_library g) = (r + w)%nat ->
  exists g',
    RW2.init_queue clock g = Some g' /\
    RW2.queue g' = initial_queue clock r w /\
    RW2.in_library g' = map cleared (RW2.in_library g) /\
    Forall empty (RW2.in_library g') /\
    g' = RW2.set_in_library (RW2.set_queue g (RW2.queue g')) (RW2.in_library g').
Proof.
  intros Hr Hw Hmax Hlq Hemp Hll.
  rewrite (init_queue_builds clock r w g Hr Hw Hmax Hlq Hemp Hll).
  eexists. split; [reflexivity |].
  destruct g; cbn. repeat split. apply Forall_empty_cleared.
Qed.

(** The example of the specification: 2 readers and 1 writer give the
    queue [R0, R1, W0]. *)
Lemma init_queue_layout_witness :
  exists g',
    RW2.init_queue (fun i => 100 + i)
      (RW2.mkGlobals 0 2 1 (repeat (RW2.mkPresence 0 0 0) 3)
         (repeat (RW2.mkPresence 9 9 9) 3) 0 5 5 15) = Some g' /\
    RW2.queue g' = [RW2.mkPresence RW2.READER_KIND 0 100;
                    RW2.mkPresence RW2.READER_KIND 1 101;
                    RW2.mkPresence RW2.WRITER_KIND 0 102] /\
    Forall empty (RW2.in_library g').
Proof.
  destruct (init_queue_layout (fun i => 100 + i) 2 1
              (RW2.mkGlobals 0 2 1 (repeat (RW2.mkPresence 0 0 0) 3)
                 (repeat (RW2.mkPresence 9 9 9) 3) 0 5 5 15))
    as [g' [H1 [H2 [_ [H4 _]]]]];
    try reflexivity; [int_bounds; simpl; lia | repeat constructor |].
  exists g'. split; [exact H1 |]. split; [exact H2 | exact H4].
Defined.

(** ** [r_w_2.c]: threads are neither lost nor duplicated *)

Lemma kind_is_counts_threads (k : Z) : k <> RW2.NO_KIND -> counts_threads (kind_is k).
Proof.
  intros Hk. split.
  - intros p Hp. unfold kind_is. rewrite Hp. now apply Z.eqb_neq, not_eq_sym.
  - intros p q H1 _. unfold kind_is. now rewrite H1.
Qed.

Lemma holds_counts_threads (k i : Z) : k <> RW2.NO_KIND -> counts_threads (holds k i).
Proof.
  intros Hk. split.
  - intros p Hp. unfold holds. rewrite Hp.
    destruct (Z.eqb_spec RW2.NO_KIND k); [congruence | reflexivity].
  - intros p q H1 H2. unfold holds. now rewrite H1, H2.
Qed.

Lemma tally_app (f : RW2.presence -> bool) (a b : list RW2.presence) :
  tally f (a ++ b) = tally f a + tally f b.
Proof. induction a as [| p a IH]; cbn; [reflexivity | rewrite IH; ring]. Qed.

Lemma count_kind_tally (k : Z) (a : list RW2.presence) :
  forall (n : nat) (c : Z),
    List.length a = n -> 0 <= c -> c + Z.of_nat n <= INT_MAX ->
    RW2.count_kind k n a c = Some (c + tally (kind_is k) a).
Proof.
  induction a as [| p a IH]; intros n c Hn Hc Hmax; subst n; cbn.
  - f_equal. ring.
  - cbn [List.length] in Hmax. unfold kind_is at 1.
    destruct (RW2.kind p =? k).
    + rewrite wrap_int_id by (int_bounds; lia).
      rewrite IH by lia. f_equal; try lia.
    + rewrite IH by lia. f_equal; try lia.
Qed.

Lemma leave_queue_from_step (past_end : Z) (i : nat) (x y : RW2.presence)
  (rest : list RW2.presence) :
  RW2.leave_queue_from past_end i (x :: y :: rest)
  = if negb (RW2.kind y =? RW2.NO_KIND) && (i <? 20)%nat
    then option_map (cons y) (RW2.leave_queue_from past_end (S i) (y :: rest))
    else Some (RW2.set_kind x RW2.NO_KIND :: y :: rest).
Proof. reflexivity. Qed.

Lemma leave_queue_from_last (past_end : Z) (i : nat) (x : RW2.presence) :
  RW2.leave_queue_from past_end i [x]
  = if negb (past_end =? RW2.NO_KIND) && (i <? 20)%nat
    then None
    else Some [RW2.set_kind x RW2.NO_KIND].
Proof. reflexivity. Qed.

Lemma leave_queue_from_total (i : nat) (a : list RW2.presence) :
  a <> [] -> exists a', RW2.leave_queue_from RW2.NO_KIND i a = Some a'.
Proof.
  revert i. induction a as [| x rest IH]; intros i Ha; [congruence |].
  destruct rest as [| y rest'].
  - cbn. eexists. reflexivity.
  - rewrite leave_queue_from_step.
    destruct (negb (RW2.kind y =? RW2.NO_KIND) && (i <? 20)%nat).
    + destruct (IH (S i)) as [r Hr]; [discriminate |]. rewrite Hr. cbn. eauto.
    + eauto.
Qed.

(** [leave_queue] takes the thread of slot 0 out of the queue and no
    other. *)
Lemma leave_queue_from_tally (f : RW2.presence -> bool) (past_end : Z) :
  counts_threads f ->
  forall (a : list RW2.presence) (i : nat) (x : RW2.presence)
         (rest a' : list RW2.presence),
    a = x :: rest ->
    RW2.leave_queue_from past_end i a = Some a' ->
    tally f a' = tally f a - (if f x then 1 else 0) /\
    List.length a' = List.length a.
Proof.
  intros [Hf _]. induction a as [| x0 rest0 IH]; intros i x rest a' E H; [discriminate |].
  injection E as -> ->.
  assert (Hx : f (RW2.set_kind x RW2.NO_KIND) = false) by (apply Hf; reflexivity).
  destruct rest as [| y rest'].
  - rewrite leave_queue_from_last in H.
    destruct (negb (past_end =? RW2.NO_KIND) && (i <? 20)%nat); [discriminate |].
    injection H as <-. cbn. rewrite Hx. split; [lia | reflexivity].
  - rewrite leave_queue_from_step in H.
    destruct (negb (RW2.kind y =? RW2.NO_KIND) && (i <? 20)%nat).
    + destruct (RW2.leave_queue_from past_end (S i) (y :: rest')) as [r |] eqn:Hr;
        [| discriminate].
      injection H as <-.
      destruct (IH (S i) y rest' r eq_refl Hr) as [Ht Hl].
      cbn [tally List.length] in *. split; lia.
    + injection H as <-. cbn [tally List.length]. rewrite Hx. split; [lia | reflexivity].
Qed.

(** [get_to_queue] and [get_to_library] add the thread and nothing else. *)
Lemma put_first_empty_tally (p : RW2.presence) (a : list RW2.presence) :
  Exists empty a ->
  exists a', RW2.put_first_empty p a = Some a' /\
             List.length a' = List.length a /\
             forall f, counts_threads f ->
                       tally f a' = tally f a + (if f p then 1 else 0).
Proof.
  induction a as [| x rest IH]; intros He; [inversion He |].
  cbn [RW2.put_first_empty].
  destruct (Z.eqb_spec (RW2.kind x) RW2.NO_KIND) as [Hx | Hx].
  - eexists. split; [reflexivity |]. split; [reflexivity |].
    intros f [Hf _]. cbn. rewrite (Hf x Hx). lia.
  - destruct IH as (r & Hr & Hl & Ht).
    { inversion He; subst; [contradiction | assumption]. }
    rewrite Hr. eexists. split; [reflexivity |]. split; [cbn; lia |].
    intros f Hf. cbn. rewrite (Ht f Hf). lia.
Qed.

(** [leave_library] takes one copy of the thread out when there is one. *)
Lemma leave_library_loop_tally (k i : Z) (a : list RW2.presence) :
  k <> RW2.NO_KIND ->
  Exists (fun p => holds k i p = true) a ->
  exists a', RW2.leave_library_loop (List.length a) k i a = Some a' /\
             List.length a' = List.length a /\
             forall f now, counts_threads f ->
               tally f a' = tally f a - (if f (RW2.mkPresence k i now) then 1 else 0).
Proof.
  intros Hk He.
  destruct (first_match_or_none k i a) as [Hnone | (pre & p & post & -> & Hpre & Hp)].
  - exfalso. apply Exists_exists in He as (p & Hin & Hp).
    rewrite Forall_forall in Hnone. rewrite (Hnone p Hin) in Hp. discriminate.
  - rewrite (leave_library_loop_first_match k i pre post p Hpre Hp).
    eexists. split; [reflexivity |]. split; [rewrite !length_app; reflexivity |].
    intros f now [Hf1 Hf2]. rewrite !tally_app. cbn [tally].
    rewrite (Hf1 (RW2.mkPresence RW2.NO_KIND (RW2.id p) (RW2.timestamp p)) eq_refl).
    unfold holds in Hp. apply andb_prop in Hp as [Hpk Hpi].
    apply Z.eqb_eq in Hpk, Hpi.
    rewrite (Hf2 (RW2.mkPresence k i now) p) by (cbn; congruence). lia.
Qed.

Lemma slots_bound (g : RW2.globals) : Z.of_nat (RW2.slots g) <= INT_MAX.
Proof.
  unfold RW2.slots.
  pose proof (wrap_int_range (RW2.writers_count g + RW2.readers_count g)) as H.
  int_bounds. lia.
Qed.

Lemma kind_sums_tally (g : RW2.globals) :
  well_formed g ->
  kind_sums g
  = Some (tally (kind_is RW2.READER_KIND) (RW2.queue g)
          + tally (kind_is RW2.READER_KIND) (RW2.in_library g),
          tally (kind_is RW2.WRITER_KIND) (RW2.queue g)
          + tally (kind_is RW2.WRITER_KIND) (RW2.in_library g)).
Proof.
  intros [Hq Hl]. pose proof (slots_bound g) as Hb.
  unfold kind_sums, RW2.get_readers_queue_count, RW2.get_readers_in_library_count,
    RW2.get_writers_queue_count, RW2.get_writers_in_library_count.
  rewrite !count_kind_tally by (assumption || lia). reflexivity.
Qed.

Lemma reader_not_no_kind : RW2.READER_KIND <> RW2.NO_KIND.
Proof. discriminate. Qed.

Lemma writer_not_no_kind : RW2.WRITER_KIND <> RW2.NO_KIND.
Proof. discriminate. Qed.

(** The first block of [read_books] and of [write_book]: [leave_queue],
    then [get_to_library (k, i)], for the thread at the head of the queue. *)
Lemma enter_conserves (k i now : Z) (g : RW2.globals) (x : RW2.presence)
  (rest : list RW2.presence) :
  k <> RW2.NO_KIND ->
  well_formed g ->
  RW2.queue g = x :: rest -> holds k i x = true ->
  Exists empty (RW2.in_library g) ->
  exists g',
    (g1 <- RW2.leave_queue RW2.NO_KIND g ;; RW2.get_to_library k i now g1) = Some g' /\
    conserved g g'.
Proof.
  intros Hk Hwf Hq Hx Hfree.
  destruct (leave_queue_from_total 0 (RW2.queue g)) as [q' Hq'];
    [rewrite Hq; discriminate |].
  destruct (put_first_empty_tally (RW2.mkPresence k i now) (RW2.in_library g) Hfree)
    as (lib' & Hlib' & Hlen' & Hadd).
  assert (Hout : forall f, counts_threads f ->
                   tally f q' = tally f (RW2.queue g) - (if f x then 1 else 0) /\
                   List.length q' = List.length (RW2.queue g)).
  { intros f Hf. exact (leave_queue_from_tally f _ Hf _ 0%nat x rest q' Hq Hq'). }
  unfold RW2.leave_queue, RW2.get_to_library. rewrite Hq'. cbn [option_map obind].
  replace (RW2.in_library (RW2.set_queue g q')) with (RW2.in_library g)
    by (destruct g; reflexivity).
  rewrite Hlib'. cbn [option_map].
  eexists. split; [reflexivity |].
  assert (Hwf' : well_formed (RW2.set_in_library (RW2.set_queue g q') lib')).
  { destruct Hwf as [W1 W2].
    destruct (Hout _ (kind_is_counts_threads _ reader_not_no_kind)) as [_ Hl].
    destruct g; unfold well_formed, RW2.slots in *; cbn in *. split; congruence. }
  assert (Hsame : forall f, counts_threads f ->
            f x = f (RW2.mkPresence k i now) ->
            tally f q' + tally f lib'
            = tally f (RW2.queue g) + tally f (RW2.in_library g)).
  { intros f Hf E. destruct (Hout f Hf) as [Ht _]. rewrite Ht, (Hadd f Hf), E.
    destruct (f (RW2.mkPresence k i now)); lia. }
  assert (Hkx : RW2.kind x = k /\ RW2.id x = i).
  { unfold holds in Hx. apply andb_prop in Hx as [H1 H2].
    now apply Z.eqb_eq in H1, H2. }
  destruct Hkx as [Hkx Hix].
  split; [exact Hwf' |]. split.
  - eexists. split; [apply (kind_sums_tally g Hwf) |].
    rewrite (kind_sums_tally _ Hwf').
    replace (RW2.queue (RW2.set_in_library (RW2.set_queue g q') lib')) with q'
      by (destruct g; reflexivity).
    replace (RW2.in_library (RW2.set_in_library (RW2.set_queue g q') lib')) with lib'
      by (destruct g; reflexivity).
    rewrite !Hsame; try reflexivity;
      try (apply kind_is_counts_threads; discriminate);
      unfold kind_is; cbn; now rewrite Hkx.
  - intros k' i' Hk'. unfold copies.
    replace (RW2.queue (RW2.set_in_library (RW2.set_queue g q') lib')) with q'
      by (destruct g; reflexivity).
    replace (RW2.in_library (RW2.set_in_library (RW2.set_queue g q') lib')) with lib'
      by (destruct g; reflexivity).
    apply Hsame; [now apply holds_counts_threads |].
    unfold holds; cbn. now rewrite Hkx, Hix.
Qed.

(** The second block: [leave_library (k, i)], then [get_to_queue (k, i)],
    for a thread that is in the library. *)
Lemma leave_conserves (k i now : Z) (g : RW2.globals) :
  k <> RW2.NO_KIND ->
  well_formed g ->
  Exists (fun p => holds k i p = true) (RW2.in_library g) ->
  Exists empty (RW2.queue g) ->
  exists g',
    (g1 <- RW2.leave_library k i g ;; RW2.get_to_queue k i now g1) = Some g' /\
    conserved g g'.
Proof.
  intros Hk Hwf Hin Hfree.
  destruct (leave_library_loop_tally k i (RW2.in_library g) Hk Hin)
    as (lib' & Hlib' & Hlen' & Hout).
  destruct (put_first_empty_tally (RW2.mkPresence k i now) (RW2.queue g) Hfree)
    as (q' & Hq' & Hlq' & Hadd).
  unfold RW2.leave_library, RW2.get_to_queue.
  replace (Z.to_nat (wrap_int (RW2.readers_count g + RW2.writers_count g)))
    with (List.length (RW2.in_library g))
    by (destruct Hwf as [_ ->]; unfold RW2.slots; now rewrite Z.add_comm).
  rewrite Hlib'. cbn [option_map obind].
  replace (RW2.queue (RW2.set_in_library g lib')) with (RW2.queue g)
    by (destruct g; reflexivity).
  rewrite Hq'. cbn [option_map].
  eexists. split; [reflexivity |].
  assert (Hwf' : well_formed (RW2.set_queue (RW2.set_in_library g lib') q')).
  { destruct Hwf as [W1 W2].
    destruct g; unfold well_formed, RW2.slots in *; cbn in *. split; congruence. }
  assert (Hsame : forall f, counts_threads f ->
            tally f q' + tally f lib'
            = tally f (RW2.queue g) + tally f (RW2.in_library g)).
  { intros f Hf. rewrite (Hout f now Hf), (Hadd f Hf).
    destruct (f (RW2.mkPresence k i now)); lia. }
  split; [exact Hwf' |]. split.
  - eexists. split; [apply (kind_sums_tally g Hwf) |].
    rewrite (kind_sums_tally _ Hwf').
    replace (RW2.queue (RW2.set_queue (RW2.set_in_library g lib') q')) with q'
      by (destruct g; reflexivity).
    replace (RW2.in_library (RW2.set_queue (RW2.set_in_library g lib') q')) with lib'
      by (destruct g; reflexivity).
    rewrite !Hsame; try reflexivity; apply kind_is_counts_threads; discriminate.
  - intros k' i' Hk'. unfold copies.
    replace (RW2.queue (RW2.set_queue (RW2.set_in_library g lib') q')) with q'
      by (destruct g; reflexivity).
    replace (RW2.in_library (RW2.set_queue (RW2.set_in_library g lib') q')) with lib'
      by (destruct g; reflexivity).
    apply Hsame. now apply holds_counts_threads.
Qed.

(** ** [r_w_1.c]: the counters and the timestamp arrays *)

Lemma split_at {A : Type} (l : list A) (i : Z) :
  0 <= i < Z.of_nat (List.length l) ->
  exists pre x rest, l = pre ++ x :: rest /\ Z.of_nat (List.length pre) = i.
Proof.
  intros Hi.
  destruct (nth_error l (Z.to_nat i)) as [x |] eqn:E.
  - apply nth_error_split in E as (pre & rest & -> & Hlen).
    exists pre, x, rest. split; [reflexivity | lia].
  - apply nth_error_None in E. lia.
Qed.

Lemma load_other {A : Type} (pre rest : list A) (x v : A) (j : Z) :
  j <> Z.of_nat (List.length pre) ->
  load (pre ++ v :: rest) j = load (pre ++ x :: rest) j.
Proof.
  intros Hj. unfold load. destruct (j <? 0) eqn:E; [reflexivity |].
  apply Z.ltb_ge in E.
  destruct (Nat.lt_ge_cases (Z.to_nat j) (List.length pre)) as [Hlt | Hge].
  - now rewrite !nth_error_app1.
  - rewrite !nth_error_app2 by assumption.
    destruct (Z.to_nat j - List.length pre)%nat eqn:D; [lia | reflexivity].
Qed.

(** An array store inside the block: the slot takes the value, the other
    slots and the size stay. *)
Lemma store_inside {A : Type} (l : list A) (i : Z) (v : A) :
  0 <= i < Z.of_nat (List.length l) ->
  exists l', store l i v = Some l' /\
             List.length l' = List.length l /\
             load l' i = Some v /\
             forall j, j <> i -> load l' j = load l j.
Proof.
  intros Hi. destruct (split_at l i Hi) as (pre & x & rest & -> & <-).
  exists (pre ++ v :: rest). repeat split.
  - apply store_middle.
  - rewrite !length_app. reflexivity.
  - apply load_middle.
  - intros j Hj. now apply load_other.
Qed.

Lemma read_books_enter_moves (now i : Z) (g : RW1.globals) :
  reader_id_ok g i -> counters_safe g ->
  exists g', RW1.read_books_enter now i g = Some g' /\
             counter_sums g' = counter_sums g /\
             load (RW1.readers_queue g') i = Some 0 /\
             load (RW1.readers_in_library g') i = Some now /\
             only_slot i (RW1.readers_queue g) (RW1.readers_queue g') /\
             only_slot i (RW1.readers_in_library g) (RW1.readers_in_library g').
Proof.
  intros [Hl Hq] (C1 & C2 & C3 & C4).
  destruct (store_inside (RW1.readers_in_library g) i now Hl) as (rl & Erl & L1 & L2 & L3).
  destruct (store_inside (RW1.readers_queue g) i 0 Hq) as (rq & Erq & Q1 & Q2 & Q3).
  unfold RW1.read_books_enter. rewrite Erl. cbn [obind].
  replace (RW1.readers_queue (RW1.set_readers_in_library g rl)) with (RW1.readers_queue g)
    by (destruct g; reflexivity).
  rewrite Erq. cbn [obind]. eexists. split; [reflexivity |].
  destruct g; unfold counter_sums, only_slot; cbn in *.
  rewrite !wrap_int_id by (int_bounds; lia).
  repeat split; try assumption. f_equal. lia.
Qed.

Lemma read_books_leave_moves (now i : Z) (g : RW1.globals) :
  reader_id_ok g i -> counters_safe g ->
  exists g', RW1.read_books_leave now i g = Some g' /\
             counter_sums g' = counter_sums g /\
             load (RW1.readers_queue g') i = Some now /\
             load (RW1.readers_in_library g') i = Some 0 /\
             only_slot i (RW1.readers_queue g) (RW1.readers_queue g') /\
             only_slot i (RW1.readers_in_library g) (RW1.readers_in_library g').
Proof.
  intros [Hl Hq] (C1 & C2 & C3 & C4).
  destruct (store_inside (RW1.readers_in_library g) i 0 Hl) as (rl & Erl & L1 & L2 & L3).
  destruct (store_inside (RW1.readers_queue g) i now Hq) as (rq & Erq & Q1 & Q2 & Q3).
  unfold RW1.read_books_leave. rewrite Erl. cbn [obind].
  replace (RW1.readers_queue (RW1.set_readers_in_library g rl)) with (RW1.readers_queue g)
    by (destruct g; reflexivity).
  rewrite Erq. cbn [obind]. eexists. split; [reflexivity |].
  destruct g; unfold counter_sums, only_slot; cbn in *.
  rewrite !wrap_int_id by (int_bounds; lia).
  repeat split; try assumption. f_equal. lia.
Qed.

Lemma write_book_enter_moves (now i : Z) (g : RW1.globals) :
  writer_id_ok g i -> counters_safe g ->
  exists g', RW1.write_book_enter now i g = Some g' /\
             counter_sums g' = counter_sums g /\
             load (RW1.writers_queue g') i = Some 0 /\
             load (RW1.writers_in_library g') i = Some now /\
             only_slot i (RW1.writers_queue g) (RW1.writers_queue g') /\
             only_slot i (RW1.writers_in_library g) (RW1.writers_in_library g').
Proof.
  intros [Hl Hq] (C1 & C2 & C3 & C4).
  destruct (store_inside (RW1.writers_in_library g) i now Hl) as (wl & Ewl & L1 & L2 & L3).
  destruct (store_inside (RW1.writers_queue g) i 0 Hq) as (wq & Ewq & Q1 & Q2 & Q3).
  unfold RW1.write_book_enter. rewrite Ewl. cbn [obind].
  replace (RW1.writers_queue (RW1.set_writers_in_library g wl)) with (RW1.writers_queue g)
    by (destruct g; reflexivity).
  rewrite Ewq. cbn [obind]. eexists. split; [reflexivity |].
  destruct g; unfold counter_sums, only_slot; cbn in *.
  rewrite !wrap_int_id by (int_bounds; lia).
  repeat split; try assumption. f_equal. lia.
Qed.

Lemma write_book_leave_moves (now i : Z) (g : RW1.globals) :
  writer_id_ok g i -> counters_safe g ->
  exists g', RW1.write_book_leave now i g = Some g' /\
             counter_sums g' = counter_sums g /\
             load (RW1.writers_queue g') i = Some now /\
             load (RW1.writers_in_library g') i = Some 0 /\
             only_slot i (RW1.writers_queue g) (RW1.writers_queue g') /\
             only_slot i (RW1.writers_in_library g) (RW1.writers_in_library g').
Proof.
  intros [Hl Hq] (C1 & C2 & C3 & C4).
  destruct (store_inside (RW1.writers_in_library g) i 0 Hl) as (wl & Ewl & L1 & L2 & L3).
  destruct (store_inside (RW1.writers_queue g) i now Hq) as (wq & Ewq & Q1 & Q2 & Q3).
  unfold RW1.write_book_leave. rewrite Ewl. cbn [obind].
  replace (RW1.writers_queue (RW1.set_writers_in_library g wl)) with (RW1.writers_queue g)
    by (destruct g; reflexivity).
  rewrite Ewq. cbn [obind]. eexists. split; [reflexivity |].
  destruct g; unfold counter_sums, only_slot; cbn in *.
  rewrite !wrap_int_id by (int_bounds; lia).
  repeat split; try assumption. f_equal. lia.
Qed.

(** ** [r_w_2.c]: every thread starts in one slot *)

Lemma tally_holds_sequence (K K' i : Z) (t : nat -> Z) (n : nat) :
  forall s : nat,
    tally (holds K' i) (map (fun j => RW2.mkPresence K (Z.of_nat j) (t j)) (seq s n))
    = if (K =? K') && (Z.of_nat s <=? i) && (i <? Z.of_nat (s + n)) then 1 else 0.
Proof.
  induction n as [| n IH]; intros s.
  - cbn. destruct (K =? K'), (Z.leb_spec (Z.of_nat s) i),
      (Z.ltb_spec i (Z.of_nat (s + 0))); cbn; lia.
  - cbn [seq map tally]. rewrite IH. unfold holds. cbn [RW2.kind RW2.id].
    destruct (K =? K'); cbn [andb]; [| reflexivity].
    destruct (Z.eqb_spec (Z.of_nat s) i), (Z.leb_spec (Z.of_nat (S s)) i),
      (Z.ltb_spec i (Z.of_nat (S s + n))), (Z.leb_spec (Z.of_nat s) i),
      (Z.ltb_spec i (Z.of_nat (s + S n))); cbn; lia.
Qed.

Lemma tally_cleared (f : RW2.presence -> bool) (a : list RW2.presence) :
  counts_threads f -> tally f (map cleared a) = 0.
Proof.
  intros [Hf _]. induction a as [| p a IH]; cbn; [reflexivity |].
  rewrite (Hf (cleared p) eq_refl), IH. reflexivity.
Qed.

Lemma init_queue_one_slot_each (clock : Z -> Z) (r w : nat) (g : RW2.globals) :
  RW2.readers_count g = Z.of_nat r -> RW2.writers_count g = Z.of_nat w ->
  Z.of_nat (r + w) <= INT_MAX ->
  List.length (RW2.queue g) = (r + w)%nat -> Forall empty (RW2.queue g) ->
  List.length (RW2.in_library g) = (r + w)%nat ->
  exists g',
    RW2.init_queue clock g = Some g' /\ well_formed g' /\
    (forall i, 0 <= i < Z.of_nat r -> copies RW2.READER_KIND i g' = 1) /\
    (forall i, 0 <= i < Z.of_nat w -> copies RW2.WRITER_KIND i g' = 1).
Proof.
  intros Hr Hw Hmax Hlq Hemp Hll.
  rewrite (init_queue_builds clock r w g Hr Hw Hmax Hlq Hemp Hll).
  eexists. split; [reflexivity |].
  assert (Hcopies : forall K i, K <> RW2.NO_KIND ->
            copies K i (RW2.set_in_library (RW2.set_queue g (initial_queue clock r w))
                          (map cleared (RW2.in_library g)))
            = tally (holds K i) (initial_queue clock r w)).
  { intros K i HK. unfold copies. destruct g; cbn.
    rewrite tally_cleared by now apply holds_counts_threads. lia. }
  split; [| split].
  - destruct g; unfold well_formed, RW2.slots, initial_queue; cbn in *. subst.
    rewrite wrap_int_id by (int_bounds; lia).
    rewrite length_app, !length_map, !length_seq. lia.
  - intros i Hi. rewrite Hcopies by discriminate. unfold initial_queue.
    rewrite tally_app, !tally_holds_sequence. cbn [Z.eqb RW2.READER_KIND RW2.WRITER_KIND].
    change (RW2.READER_KIND =? RW2.READER_KIND) with true.
    change (RW2.WRITER_KIND =? RW2.READER_KIND) with false. cbn [andb].
    destruct (Z.leb_spec (Z.of_nat 0) i), (Z.ltb_spec i (Z.of_nat (0 + r))); cbn; lia.
  - intros i Hi. rewrite Hcopies by discriminate. unfold initial_queue.
    rewrite tally_app, !tally_holds_sequence.
    change (RW2.READER_KIND =? RW2.WRITER_KIND) with false.
    change (RW2.WRITER_KIND =? RW2.WRITER_KIND) with true. cbn [andb].
    destruct (Z.leb_spec (Z.of_nat 0) i), (Z.ltb_spec i (Z.of_nat (0 + w))); cbn; lia.
Qed.

(** X15: what does hold of the moves between queue and library. In [r_w_1.c]
    the two blocks of [read_books] and of [write_book] keep both sums of
    the counters and flip the two timestamps of the moving thread only. In
    [r_w_2.c] the first block ([leave_queue] then [get_to_library]), when
    it is run by the thread at the head of the queue, and the second block
    ([leave_library] then [get_to_queue]), when it is run by a thread that
    is in the library, keep the sums that the counting functions give and
    keep, for every thread, the number of slots it occupies in the two
    arrays together; [init_queue] starts every thread with one slot, in the
    queue. This holds for every number of readers and writers. [NO_KIND] is
    the value of the word after a queue whose slots are all taken. *)
Lemma moves_conserve_threads :
  (forall g now i, reader_id_ok g i -> counters_safe g ->
     exists g', RW1.read_books_enter now i g = Some g' /\
                counter_sums g' = counter_sums g /\
                load (RW1.readers_queue g') i = Some 0 /\
                load (RW1.readers_in_library g') i = Some now /\
                only_slot i (RW1.readers_queue g) (RW1.readers_queue g') /\
                only_slot i (RW1.readers_in_library g) (RW1.readers_in_library g')) /\
  (forall g now i, reader_id_ok g i -> counters_safe g ->
     exists g', RW1.read_books_leave now i g = Some g' /\
                counter_sums g' = counter_sums g /\
                load (RW1.readers_queue g') i = Some now /\
                load (RW1.readers_in_library g') i = Some 0 /\
                only_slot i (RW1.readers_queue g) (RW1.readers_queue g') /\
                only_slot i (RW1.readers_in_library g) (RW1.readers_in_library g')) /\
  (forall g now i, writer_id_ok g i -> counters_safe g ->
     exists g', RW1.write_book_enter now i g = Some g' /\
                counter_sums g' = counter_sums g /\
                load (RW1.writers_queue g') i = Some 0 /\
                load (RW1.writers_in_library g') i = Some now /\
                only_slot i (RW1.writers_queue g) (RW1.writers_queue g') /\
                only_slot i (RW1.writers_in_library g) (RW1.writers_in_library g')) /\
  (forall g now i, writer_id_ok g i -> counters_safe g ->
     exists g', RW1.write_book_leave now i g = Some g' /\
                counter_sums g' = counter_sums g /\
                load (RW1.writers_queue g') i = Some now /\
                load (RW1.writers_in_library g') i = Some 0 /\
                only_slot i (RW1.writers_queue g) (RW1.writers_queue g') /\
                only_slot i (RW1.writers_in_library g) (RW1.writers_in_library g')) /\
  (forall g now i x rest,
     well_formed g -> RW2.queue g = x :: rest -> holds RW2.READER_KIND i x = true ->
     Exists empty (RW2.in_library g) ->
     exists g', RW2.read_books_enter RW2.NO_KIND now i g = Some g' /\ conserved g g') /\
  (forall g now i,
     well_formed g ->
     Exists (fun p => holds RW2.READER_KIND i p = true) (RW2.in_library g) ->
     Exists empty (RW2.queue g) ->
     exists g', RW2.read_books_leave now i g = Some g' /\ conserved g g') /\
  (forall g now i x rest,
     well_formed g -> RW2.queue g = x :: rest -> holds RW2.WRITER_KIND i x = true ->
     Exists empty (RW2.in_library g) ->
     exists g', RW2.write_book_enter RW2.NO_KIND now i g = Some g' /\ conserved g g') /\
  (forall g now i,
     well_formed g ->
     Exists (fun p => holds RW2.WRITER_KIND i p = true) (RW2.in_library g) ->
     Exists empty (RW2.queue g) ->
     exists g', RW2.write_book_leave now i g = Some g' /\ conserved g g') /\
  (forall clock r w g,
     RW2.readers_count g = Z.of_nat r -> RW2.writers_count g = Z.of_nat w ->
     Z.of_nat (r + w) <= INT_MAX ->
     List.length (RW2.queue g) = (r + w)%nat -> Forall empty (RW2.queue g) ->
     List.length (RW2.in_library g) = (r + w)%nat ->
     exists g',
       RW2.init_queue clock g = Some g' /\ well_formed g' /\
       (forall i, 0 <= i < Z.of_nat r -> copies RW2.READER_KIND i g' = 1) /\
       (forall i, 0 <= i < Z.of_nat w -> copies RW2.WRITER_KIND i g' = 1)).
Proof.
  split; [| split; [| split; [| split; [| split; [| split; [| split; [| split]]]]]]].
  - intros. now apply read_books_enter_moves.
  - intros. now apply read_books_leave_moves.
  - intros. now apply write_book_enter_moves.
  - intros. now apply write_book_leave_moves.
  - intros g now i x rest Hwf Hq Hx Hfree.
    exact (enter_conserves _ i now g x rest reader_not_no_kind Hwf Hq Hx Hfree).
  - intros g now i Hwf Hin Hfree.
    exact (leave_conserves _ i now g reader_not_no_kind Hwf Hin Hfree).
  - intros g now i x rest Hwf Hq Hx Hfree.
    exact (enter_conserves _ i now g x rest writer_not_no_kind Hwf Hq Hx Hfree).
  - intros g now i Hwf Hin Hfree.
    exact (leave_conserves _ i now g writer_not_no_kind Hwf Hin Hfree).
  - intros clock r w g. apply init_queue_one_slot_each.
Qed.

(** Reader 0 of [r_w_1.c] enters with one reader and one writer queued;
    reader 0 of [r_w_2.c] enters from the queue [R0, R1, W0]. *)
Lemma moves_conserve_threads_example :
  (exists g',
     RW1.read_books_enter 105 0
       (RW1.mkGlobals 0 1 1 [0] 0 [0] 0 [100] 1 [100] 1 0 0 5 5 15 10 20) = Some g' /\
     counter_sums g' = (1, 1)) /\
  (exists g',
     RW2.read_books_enter RW2.NO_KIND 105 0
       (RW2.mkGlobals 0 2 1
          [RW2.mkPresence 1 0 100; RW2.mkPresence 1 1 101; RW2.mkPresence 2 0 102]
          [RW2.mkPresence 0 0 0; RW2.mkPresence 0 0 0; RW2.mkPresence 0 0 0]
          0 5 5 15) = Some g' /\
     kind_sums g' = Some (2, 1)).
Proof.
  split.
  - destruct (proj1 moves_conserve_threads
                (RW1.mkGlobals 0 1 1 [0] 0 [0] 0 [100] 1 [100] 1 0 0 5 5 15 10 20) 105 0)
      as (g' & H1 & H2 & _).
    + unfold reader_id_ok. simpl. lia.
    + unfold counters_safe. int_bounds. simpl. lia.
    + exists g'. split; [exact H1 | exact H2].
  - destruct (proj1 (proj2 (proj2 (proj2 (proj2 moves_conserve_threads))))
                (RW2.mkGlobals 0 2 1
                   [RW2.mkPresence 1 0 100; RW2.mkPresence 1 1 101; RW2.mkPresence 2 0 102]
                   [RW2.mkPresence 0 0 0; RW2.mkPresence 0 0 0; RW2.mkPresence 0 0 0]
                   0 5 5 15) 105 0 (RW2.mkPresence 1 0 100)
                [RW2.mkPresence 1 1 101; RW2.mkPresence 2 0 102])
      as (g' & H1 & _ & (sums & H2 & H3) & _).
    + split; reflexivity.
    + reflexivity.
    + reflexivity.
    + constructor. reflexivity.
    + exists g'. split; [exact H1 |].
      rewrite H3, <- H2. reflexivity.
Defined.

(** ** [r_w_1.c]: the choice of the librarian *)

Lemma load_nth (l : list Z) (j : nat) :
  (j < List.length l)%nat -> load l (Z.of_nat j) = Some (nth j l 0).
Proof.
  intros Hj. unfold load. destruct (Z.ltb_spec (Z.of_nat j) 0); [lia |].
  rewrite Nat2Z.id. now apply nth_error_nth'.
Qed.

Lemma load_some (l : list Z) (j v : Z) :
  load l j = Some v ->
  0 <= j /\ (Z.to_nat j < List.length l)%nat /\ v = nth (Z.to_nat j) l 0.
Proof.
  unfold load. destruct (Z.ltb_spec j 0) as [Hneg | Hnn]; [discriminate |]. intros H.
  assert (Hlt : (Z.to_nat j < List.length l)%nat)
    by (apply nth_error_Some; congruence).
  rewrite (nth_error_nth' l 0 Hlt) in H. injection H as <-. auto.
Qed.

Lemma longest_waiter_scan (clock : Z -> Z) (wq : list Z) :
  Z.of_nat (List.length wq) <= INT_MAX ->
  forall (n k : nat) (m t : Z),
    (k + n = List.length wq)%nat -> scanned clock wq k m t ->
    exists m' t', RW1.longest_waiter n (Z.of_nat k) clock wq m t = Some m' /\
                  scanned clock wq (List.length wq) m' t'.
Proof.
  intros Hmax. induction n as [| n IH]; intros k m t Hk Hs.
  - cbn. exists m, t. split; [reflexivity |]. now replace (List.length wq) with k by lia.
  - cbn [RW1.longest_waiter]. rewrite load_nth by lia. cbn [obind].
    rewrite (wrap_int_id (Z.of_nat k + 1)) by (int_bounds; lia).
    replace (Z.of_nat k + 1) with (Z.of_nat (S k)) by lia.
    fold (waited clock wq k).
    destruct Hs as (Ht & Hle & Hm).
    rewrite Z.gtb_ltb. destruct (Z.ltb_spec t (waited clock wq k)) as [Hgt | Hngt].
    + apply IH; [lia |]. split; [lia |]. split.
      * intros j Hj. destruct (Nat.eq_dec j k) as [-> | Hne]; [lia |].
        specialize (Hle j ltac:(lia)). lia.
      * right. exists k. repeat split; try lia.
        intros j Hj. specialize (Hle j Hj). lia.
    + apply IH; [lia |]. split; [lia |]. split.
      * intros j Hj. destruct (Nat.eq_dec j k) as [-> | Hne]; [lia |].
        apply Hle. lia.
      * destruct Hm as [Hm | (m' & -> & Hm' & Hw & Hpos & Hfirst)]; [now left |].
        right. exists m'. repeat split; try assumption; lia.
Qed.

(** ** [r_w_1.c]: the gate and the race on it *)

(** C1: in [r_w_1.c] a reader and a writer can be in the library together.
    With one reader and one writer: the reader tests the gate under the
    mutex, finds it clear and unlocks; the librarian sets the gate and
    signals the writer; the writer finds [readers_in_library_count] at 0 and
    runs the first block of [write_book]; the reader, already past its
    test, runs the first block of [read_books]. *)
Theorem reader_and_writer_inside_together :
  exists g s,
    RW1.main_start atoi_c ["ReaderAndWriters1"; "1"; "1"]%string [0] [0] [0] [0] 100
      = Continue (Some g) /\
    RW1.run [RW1.WriterWait 0; RW1.ReaderCheck 0; RW1.LibrarianTurn;
             RW1.WriterSpin 0; RW1.WriterEnter 0; RW1.ReaderEnter 0]
      (RW1.boot g 100) = Some s /\
    RW1.reachable (RW1.boot g 100) s /\
    RW1.writers_in_library_count (RW1.mem s) = 1 /\
    RW1.readers_in_library_count (RW1.mem s) = 1 /\
    RW1.readers s = [RW1.RReading] /\ RW1.writers s = [RW1.WWriting].
Proof.
  eexists. eexists.
  split; [vm_compute; reflexivity |].
  split; [vm_compute; reflexivity |].
  split.
  { exists [RW1.WriterWait 0; RW1.ReaderCheck 0; RW1.LibrarianTurn;
            RW1.WriterSpin 0; RW1.WriterEnter 0; RW1.ReaderEnter 0].
    vm_compute. reflexivity. }
  by_running.
Qed.

(** C2: in [r_w_1.c] the librarian sets the gate and signals
    [writers_conds[0]] also when there is no writer at all. Started with 0
    writers and 2 readers, its first turn finds no writer in the library
    and none queued, sets [writer_notification] and makes the call for
    index 0; a reader that tests the gate afterwards waits on
    [readers_cond]. *)
Theorem librarian_sets_gate_without_writers :
  exists g g' s,
    RW1.main_start atoi_c ["ReaderAndWriters1"; "0"; "2"]%string [] [] [0; 0] [0; 0] 100
      = Continue (Some g) /\
    RW1.writers_count g = 0 /\ RW1.writers_queue_count g = 0 /\
    RW1.writers_in_library_count g = 0 /\ RW1.writer_notification g = 0 /\
    RW1.librarian_turn (fun _ => 115) g = Some (g', Some 0) /\
    RW1.writer_notification g' = 1 /\
    RW1.run [RW1.LibrarianTurn; RW1.LibrarianSpin; RW1.ReaderCheck 0; RW1.ReaderCheck 1]
      (RW1.boot g 100) = Some s /\
    RW1.readers s = [RW1.RCondWait; RW1.RCondWait].
Proof.
  eexists. eexists. eexists. by_running.
Qed.

Lemma read_books_enter_keeps_gate (now i : Z) (g g' : RW1.globals) :
  RW1.read_books_enter now i g = Some g' ->
  RW1.writer_notification g' = RW1.writer_notification g.
Proof.
  unfold RW1.read_books_enter. intros H.
  destruct (store (RW1.readers_in_library g) i now); [| discriminate]. cbn in H.
  destruct (store (RW1.readers_queue g) i 0); [| discriminate]. cbn in H.
  injection H as <-. reflexivity.
Qed.

Lemma read_books_leave_keeps_gate (now i : Z) (g g' : RW1.globals) :
  RW1.read_books_leave now i g = Some g' ->
  RW1.writer_notification g' = RW1.writer_notification g.
Proof.
  unfold RW1.read_books_leave. intros H.
  destruct (store (RW1.readers_in_library g) i 0); [| discriminate]. cbn in H.
  destruct (store (RW1.readers_queue g) i now); [| discriminate]. cbn in H.
  injection H as <-. reflexivity.
Qed.

Lemma librarian_turn_keeps_set_gate (clock : Z -> Z) (g g' : RW1.globals) (k : option Z) :
  RW1.librarian_turn clock g = Some (g', k) ->
  RW1.writer_notification g = 1 -> RW1.writer_notification g' = 1.
Proof.
  unfold RW1.librarian_turn. intros H Hg.
  destruct (RW1.writers_in_library_count g =? 0).
  - destruct (RW1.longest_waiter _ _ _ _ _ _); [| discriminate].
    cbn in H. injection H as <- _. reflexivity.
  - injection H as <- _. assumption.
Qed.

Lemma move_nil {A : Type} (eqb : A -> A -> bool) (i : Z) (from to : A) :
  move eqb [] i from to = None.
Proof.
  unfold move, load. destruct (i <? 0); [reflexivity |].
  now destruct (Z.to_nat i).
Qed.

Lemma signal_writer_nil (k : Z) : RW1.signal_writer [] k = [].
Proof. unfold RW1.signal_writer. now rewrite move_nil. Qed.

Lemma step_keeps_set_gate (a : RW1.action) (s s1 : RW1.system) :
  RW1.writers s = [] -> RW1.writer_notification (RW1.mem s) = 1 ->
  RW1.step a s = Some s1 ->
  RW1.writers s1 = [] /\ RW1.writer_notification (RW1.mem s1) = 1.
Proof.
  intros Hw Hg Hstep. destruct a; cbn [RW1.step] in Hstep;
    rewrite ?Hw, ?move_nil in Hstep; try discriminate.
  - injection Hstep as <-. auto.
  - destruct (move _ _ _ _ _); [| discriminate]. injection Hstep as <-. auto.
  - destruct (move _ _ _ _ _); [| discriminate]. cbn [obind] in Hstep.
    destruct (RW1.read_books_enter _ _ _) as [g |] eqn:E; [| discriminate].
    injection Hstep as <-. cbn. split; [assumption |].
    now rewrite (read_books_enter_keeps_gate _ _ _ _ E).
  - destruct (move _ _ _ _ _); [| discriminate]. cbn [obind] in Hstep.
    destruct (RW1.read_books_leave _ _ _) as [g |] eqn:E; [| discriminate].
    injection Hstep as <-. cbn. split; [assumption |].
    now rewrite (read_books_leave_keeps_gate _ _ _ _ E).
  - destruct (RW1.librarian s); [| discriminate].
    destruct (RW1.librarian_turn _ _) as [[g k] |] eqn:E; [| discriminate].
    cbn [obind fst snd] in Hstep. injection Hstep as <-.
    pose proof (librarian_turn_keeps_set_gate _ _ _ _ E Hg) as Hg'.
    destruct k; cbn; rewrite ?Hw, ?signal_writer_nil; auto.
  - destruct (RW1.librarian s); [discriminate |].
    injection Hstep as <-.
    destruct (RW1.writers_in_library_count (RW1.mem s) =? 0); cbn; auto.
Qed.

(** Once the gate is set and there is no writer thread, no step of any
    thread clears it. *)
Lemma gate_stays_set_without_writers (acts : list RW1.action) :
  forall s s',
    RW1.writers s = [] -> RW1.writer_notification (RW1.mem s) = 1 ->
    RW1.run acts s = Some s' ->
    RW1.writers s' = [] /\ RW1.writer_notification (RW1.mem s') = 1.
Proof.
  induction acts as [| a acts IH]; intros s s' Hw Hg Hrun.
  - injection Hrun as <-. auto.
  - cbn [RW1.run] in Hrun.
    destruct (RW1.step a s) as [s1 |] eqn:Hstep; [| discriminate]. cbn [obind] in Hrun.
    destruct (step_keeps_set_gate a s s1 Hw Hg Hstep) as [Hw1 Hg1].
    exact (IH s1 s' Hw1 Hg1 Hrun).
Qed.

(** ** [r_w_2.c]: the order of admission *)

(** [leave_queue] stops its shift at slot 20: a slot from 21 on is never
    written, whatever the queue holds. *)
Lemma leave_queue_from_keeps_far_slots (past_end : Z) (a : list RW2.presence) :
  forall (i j : nat) (a' : list RW2.presence),
    (i <= 20)%nat -> (21 <= i + j)%nat ->
    RW2.leave_queue_from past_end i a = Some a' ->
    nth_error a' j = nth_error a j.
Proof.
  induction a as [| x rest IH]; intros i j a' Hi Hj H; [discriminate |].
  destruct rest as [| y rest'].
  - rewrite leave_queue_from_last in H.
    destruct (negb (past_end =? RW2.NO_KIND) && (i <? 20)%nat); [discriminate |].
    injection H as <-. destruct j as [| j]; [lia |]. reflexivity.
  - rewrite leave_queue_from_step in H.
    destruct (Nat.ltb_spec i 20) as [Hlt | Hge].
    + destruct (negb (RW2.kind y =? RW2.NO_KIND)); cbn [andb] in H.
      * destruct (RW2.leave_queue_from past_end (S i) (y :: rest')) as [r |] eqn:Hr;
          [| discriminate].
        injection H as <-. destruct j as [| j]; [lia |]. cbn [nth_error].
        apply (IH (S i) j r); [lia | lia | exact Hr].
      * injection H as <-. destruct j as [| j]; [lia |]. reflexivity.
    + rewrite andb_false_r in H. injection H as <-.
      destruct j as [| j]; [lia |]. reflexivity.
Qed.

(** X17: [leave_queue] of [r_w_2.c] stops shifting at [i = 20]: the slots
    from index 21 on are never changed, so a thread queued there does not
    move up. *)
Lemma leave_queue_keeps_far_slots (past_end : Z) (g g' : RW2.globals) (j : nat) :
  (21 <= j)%nat ->
  RW2.leave_queue past_end g = Some g' ->
  nth_error (RW2.queue g') j = nth_error (RW2.queue g) j.
Proof.
  intros Hj. unfold RW2.leave_queue.
  destruct (RW2.leave_queue_from past_end 0 (RW2.queue g)) as [q |] eqn:E; [| discriminate].
  intros H. injection H as <-.
  replace (RW2.queue (RW2.set_queue g q)) with q by (destruct g; reflexivity).
  apply (leave_queue_from_keeps_far_slots past_end _ 0%nat j q); [lia | lia | exact E].
Qed.

(** C4: with 22 readers, [r_w_2.c] admits a reader that queued later
    before one that queued earlier, and never admits the earlier one. The
    queue starts as R0, ..., R21, all queued at time 100. Reader 0 is
    admitted; [leave_queue] shifts slots 1 to 20 only and leaves R21 in
    slot 21 behind an empty slot 20. Reader 0 leaves the library at time
    102 and is queued again, in slot 20, in front of R21. The next 21
    admissions are R1, ..., R20 and then R0 again, while R21 is still in
    slot 21, behind an empty head of the queue. *)
Theorem later_reader_admitted_before_earlier :
  exists g0 g1 g2 g3,
    RW2.main_start atoi_c ["ReaderAndWriters2"; "0"; "22"]%string
      (repeat (RW2.mkPresence 0 0 0) 22) (repeat (RW2.mkPresence 0 0 0) 22)
      (fun _ => 100) = Continue (Some g0) /\
    load (RW2.queue g0) 21 = Some (RW2.mkPresence RW2.READER_KIND 21 100) /\
    RW2.librarian_turn g0 = Some (Some (RW2.WakeReader 0)) /\
    RW2.enter 0 101 (RW2.WakeReader 0) g0 = Some g1 /\
    RW2.depart 102 (RW2.WakeReader 0) g1 = Some g2 /\
    load (RW2.queue g2) 20 = Some (RW2.mkPresence RW2.READER_KIND 0 102) /\
    load (RW2.queue g2) 21 = Some (RW2.mkPresence RW2.READER_KIND 21 100) /\
    RW2.serve 21 0 103 g2
      = Some (map (fun j => RW2.WakeReader (Z.of_nat j)) (seq 1 20) ++ [RW2.WakeReader 0],
              g3) /\
    load (RW2.queue g3) 21 = Some (RW2.mkPresence RW2.READER_KIND 21 100) /\
    option_map RW2.kind (load (RW2.queue g3) 0) = Some RW2.NO_KIND /\
    well_formed g3.
Proof.
  eexists. eexists. eexists. eexists.
  do 10 (split; [vm_compute; reflexivity |]).
  split; vm_compute; reflexivity.
Qed.

(** ** [r_w_2.c]: a thread woken for a head that has changed *)

(** C3: in [r_w_2.c] a thread record can be lost and another duplicated.
    With one writer and two readers the queue starts as R0, R1, W0, with
    sums (2 readers, 1 writer) and one slot per thread. Reader 0 is
    admitted, leaves and queues again behind W0. The librarian wakes
    reader 1, the head; on its next turn it finds reader 1 still at the
    head and ends its wait for the writers; reader 1 now runs the first
    block of [read_books]; the librarian then broadcasts
    [readers_conds[queue[0].id]], and [queue[0]] is W0 by now, with id 0:
    reader 0 is woken. Reader 0 runs the first block of [read_books]:
    [leave_queue] takes W0 out of the queue and [get_to_library] puts
    reader 0 into the library. Reader 0 is then both queued and in the
    library, writer 0 is in neither and still waits on its condition
    variable, and the sums are (3 readers, 0 writers). The word after the
    queue block is 0. *)
Theorem stale_wake_loses_writer_and_doubles_reader :
  exists g s,
    RW2.main_start atoi_c ["ReaderAndWriters2"; "1"; "2"]%string
      (repeat (RW2.mkPresence 0 0 0) 3) (repeat (RW2.mkPresence 0 0 0) 3)
      (fun _ => 100) = Continue (Some g) /\
    kind_sums g = Some (2, 1) /\
    copies RW2.READER_KIND 0 g = 1 /\ copies RW2.WRITER_KIND 0 g = 1 /\
    RW2.run 0
      [RW2.ThreadWait (RW2.WakeReader 0); RW2.ThreadWait (RW2.WakeReader 1);
       RW2.ThreadWait (RW2.WakeWriter 0);
       RW2.LibrarianSwitch; RW2.LibrarianCheck; RW2.LibrarianBroadcast;
       RW2.ThreadEnter (RW2.WakeReader 0); RW2.Tick;
       RW2.ThreadLeave (RW2.WakeReader 0); RW2.ThreadWait (RW2.WakeReader 0);
       RW2.LibrarianSwitch; RW2.LibrarianCheck; RW2.LibrarianBroadcast; RW2.Tick;
       RW2.LibrarianSwitch; RW2.LibrarianCheck;
       RW2.ThreadEnter (RW2.WakeReader 1);
       RW2.LibrarianBroadcast;
       RW2.ThreadEnter (RW2.WakeReader 0)]
      (RW2.boot g 100) = Some s /\
    kind_sums (RW2.mem s) = Some (3, 0) /\
    copies RW2.READER_KIND 0 (RW2.mem s) = 2 /\
    copies RW2.WRITER_KIND 0 (RW2.mem s) = 0 /\
    RW2.readers s = [RW2.TInside; RW2.TInside] /\
    RW2.writers s = [RW2.TCondWait].
Proof.
  eexists. eexists. by_running.
Qed.

(** X18: in [r_w_2.c] a stale wake lets two writers into the library: with
    two writers, writer 0 is woken; on its next turn the librarian finds it
    still at the head and the library empty; writer 0 goes in; the
    librarian broadcasts [writers_conds[queue[0].id]], now that of writer
    1, which goes in as well. *)
Lemma stale_wake_admits_two_writers :
  exists g s,
    RW2.main_start atoi_c ["ReaderAndWriters2"; "2"; "0"]%string
      (repeat (RW2.mkPresence 0 0 0) 2) (repeat (RW2.mkPresence 0 0 0) 2)
      (fun _ => 100) = Continue (Some g) /\
    RW2.run 0
      [RW2.ThreadWait (RW2.WakeWriter 0); RW2.ThreadWait (RW2.WakeWriter 1);
       RW2.LibrarianSwitch; RW2.LibrarianCheck; RW2.LibrarianBroadcast; RW2.Tick;
       RW2.LibrarianSwitch; RW2.LibrarianCheck;
       RW2.ThreadEnter (RW2.WakeWriter 0);
       RW2.LibrarianBroadcast;
       RW2.ThreadEnter (RW2.WakeWriter 1)]
      (RW2.boot g 100) = Some s /\
    RW2.get_writers_in_library_count (RW2.mem s) = Some 2 /\
    RW2.writers s = [RW2.TInside; RW2.TInside].
Proof.
  eexists. eexists. by_running.
Qed.

(** * Further properties of the code *)

(** ** [r_w_1.c]: the counters follow the threads *)

Lemma reader_at_eqb_eq (a b : RW1.reader_at) : RW1.reader_at_eqb a b = true <-> a = b.
Proof. destruct a, b; cbn; split; congruence. Qed.

Lemma writer_at_eqb_eq (a b : RW1.writer_at) : RW1.writer_at_eqb a b = true <-> a = b.
Proof. destruct a, b; cbn; split; congruence. Qed.

Lemma standing_app {A : Type} (eqb : A -> A -> bool) (x : A) (l1 l2 : list A) :
  standing eqb x (l1 ++ l2) = standing eqb x l1 + standing eqb x l2.
Proof. induction l1 as [| a l1 IH]; cbn; [reflexivity | rewrite IH; ring]. Qed.

Lemma standing_bounds {A : Type} (eqb : A -> A -> bool) (x : A) (l : list A) :
  0 <= standing eqb x l <= Z.of_nat (List.length l).
Proof.
  induction l as [| a l IH]; cbn [standing List.length]; [lia |].
  destruct (eqb a x); lia.
Qed.

Lemma standing_repeat {A : Type} (eqb : A -> A -> bool) (x a : A) (n : nat) :
  eqb a x = false -> standing eqb x (repeat a n) = 0.
Proof. intros H. induction n as [| n IH]; cbn; [reflexivity | rewrite H, IH; reflexivity]. Qed.

(** A store that succeeds is inside the block and replaces one slot. *)
Lemma store_some {A : Type} (l l' : list A) (i : Z) (v : A) :
  store l i v = Some l' ->
  exists pre x rest,
    l = pre ++ x :: rest /\ l' = pre ++ v :: rest /\
    Z.of_nat (List.length pre) = i /\ load l i = Some x.
Proof.
  intros H.
  assert (Hi : 0 <= i < Z.of_nat (List.length l)).
  { unfold store in H.
    destruct (Z.leb_spec 0 i), (Z.ltb_spec i (Z.of_nat (List.length l)));
      cbn in H; try discriminate; lia. }
  destruct (split_at l i Hi) as (pre & x & rest & -> & <-).
  rewrite store_middle in H. injection H as <-.
  exists pre, x, rest. repeat split. apply load_middle.
Qed.

Lemma store_some_length {A : Type} (l l' : list A) (i : Z) (v : A) :
  store l i v = Some l' -> List.length l' = List.length l.
Proof.
  intros H. destruct (store_some _ _ _ _ H) as (pre & x & rest & -> & -> & _).
  rewrite !length_app. reflexivity.
Qed.

(** A thread that moves leaves the place it was at and arrives at the
    other; the list keeps its length. *)
Lemma move_standing {A : Type} (eqb : A -> A -> bool) (l l' : list A) (i : Z)
  (from to x : A) :
  (forall a b, eqb a b = true <-> a = b) ->
  move eqb l i from to = Some l' ->
  List.length l' = List.length l /\
  standing eqb x l'
  = standing eqb x l - (if eqb from x then 1 else 0) + (if eqb to x then 1 else 0).
Proof.
  intros Heq H. unfold move in H.
  destruct (load l i) as [a |] eqn:Ha; [| discriminate].
  destruct (eqb a from) eqn:Hfrom; [| discriminate].
  apply Heq in Hfrom. subst a.
  destruct (store_some _ _ _ _ H) as (pre & y & rest & -> & -> & _ & Hy).
  rewrite Ha in Hy. injection Hy as <-.
  rewrite !length_app, !standing_app. cbn [List.length standing]. split; lia.
Qed.

(** What each of the four blocks does to the globals. *)
Lemma read_books_enter_fields (now i : Z) (g g' : RW1.globals) :
  RW1.read_books_enter now i g = Some g' ->
  RW1.readers_in_library_count g' = wrap_int (RW1.readers_in_library_count g + 1) /\
  RW1.readers_queue_count g' = wrap_int (RW1.readers_queue_count g - 1) /\
  RW1.writers_in_library_count g' = RW1.writers_in_library_count g /\
  RW1.writers_queue_count g' = RW1.writers_queue_count g /\
  List.length (RW1.readers_in_library g') = List.length (RW1.readers_in_library g) /\
  List.length (RW1.readers_queue g') = List.length (RW1.readers_queue g) /\
  RW1.writers_in_library g' = RW1.writers_in_library g /\
  RW1.writers_queue g' = RW1.writers_queue g.
Proof.
  unfold RW1.read_books_enter. intros H.
  destruct (store (RW1.readers_in_library g) i now) as [rl |] eqn:E1; [| discriminate].
  cbn [obind] in H.
  replace (RW1.readers_queue (RW1.set_readers_in_library g rl)) with (RW1.readers_queue g)
    in H by (destruct g; reflexivity).
  destruct (store (RW1.readers_queue g) i 0) as [rq |] eqn:E2; [| discriminate].
  cbn [obind] in H. injection H as <-.
  apply store_some_length in E1, E2. destruct g; cbn in *. repeat split; assumption.
Qed.

Lemma read_books_leave_fields (now i : Z) (g g' : RW1.globals) :
  RW1.read_books_leave now i g = Some g' ->
  RW1.readers_in_library_count g' = wrap_int (RW1.readers_in_library_count g - 1) /\
  RW1.readers_queue_count g' = wrap_int (RW1.readers_queue_count g + 1) /\
  RW1.writers_in_library_count g' = RW1.writers_in_library_count g /\
  RW1.writers_queue_count g' = RW1.writers_queue_count g /\
  List.length (RW1.readers_in_library g') = List.length (RW1.readers_in_library g) /\
  List.length (RW1.readers_queue g') = List.length (RW1.readers_queue g) /\
  RW1.writers_in_library g' = RW1.writers_in_library g /\
  RW1.writers_queue g' = RW1.writers_queue g.
Proof.
  unfold RW1.read_books_leave. intros H.
  destruct (store (RW1.readers_in_library g) i 0) as [rl |] eqn:E1; [| discriminate].
  cbn [obind] in H.
  replace (RW1.readers_queue (RW1.set_readers_in_library g rl)) with (RW1.readers_queue g)
    in H by (destruct g; reflexivity).
  destruct (store (RW1.readers_queue g) i now) as [rq |] eqn:E2; [| discriminate].
  cbn [obind] in H. injection H as <-.
  apply store_some_length in E1, E2. destruct g; cbn in *. repeat split; assumption.
Qed.

Lemma write_book_enter_fields (now i : Z) (g g' : RW1.globals) :
  RW1.write_book_enter now i g = Some g' ->
  RW1.writers_in_library_count g' = wrap_int (RW1.writers_in_library_count g + 1) /\
  RW1.writers_queue_count g' = wrap_int (RW1.writers_queue_count g - 1) /\
  RW1.readers_in_library_count g' = RW1.readers_in_library_count g /\
  RW1.readers_queue_count g' = RW1.readers_queue_count g /\
  List.length (RW1.writers_in_library g') = List.length (RW1.writers_in_library g) /\
  List.length (RW1.writers_queue g') = List.length (RW1.writers_queue g) /\
  RW1.readers_in_library g' = RW1.readers_in_library g /\
  RW1.readers_queue g' = RW1.readers_queue g.
Proof.
  unfold RW1.write_book_enter. intros H.
  destruct (store (RW1.writers_in_library g) i now) as [wl |] eqn:E1; [| discriminate].
  cbn [obind] in H.
  replace (RW1.writers_queue (RW1.set_writers_in_library g wl)) with (RW1.writers_queue g)
    in H by (destruct g; reflexivity).
  destruct (store (RW1.writers_queue g) i 0) as [wq |] eqn:E2; [| discriminate].
  cbn [obind] in H. injection H as <-.
  apply store_some_length in E1, E2. destruct g; cbn in *. repeat split; assumption.
Qed.

Lemma write_book_leave_fields (now i : Z) (g g' : RW1.globals) :
  RW1.write_book_leave now i g = Some g' ->
  RW1.writers_in_library_count g' = wrap_int (RW1.writers_in_library_count g - 1) /\
  RW1.writers_queue_count g' = wrap_int (RW1.writers_queue_count g + 1) /\
  RW1.readers_in_library_count g' = RW1.readers_in_library_count g /\
  RW1.readers_queue_count g' = RW1.readers_queue_count g /\
  List.length (RW1.writers_in_library g') = List.length (RW1.writers_in_library g) /\
  List.length (RW1.writers_queue g') = List.length (RW1.writers_queue g) /\
  RW1.readers_in_library g' = RW1.readers_in_library g /\
  RW1.readers_queue g' = RW1.readers_queue g.
Proof.
  unfold RW1.write_book_leave. intros H.
  destruct (store (RW1.writers_in_library g) i 0) as [wl |] eqn:E1; [| discriminate].
  cbn [obind] in H.
  replace (RW1.writers_queue (RW1.set_writers_in_library g wl)) with (RW1.writers_queue g)
    in H by (destruct g; reflexivity).
  destruct (store (RW1.writers_queue g) i now) as [wq |] eqn:E2; [| discriminate].
  cbn [obind] in H. injection H as <-.
  apply store_some_length in E1, E2. destruct g; cbn in *. repeat split; assumption.
Qed.

Lemma librarian_turn_fields (clock : Z -> Z) (g g' : RW1.globals) (k : option Z) :
  RW1.librarian_turn clock g = Some (g', k) ->
  RW1.readers_in_library_count g' = RW1.readers_in_library_count g /\
  RW1.readers_queue_count g' = RW1.readers_queue_count g /\
  RW1.writers_in_library_count g' = RW1.writers_in_library_count g /\
  RW1.writers_queue_count g' = RW1.writers_queue_count g /\
  RW1.readers_in_library g' = RW1.readers_in_library g /\
  RW1.readers_queue g' = RW1.readers_queue g /\
  RW1.writers_in_library g' = RW1.writers_in_library g /\
  RW1.writers_queue g' = RW1.writers_queue g.
Proof.
  unfold RW1.librarian_turn. intros H.
  destruct (RW1.writers_in_library_count g =? 0).
  - destruct (RW1.longest_waiter _ _ _ _ _ _); [| discriminate].
    cbn in H. injection H as <- _. destruct g; cbn. repeat split.
  - injection H as <- _. repeat split.
Qed.

Lemma signal_writer_standing (ws : list RW1.writer_at) (k : Z) :
  List.length (RW1.signal_writer ws k) = List.length ws /\
  standing RW1.writer_at_eqb RW1.WWriting (RW1.signal_writer ws k)
  = standing RW1.writer_at_eqb RW1.WWriting ws.
Proof.
  unfold RW1.signal_writer.
  destruct (move RW1.writer_at_eqb ws k RW1.WCondWait RW1.WSpin) as [ws' |] eqn:E;
    [| split; reflexivity].
  destruct (move_standing _ _ _ _ _ _ RW1.WWriting writer_at_eqb_eq E) as [Hl Hs].
  cbn in Hs. split; [exact Hl | lia].
Qed.

Lemma broadcast_readers_standing (rs : list RW1.reader_at) :
  List.length (RW1.broadcast_readers rs) = List.length rs /\
  standing RW1.reader_at_eqb RW1.RReading (RW1.broadcast_readers rs)
  = standing RW1.reader_at_eqb RW1.RReading rs.
Proof.
  unfold RW1.broadcast_readers. split; [apply length_map |].
  induction rs as [| r rs IH]; cbn; [reflexivity |].
  rewrite IH. destruct r; reflexivity.
Qed.

(** One step of any thread keeps [counted] and the numbers of threads. *)
Lemma step_keeps_counted (a : RW1.action) (s s1 : RW1.system) :
  counted s -> RW1.step a s = Some s1 ->
  counted s1 /\
  List.length (RW1.readers s1) = List.length (RW1.readers s) /\
  List.length (RW1.writers s1) = List.length (RW1.writers s).
Proof.
  intros (C1 & C2 & C3 & C4 & L1 & L2 & L3 & L4 & B1 & B2) Hstep.
  pose proof (standing_bounds RW1.reader_at_eqb RW1.RReading (RW1.readers s)) as Hr.
  pose proof (standing_bounds RW1.writer_at_eqb RW1.WWriting (RW1.writers s)) as Hw.
  unfold counted, reading, writing in *.
  destruct a; cbn [RW1.step] in Hstep.
  - (* Tick *)
    injection Hstep as <-. cbn. repeat split; assumption.
  - (* ReaderCheck *)
    destruct (move _ _ _ _ _) as [rs |] eqn:Em; [| discriminate].
    cbn [obind] in Hstep. injection Hstep as <-.
    destruct (move_standing _ _ _ _ _ _ RW1.RReading reader_at_eqb_eq Em) as [Hl Hs].
    cbn. rewrite Hl.
    destruct (RW1.writer_notification (RW1.mem s) =? 0); cbn in Hs;
      repeat split; try assumption; lia.
  - (* ReaderEnter *)
    destruct (move _ _ _ _ _) as [rs |] eqn:Em; [| discriminate].
    cbn [obind] in Hstep.
    destruct (RW1.read_books_enter _ _ _) as [g |] eqn:Eg; [| discriminate].
    cbn [obind] in Hstep. injection Hstep as <-.
    destruct (move_standing _ _ _ _ _ _ RW1.RReading reader_at_eqb_eq Em) as [Hl Hs].
    destruct (read_books_enter_fields _ _ _ _ Eg)
      as (F1 & F2 & F3 & F4 & F5 & F6 & F7 & F8).
    cbn in Hs |- *. rewrite F1, F2, F3, F4, F5, F6, F7, F8, Hl.
    rewrite !wrap_int_id by (int_bounds; lia).
    repeat split; try assumption; lia.
  - (* ReaderLeave *)
    destruct (move _ _ _ _ _) as [rs |] eqn:Em; [| discriminate].
    cbn [obind] in Hstep.
    destruct (RW1.read_books_leave _ _ _) as [g |] eqn:Eg; [| discriminate].
    cbn [obind] in Hstep. injection Hstep as <-.
    destruct (move_standing _ _ _ _ _ _ RW1.RReading reader_at_eqb_eq Em) as [Hl Hs].
    destruct (read_books_leave_fields _ _ _ _ Eg)
      as (F1 & F2 & F3 & F4 & F5 & F6 & F7 & F8).
    cbn in Hs |- *. rewrite F1, F2, F3, F4, F5, F6, F7, F8, Hl.
    rewrite !wrap_int_id by (int_bounds; lia).
    repeat split; try assumption; lia.
  - (* WriterWait *)
    destruct (move _ _ _ _ _) as [ws |] eqn:Em; [| discriminate].
    cbn [obind] in Hstep. injection Hstep as <-.
    destruct (move_standing _ _ _ _ _ _ RW1.WWriting writer_at_eqb_eq Em) as [Hl Hs].
    cbn in Hs |- *. rewrite Hl. repeat split; try assumption; lia.
  - (* WriterSpin *)
    destruct (move _ _ _ _ _) as [ws |] eqn:Em; [| discriminate].
    cbn [obind] in Hstep. injection Hstep as <-.
    destruct (move_standing _ _ _ _ _ _ RW1.WWriting writer_at_eqb_eq Em) as [Hl Hs].
    cbn. rewrite Hl.
    destruct (RW1.readers_in_library_count (RW1.mem s) =? 0); cbn in Hs;
      repeat split; try assumption; lia.
  - (* WriterEnter *)
    destruct (move _ _ _ _ _) as [ws |] eqn:Em; [| discriminate].
    cbn [obind] in Hstep.
    destruct (RW1.write_book_enter _ _ _) as [g |] eqn:Eg; [| discriminate].
    cbn [obind] in Hstep. injection Hstep as <-.
    destruct (move_standing _ _ _ _ _ _ RW1.WWriting writer_at_eqb_eq Em) as [Hl Hs].
    destruct (write_book_enter_fields _ _ _ _ Eg)
      as (F1 & F2 & F3 & F4 & F5 & F6 & F7 & F8).
    cbn in Hs |- *. rewrite F1, F2, F3, F4, F5, F6, F7, F8, Hl.
    rewrite !wrap_int_id by (int_bounds; lia).
    repeat split; try assumption; lia.
  - (* WriterLeave *)
    destruct (move _ _ _ _ _) as [ws |] eqn:Em; [| discriminate].
    cbn [obind] in Hstep.
    destruct (RW1.write_book_leave _ _ _) as [g |] eqn:Eg; [| discriminate].
    cbn [obind] in Hstep. injection Hstep as <-.
    destruct (move_standing _ _ _ _ _ _ RW1.WWriting writer_at_eqb_eq Em) as [Hl Hs].
    destruct (write_book_leave_fields _ _ _ _ Eg)
      as (F1 & F2 & F3 & F4 & F5 & F6 & F7 & F8).
    cbn in Hs |- *. rewrite F1, F2, F3, F4, F5, F6, F7, F8, Hl.
    rewrite !wrap_int_id by (int_bounds; lia).
    repeat split; try assumption; lia.
  - (* WriterBroadcast *)
    destruct (move _ _ _ _ _) as [ws |] eqn:Em; [| discriminate].
    cbn [obind] in Hstep. injection Hstep as <-.
    destruct (move_standing _ _ _ _ _ _ RW1.WWriting writer_at_eqb_eq Em) as [Hl Hs].
    destruct (broadcast_readers_standing (RW1.readers s)) as [Hbl Hbs].
    cbn in Hs |- *. rewrite Hl, Hbl, Hbs. repeat split; try assumption; lia.
  - (* LibrarianTurn *)
    destruct (RW1.librarian s); [| discriminate].
    destruct (RW1.librarian_turn _ _) as [[g k] |] eqn:Eg; [| discriminate].
    cbn [obind fst snd] in Hstep. injection Hstep as <-.
    destruct (librarian_turn_fields _ _ _ _ Eg)
      as (F1 & F2 & F3 & F4 & F5 & F6 & F7 & F8).
    destruct k as [k |]; cbn.
    + destruct (signal_writer_standing (RW1.writers s) k) as [Hsl Hss].
      rewrite F1, F2, F3, F4, F5, F6, F7, F8, Hsl, Hss.
      repeat split; assumption.
    + rewrite F1, F2, F3, F4, F5, F6, F7, F8. repeat split; assumption.
  - (* LibrarianSpin *)
    destruct (RW1.librarian s); [discriminate |].
    injection Hstep as <-.
    destruct (RW1.writers_in_library_count (RW1.mem s) =? 0); cbn;
      repeat split; assumption.
Qed.

Lemma run_keeps_counted (acts : list RW1.action) :
  forall s s',
    counted s -> RW1.run acts s = Some s' ->
    counted s' /\
    List.length (RW1.readers s') = List.length (RW1.readers s) /\
    List.length (RW1.writers s') = List.length (RW1.writers s).
Proof.
  induction acts as [| a acts IH]; intros s s' Hc Hrun.
  - injection Hrun as <-. auto.
  - cbn [RW1.run] in Hrun.
    destruct (RW1.step a s) as [s1 |] eqn:Hstep; [| discriminate]. cbn [obind] in Hrun.
    destruct (step_keeps_counted a s s1 Hc Hstep) as (Hc1 & Hr1 & Hw1).
    destruct (IH s1 s' Hc1 Hrun) as (Hc' & Hr' & Hw').
    split; [assumption | split; congruence].
Qed.

(** ** [args_interpreter]: the accepted command lines *)

Lemma args_result_1 (atoi : string -> Z) (argv : list string) (g : RW1.globals) :
  match RW1.args_interpreter atoi argv g with
  | Exit m st => m = RW1.ERROR_ARGUMENTS_MESSAGE /\ st = EXIT_FAILURE /\ refused_1 argv
  | Continue g' => ~ refused_1 argv /\ accepted_1 atoi argv g g'
  end.
Proof.
  unfold RW1.args_interpreter, RW1.usage, refused_1, accepted_1, too_few, unknown_flag,
    too_many, asks_debug.
  change (11 - 1)%nat with 10%nat.
  split_tests; bool_facts; cbn;
    repeat match goal with
      | |- _ /\ _ => split
      | |- ~ _ => intros ?
      | |- _ -> _ => intros ?
      end;
    try reflexivity;
    try (destruct g; reflexivity);
    try solve [intuition (try congruence; try lia)];
    try solve [exfalso; match goal with H : ~ _ |- _ => apply H end;
               (left + right); split; (lia || congruence)].
Qed.

Lemma args_result_2 (atoi : string -> Z) (argv : list string) (g : RW2.globals) :
  match RW2.args_interpreter atoi argv g with
  | Exit m st => m = RW2.ERROR_ARGUMENTS_MESSAGE /\ st = EXIT_FAILURE /\ refused_2 argv
  | Continue g' => ~ refused_2 argv /\ accepted_2 atoi argv g g'
  end.
Proof.
  unfold RW2.args_interpreter, RW2.usage, refused_2, accepted_2, too_few, unknown_flag,
    too_many, asks_debug.
  change (9 - 1)%nat with 8%nat.
  split_tests; bool_facts; cbn;
    repeat match goal with
      | |- _ /\ _ => split
      | |- ~ _ => intros ?
      | |- _ -> _ => intros ?
      end;
    try reflexivity;
    try (destruct g; reflexivity);
    try solve [intuition (try congruence; try lia)];
    try solve [exfalso; match goal with H : ~ _ |- _ => apply H end;
               (left + right); split; (lia || congruence)].
Qed.

(** ** [r_w_1.c]: [init_queue] and the state [main] starts the threads in *)

Lemma fill_repeat (v : Z) (n : nat) :
  forall done todo,
    (n <= List.length todo)%nat ->
    Z.of_nat (List.length done + n) <= INT_MAX ->
    RW1.fill n (Z.of_nat (List.length done)) v (done ++ todo)
    = Some (done ++ repeat v n ++ skipn n todo).
Proof.
  induction n as [| n IH]; intros done todo Hlen Hmax.
  - reflexivity.
  - destruct todo as [| x todo]; [cbn in Hlen; lia |].
    cbn [RW1.fill repeat skipn]. rewrite store_middle. cbn [obind].
    rewrite (wrap_int_id (Z.of_nat (List.length done) + 1))
      by (int_bounds; lia).
    replace (Z.of_nat (List.length done) + 1)
      with (Z.of_nat (List.length (done ++ [v])))
      by (rewrite length_app; cbn [List.length]; lia).
    replace (done ++ v :: todo) with ((done ++ [v]) ++ todo)
      by (rewrite <- app_assoc; reflexivity).
    rewrite IH.
    + rewrite <- app_assoc. reflexivity.
    + cbn in Hlen. lia.
    + rewrite length_app. cbn [List.length]. lia.
Qed.

Lemma fill_short (v : Z) (n : nat) :
  forall done todo,
    (List.length todo < n)%nat ->
    Z.of_nat (List.length done + n) <= INT_MAX ->
    RW1.fill n (Z.of_nat (List.length done)) v (done ++ todo) = None.
Proof.
  induction n as [| n IH]; intros done todo Hlen Hmax; [lia |].
  destruct todo as [| x todo].
  - cbn [RW1.fill]. unfold store. rewrite app_nil_r, Z.ltb_irrefl, andb_false_r.
    reflexivity.
  - cbn [RW1.fill]. rewrite store_middle. cbn [obind].
    rewrite (wrap_int_id (Z.of_nat (List.length done) + 1))
      by (int_bounds; lia).
    replace (Z.of_nat (List.length done) + 1)
      with (Z.of_nat (List.length (done ++ [v])))
      by (rewrite length_app; cbn [List.length]; lia).
    replace (done ++ v :: todo) with ((done ++ [v]) ++ todo)
      by (rewrite <- app_assoc; reflexivity).
    apply IH.
    + cbn in Hlen. lia.
    + rewrite length_app. cbn [List.length]. lia.
Qed.

Lemma fill_length (v : Z) (n : nat) :
  forall i a a', RW1.fill n i v a = Some a' -> List.length a' = List.length a.
Proof.
  induction n as [| n IH]; intros i a a' H.
  - injection H as <-. reflexivity.
  - cbn [RW1.fill] in H. destruct (store a i v) as [a1 |] eqn:E; [| discriminate].
    cbn [obind] in H. rewrite (IH _ _ _ H). exact (store_some_length _ _ _ _ E).
Qed.

(** X1: [init_queue] of [r_w_1.c] stamps the first [readers_count] slots of
    the readers' queue and the first [writers_count] slots of the writers'
    queue with the one timestamp it read, and leaves the rest of the two
    arrays and every other global as they were; on an array with fewer
    slots than threads it writes past the end. *)
Theorem init_queue_stamps_every_thread (now : Z) (g : RW1.globals) :
  RW1.readers_count g <= INT_MAX -> RW1.writers_count g <= INT_MAX ->
  ((Z.to_nat (RW1.readers_count g) <= List.length (RW1.readers_queue g))%nat ->
   (Z.to_nat (RW1.writers_count g) <= List.length (RW1.writers_queue g))%nat ->
   RW1.init_queue now g
   = Some (RW1.set_writers_queue
             (RW1.set_readers_queue g
                (repeat now (Z.to_nat (RW1.readers_count g))
                 ++ skipn (Z.to_nat (RW1.readers_count g)) (RW1.readers_queue g)))
             (repeat now (Z.to_nat (RW1.writers_count g))
              ++ skipn (Z.to_nat (RW1.writers_count g)) (RW1.writers_queue g)))) /\
  ((List.length (RW1.readers_queue g) < Z.to_nat (RW1.readers_count g))%nat \/
   (List.length (RW1.writers_queue g) < Z.to_nat (RW1.writers_count g))%nat ->
   RW1.init_queue now g = None).
Proof.
  intros Hr Hw. unfold RW1.init_queue.
  pose proof (fill_repeat now (Z.to_nat (RW1.readers_count g)) [] (RW1.readers_queue g))
    as Fr.
  pose proof (fill_short now (Z.to_nat (RW1.readers_count g)) [] (RW1.readers_queue g))
    as Sr.
  cbn [List.length app Z.of_nat Nat.add] in Fr, Sr.
  split.
  - intros Lr Lw. rewrite Fr by (int_bounds; lia). cbn [obind].
    replace (RW1.writers_count (RW1.set_readers_queue g _)) with (RW1.writers_count g)
      by (destruct g; reflexivity).
    replace (RW1.writers_queue (RW1.set_readers_queue g _)) with (RW1.writers_queue g)
      by (destruct g; reflexivity).
    pose proof (fill_repeat now (Z.to_nat (RW1.writers_count g)) [] (RW1.writers_queue g))
      as Fw.
    cbn [List.length app Z.of_nat Nat.add] in Fw.
    rewrite Fw by (int_bounds; lia). reflexivity.
  - intros [Lr | Lw].
    + rewrite Sr by (int_bounds; lia). reflexivity.
    + destruct (RW1.fill (Z.to_nat (RW1.readers_count g)) 0 now (RW1.readers_queue g))
        as [rq |]; [| reflexivity].
      cbn [obind].
      replace (RW1.writers_count (RW1.set_readers_queue g rq)) with (RW1.writers_count g)
        by (destruct g; reflexivity).
      replace (RW1.writers_queue (RW1.set_readers_queue g rq)) with (RW1.writers_queue g)
        by (destruct g; reflexivity).
      pose proof (fill_short now (Z.to_nat (RW1.writers_count g)) [] (RW1.writers_queue g))
        as Sw.
      cbn [List.length app Z.of_nat Nat.add] in Sw.
      rewrite Sw by (int_bounds; lia). reflexivity.
Qed.

Lemma init_queue_stamps_every_thread_witness :
  RW1.init_queue 100 (RW1.mkGlobals 0 2 1 [0] 0 [0; 0] 0 [7; 8] 1 [4; 5; 6] 2 0 0 5 5 15 10 20)
  = Some (RW1.mkGlobals 0 2 1 [0] 0 [0; 0] 0 [100; 8] 1 [100; 100; 6] 2 0 0 5 5 15 10 20).
Proof.
  apply (proj1 (init_queue_stamps_every_thread 100
           (RW1.mkGlobals 0 2 1 [0] 0 [0; 0] 0 [7; 8] 1 [4; 5; 6] 2 0 0 5 5 15 10 20)
           ltac:(int_bounds; simpl; lia) ltac:(int_bounds; simpl; lia)));
    simpl; lia.
Defined.

Lemma main_start_state (atoi : string -> Z) (argv : list string)
  (wl wq rl rq : list Z) (now : Z) (g : RW1.globals) :
  RW1.main_start atoi argv wl wq rl rq now = Continue (Some g) ->
  RW1.writers_count g = atoi (RW1.arg argv 1) /\
  RW1.readers_count g = atoi (RW1.arg argv 2) /\
  RW1.writers_queue_count g = atoi (RW1.arg argv 1) /\
  RW1.readers_queue_count g = atoi (RW1.arg argv 2) /\
  RW1.writers_in_library_count g = 0 /\
  RW1.readers_in_library_count g = 0 /\
  RW1.writer_notification g = 0 /\
  RW1.writers_in_library g = wl /\
  RW1.readers_in_library g = rl /\
  List.length (RW1.writers_queue g) = List.length wq /\
  List.length (RW1.readers_queue g) = List.length rq.
Proof.
  unfold RW1.main_start.
  pose proof (args_result_1 atoi argv RW1.globals0) as Hargs.
  destruct (RW1.args_interpreter atoi argv RW1.globals0) as [m st | g0];
    cbn [pbind]; [discriminate |].
  destruct Hargs as [_ Hacc]. unfold accepted_1 in Hacc.
  destruct Hacc as (Hw & Hwq & Hr & Hrq & _ & _ & _ & Hwl & Hrl & Hn & _).
  intros H. injection H as H. unfold RW1.init_queue in H.
  destruct (RW1.fill _ 0 now _) as [rq' |] eqn:Er in H; [| discriminate].
  cbn [obind] in H.
  destruct (RW1.fill _ 0 now _) as [wq' |] eqn:Ew in H; [| discriminate].
  cbn [obind] in H. injection H as <-.
  apply fill_length in Er, Ew.
  destruct g0; cbn in *. subst.
  repeat split; try reflexivity; assumption.
Qed.

Lemma boot_counted (g : RW1.globals) (now : Z) :
  0 <= RW1.readers_count g < INT_MAX -> 0 <= RW1.writers_count g < INT_MAX ->
  RW1.readers_queue_count g = RW1.readers_count g ->
  RW1.writers_queue_count g = RW1.writers_count g ->
  RW1.readers_in_library_count g = 0 -> RW1.writers_in_library_count g = 0 ->
  List.length (RW1.readers_in_library g) = Z.to_nat (RW1.readers_count g) ->
  List.length (RW1.readers_queue g) = Z.to_nat (RW1.readers_count g) ->
  List.length (RW1.writers_in_library g) = Z.to_nat (RW1.writers_count g) ->
  List.length (RW1.writers_queue g) = Z.to_nat (RW1.writers_count g) ->
  counted (RW1.boot g now).
Proof.
  intros Hr Hw Hrq Hwq Hrl Hwl L1 L2 L3 L4.
  unfold counted, reading, writing, RW1.boot. cbn.
  rewrite !repeat_length.
  rewrite (standing_repeat RW1.reader_at_eqb RW1.RReading RW1.RTop _ eq_refl).
  rewrite (standing_repeat RW1.writer_at_eqb RW1.WWriting RW1.WTop _ eq_refl).
  repeat split; lia.
Qed.

(** X2: in [r_w_1.c], started with [w] writers and [r] readers (below
    [INT_MAX]) and arrays of one slot per thread, after any interleaving of
    steps of the threads each counter is the number of threads at its
    place: the library counters count the threads between the two blocks
    of [read_books] and of [write_book], the queue counters the others. So
    the counters stay within [0, r] and [0, w], and queue plus library is
    always [r] readers and [w] writers. *)
Theorem counters_follow_threads (atoi : string -> Z) (argv : list string)
  (wl wq rl rq : list Z) (now : Z) (g : RW1.globals)
  (acts : list RW1.action) (s : RW1.system) :
  0 <= atoi (RW1.arg argv 1) < INT_MAX ->
  0 <= atoi (RW1.arg argv 2) < INT_MAX ->
  List.length wl = Z.to_nat (atoi (RW1.arg argv 1)) ->
  List.length wq = Z.to_nat (atoi (RW1.arg argv 1)) ->
  List.length rl = Z.to_nat (atoi (RW1.arg argv 2)) ->
  List.length rq = Z.to_nat (atoi (RW1.arg argv 2)) ->
  RW1.main_start atoi argv wl wq rl rq now = Continue (Some g) ->
  RW1.run acts (RW1.boot g now) = Some s ->
  counted s /\
  counter_sums (RW1.mem s) = (atoi (RW1.arg argv 2), atoi (RW1.arg argv 1)) /\
  0 <= RW1.readers_in_library_count (RW1.mem s) <= atoi (RW1.arg argv 2) /\
  0 <= RW1.readers_queue_count (RW1.mem s) <= atoi (RW1.arg argv 2) /\
  0 <= RW1.writers_in_library_count (RW1.mem s) <= atoi (RW1.arg argv 1) /\
  0 <= RW1.writers_queue_count (RW1.mem s) <= atoi (RW1.arg argv 1).
Proof.
  intros Hw Hr Lwl Lwq Lrl Lrq Hmain Hrun.
  destruct (main_start_state _ _ _ _ _ _ _ _ Hmain)
    as (Ew & Er & Ewq & Erq & Ewl & Erl & _ & Awl & Arl & Awq & Arq).
  assert (Hboot : counted (RW1.boot g now)).
  { apply boot_counted; rewrite ?Ew, ?Er, ?Awl, ?Arl, ?Awq, ?Arq; assumption. }
  destruct (run_keeps_counted acts _ _ Hboot Hrun) as (Hc & Nr & Nw).
  assert (Hnr : Z.of_nat (List.length (RW1.readers s)) = atoi (RW1.arg argv 2)).
  { rewrite Nr. cbn. rewrite repeat_length, Er. lia. }
  assert (Hnw : Z.of_nat (List.length (RW1.writers s)) = atoi (RW1.arg argv 1)).
  { rewrite Nw. cbn. rewrite repeat_length, Ew. lia. }
  split; [exact Hc |].
  destruct Hc as (C1 & C2 & C3 & C4 & _).
  pose proof (standing_bounds RW1.reader_at_eqb RW1.RReading (RW1.readers s)) as Br.
  pose proof (standing_bounds RW1.writer_at_eqb RW1.WWriting (RW1.writers s)) as Bw.
  unfold reading, writing in *. unfold counter_sums.
  rewrite C1, C2, C3, C4.
  split; [f_equal; lia | lia].
Qed.

Lemma counters_follow_threads_witness :
  exists g s,
    RW1.main_start atoi_c ["ReadersAndWriters1"; "1"; "2"]%string [0] [0] [0; 0] [0; 0] 100
    = Continue (Some g) /\
    RW1.run [RW1.ReaderCheck 0; RW1.ReaderEnter 0; RW1.ReaderCheck 1; RW1.ReaderEnter 1;
             RW1.Tick; RW1.ReaderLeave 0]
      (RW1.boot g 100) = Some s /\
    counted s /\
    counter_sums (RW1.mem s) = (2, 1) /\
    0 <= RW1.readers_in_library_count (RW1.mem s) <= 2.
Proof.
  assert (A1 : atoi_c (RW1.arg ["ReadersAndWriters1"; "1"; "2"]%string 1) = 1)
    by (vm_compute; reflexivity).
  assert (A2 : atoi_c (RW1.arg ["ReadersAndWriters1"; "1"; "2"]%string 2) = 2)
    by (vm_compute; reflexivity).
  destruct (RW1.main_start atoi_c ["ReadersAndWriters1"; "1"; "2"]%string
              [0] [0] [0; 0] [0; 0] 100) as [m st | [g |]] eqn:Hmain;
    [vm_compute in Hmain; discriminate Hmain | | vm_compute in Hmain; discriminate Hmain].
  destruct (RW1.run [RW1.ReaderCheck 0; RW1.ReaderEnter 0; RW1.ReaderCheck 1;
                     RW1.ReaderEnter 1; RW1.Tick; RW1.ReaderLeave 0]
              (RW1.boot g 100)) as [s |] eqn:Hrun.
  - exists g, s.
    pose proof (counters_follow_threads atoi_c ["ReadersAndWriters1"; "1"; "2"]%string
                  [0] [0] [0; 0] [0; 0] 100 g
                  [RW1.ReaderCheck 0; RW1.ReaderEnter 0; RW1.ReaderCheck 1;
                   RW1.ReaderEnter 1; RW1.Tick; RW1.ReaderLeave 0] s) as T.
    rewrite A1, A2 in T.
    destruct T as (Hc & Hs & Hb & _);
      [int_bounds; lia | int_bounds; lia | reflexivity | reflexivity | reflexivity
      | reflexivity | exact Hmain | exact Hrun |].
    split; [reflexivity |]. split; [exact Hrun |]. split; [exact Hc |].
    split; [exact Hs | exact Hb].
  - exfalso. vm_compute in Hmain. injection Hmain as <-. vm_compute in Hrun.
    discriminate Hrun.
Defined.



(** ** [r_w_2.c]: who is admitted when the woken thread runs at once *)

Lemma tally_nonneg (f : RW2.presence -> bool) (a : list RW2.presence) : 0 <= tally f a.
Proof. induction a as [| p a IH]; cbn; [lia | destruct (f p); lia]. Qed.

Lemma library_counts (g : RW2.globals) :
  List.length (RW2.in_library g) = RW2.slots g ->
  RW2.get_readers_in_library_count g
  = Some (tally (kind_is RW2.READER_KIND) (RW2.in_library g)) /\
  RW2.get_writers_in_library_count g
  = Some (tally (kind_is RW2.WRITER_KIND) (RW2.in_library g)).
Proof.
  intros Hl. pose proof (slots_bound g) as Hb.
  unfold RW2.get_readers_in_library_count, RW2.get_writers_in_library_count.
  rewrite !count_kind_tally by (assumption || lia). split; reflexivity.
Qed.

Lemma put_first_empty_some (p : RW2.presence) (a a' : list RW2.presence) :
  RW2.put_first_empty p a = Some a' -> Exists empty a.
Proof.
  revert a'. induction a as [| x rest IH]; intros a' H; [discriminate |].
  cbn [RW2.put_first_empty] in H.
  destruct (Z.eqb_spec (RW2.kind x) RW2.NO_KIND) as [Hx | Hx].
  - left. exact Hx.
  - right. destruct (RW2.put_first_empty p rest) as [r |]; [| discriminate].
    now apply (IH r).
Qed.

Lemma put_first_empty_none (p : RW2.presence) (a : list RW2.presence) :
  Forall occupied a -> RW2.put_first_empty p a = None.
Proof.
  induction 1 as [| x rest Hx _ IH]; [reflexivity |].
  cbn [RW2.put_first_empty].
  destruct (Z.eqb_spec (RW2.kind x) RW2.NO_KIND) as [E | _]; [now elim Hx |].
  rewrite IH. reflexivity.
Qed.

Lemma leave_library_loop_shrinks (f : RW2.presence -> bool) (k i : Z) :
  counts_threads f ->
  forall (n : nat) (a a' : list RW2.presence),
    RW2.leave_library_loop n k i a = Some a' ->
    List.length a' = List.length a /\ tally f a' <= tally f a.
Proof.
  intros [Hf _]. induction n as [| n IH]; intros a a' H.
  - injection H as <-. split; [reflexivity | lia].
  - destruct a as [| p rest]; [discriminate |]. cbn [RW2.leave_library_loop] in H.
    destruct ((RW2.kind p =? k) && (RW2.id p =? i)).
    + injection H as <-. split; [reflexivity |]. cbn [tally].
      rewrite (Hf (RW2.set_kind p RW2.NO_KIND) eq_refl). destruct (f p); lia.
    + destruct (RW2.leave_library_loop n k i rest) as [r |] eqn:E; [| discriminate].
      injection H as <-. destruct (IH _ _ E) as [Hl Ht].
      cbn [tally List.length]. split; [congruence | lia].
Qed.

(** What the first block of [read_books] and [write_book] does to the
    library: one more thread of the kind, the size kept. *)
Lemma enter_library (k i past_end now : Z) (g g' : RW2.globals) :
  (g1 <- RW2.leave_queue past_end g ;; RW2.get_to_library k i now g1) = Some g' ->
  RW2.slots g' = RW2.slots g /\
  List.length (RW2.in_library g') = List.length (RW2.in_library g) /\
  List.length (RW2.queue g') = List.length (RW2.queue g) /\
  forall f, counts_threads f ->
    tally f (RW2.in_library g')
    = tally f (RW2.in_library g) + (if f (RW2.mkPresence k i now) then 1 else 0).
Proof.
  unfold RW2.leave_queue, RW2.get_to_library.
  destruct (RW2.leave_queue_from past_end 0 (RW2.queue g)) as [q |] eqn:Eq;
    [| discriminate].
  cbn [option_map obind].
  replace (RW2.in_library (RW2.set_queue g q)) with (RW2.in_library g)
    by (destruct g; reflexivity).
  destruct (RW2.put_first_empty (RW2.mkPresence k i now) (RW2.in_library g))
    as [lib |] eqn:El; [| discriminate].
  cbn [option_map]. intros H. injection H as <-.
  destruct (put_first_empty_tally (RW2.mkPresence k i now) _
              (put_first_empty_some _ _ _ El))
    as (lib' & El' & Hlen & Ht).
  rewrite El in El'. injection El' as <-.
  assert (Hq : List.length q = List.length (RW2.queue g)).
  { destruct (RW2.queue g) as [| x rest] eqn:Eg; [discriminate Eq |].
    exact (proj2 (leave_queue_from_tally (kind_is RW2.READER_KIND) past_end
                    (kind_is_counts_threads _ reader_not_no_kind)
                    (x :: rest) 0%nat x rest q eq_refl Eq)). }
  destruct g; cbn in *. repeat split; assumption.
Qed.

(** And the second block: no kind has more threads in the library than
    before. *)
Lemma depart_library (k i now : Z) (g g' : RW2.globals) :
  (g1 <- RW2.leave_library k i g ;; RW2.get_to_queue k i now g1) = Some g' ->
  RW2.slots g' = RW2.slots g /\
  List.length (RW2.in_library g') = List.length (RW2.in_library g) /\
  List.length (RW2.queue g') = List.length (RW2.queue g) /\
  forall f, counts_threads f ->
    tally f (RW2.in_library g') <= tally f (RW2.in_library g).
Proof.
  unfold RW2.leave_library, RW2.get_to_queue.
  destruct (RW2.leave_library_loop _ k i (RW2.in_library g)) as [lib |] eqn:El;
    [| discriminate].
  cbn [option_map obind].
  replace (RW2.queue (RW2.set_in_library g lib)) with (RW2.queue g)
    by (destruct g; reflexivity).
  destruct (RW2.put_first_empty (RW2.mkPresence k i now) (RW2.queue g))
    as [q |] eqn:Eq; [| discriminate].
  cbn [option_map]. intros H. injection H as <-.
  destruct (put_first_empty_tally (RW2.mkPresence k i now) _
              (put_first_empty_some _ _ _ Eq))
    as (q' & Eq' & Hlen & _).
  rewrite Eq in Eq'. injection Eq' as <-.
  assert (Hl : List.length lib = List.length (RW2.in_library g)).
  { exact (proj1 (leave_library_loop_shrinks (kind_is RW2.READER_KIND) k i
                    (kind_is_counts_threads _ reader_not_no_kind) _ _ _ El)). }
  destruct g; cbn in *. repeat split; try assumption.
  intros f Hf. exact (proj2 (leave_library_loop_shrinks f k i Hf _ _ _ El)).
Qed.

Lemma enter_cases (past_end now : Z) (w : RW2.wake) (g : RW2.globals) :
  exists k i,
    (k = RW2.READER_KIND /\ w = RW2.WakeReader i \/
     k = RW2.WRITER_KIND /\ w = RW2.WakeWriter i) /\
    RW2.enter past_end now w g
    = (g1 <- RW2.leave_queue past_end g ;; RW2.get_to_library k i now g1) /\
    RW2.depart now w g
    = (g1 <- RW2.leave_library k i g ;; RW2.get_to_queue k i now g1).
Proof.
  destruct w as [i | i].
  - exists RW2.READER_KIND, i. split; [left; split; reflexivity |]. split; reflexivity.
  - exists RW2.WRITER_KIND, i. split; [right; split; reflexivity |]. split; reflexivity.
Qed.

Lemma turn_cases (g : RW2.globals) (w : RW2.wake) :
  List.length (RW2.in_library g) = RW2.slots g ->
  RW2.librarian_turn g = Some (Some w) ->
  tally (kind_is RW2.WRITER_KIND) (RW2.in_library g) = 0 /\
  ((exists i, w = RW2.WakeReader i) \/
   tally (kind_is RW2.READER_KIND) (RW2.in_library g) = 0).
Proof.
  intros Hl. destruct (library_counts g Hl) as [Hr Hw].
  unfold RW2.librarian_turn. destruct (load (RW2.queue g) 0) as [head |]; [| discriminate].
  cbn [obind]. rewrite Hr, Hw. cbn [obind].
  destruct (RW2.kind head =? RW2.READER_KIND).
  - destruct (Z.eqb_spec (tally (kind_is RW2.WRITER_KIND) (RW2.in_library g)) 0)
      as [E | E]; [| discriminate].
    intros H. injection H as <-. split; [exact E | left; eauto].
  - destruct (Z.eqb_spec (tally (kind_is RW2.READER_KIND) (RW2.in_library g)) 0)
      as [Er | Er];
      destruct (Z.eqb_spec (tally (kind_is RW2.WRITER_KIND) (RW2.in_library g)) 0)
        as [Ew | Ew];
      destruct (RW2.kind head =? RW2.WRITER_KIND); cbn [andb];
      try discriminate; intros _; split; auto.
Qed.

Lemma turn_then_enter (past_end now : Z) (g g' : RW2.globals) (w : RW2.wake) :
  well_formed g ->
  RW2.librarian_turn g = Some (Some w) ->
  RW2.enter past_end now w g = Some g' ->
  well_formed g' /\ exclusive g'.
Proof.
  intros [Hq Hl] Hturn Henter.
  destruct (turn_cases g w Hl Hturn) as [Hw0 Hcase].
  destruct (enter_cases past_end now w g) as (k & i & Hk & E & _).
  rewrite E in Henter.
  destruct (enter_library k i past_end now g g' Henter) as (Hs & Hl' & Hq' & Ht).
  assert (Hwf : well_formed g') by (split; congruence).
  split; [exact Hwf |].
  destruct (library_counts g' (proj2 Hwf)) as [Cr Cw].
  pose proof (Ht _ (kind_is_counts_threads _ reader_not_no_kind)) as Tr.
  pose proof (Ht _ (kind_is_counts_threads _ writer_not_no_kind)) as Tw.
  pose proof (tally_nonneg (kind_is RW2.READER_KIND) (RW2.in_library g)) as Nr.
  exists (tally (kind_is RW2.READER_KIND) (RW2.in_library g')),
         (tally (kind_is RW2.WRITER_KIND) (RW2.in_library g')).
  split; [exact Cr |]. split; [exact Cw |].
  destruct Hk as [[-> ->] | [-> ->]]; cbn in Tr, Tw.
  - split; lia.
  - destruct Hcase as [[j Hj] | Hr0]; [discriminate Hj |]. split; lia.
Qed.

Lemma depart_keeps_exclusive (now : Z) (g g' : RW2.globals) (w : RW2.wake) :
  well_formed g -> exclusive g ->
  RW2.depart now w g = Some g' ->
  well_formed g' /\ exclusive g'.
Proof.
  intros [Hq Hl] (r & n & Hr & Hn & Hr0 & Hex) Hdep.
  destruct (enter_cases 0 now w g) as (k & i & _ & _ & E).
  rewrite E in Hdep.
  destruct (depart_library k i now g g' Hdep) as (Hs & Hl' & Hq' & Ht).
  assert (Hwf : well_formed g') by (split; congruence).
  split; [exact Hwf |].
  destruct (library_counts g' (proj2 Hwf)) as [Cr Cw].
  destruct (library_counts g Hl) as [Cr0 Cw0].
  rewrite Cr0 in Hr. rewrite Cw0 in Hn. injection Hr as <-. injection Hn as <-.
  pose proof (Ht _ (kind_is_counts_threads _ reader_not_no_kind)) as Tr.
  pose proof (Ht _ (kind_is_counts_threads _ writer_not_no_kind)) as Tw.
  pose proof (tally_nonneg (kind_is RW2.READER_KIND) (RW2.in_library g')) as Nr.
  pose proof (tally_nonneg (kind_is RW2.WRITER_KIND) (RW2.in_library g')) as Nw.
  exists (tally (kind_is RW2.READER_KIND) (RW2.in_library g')),
         (tally (kind_is RW2.WRITER_KIND) (RW2.in_library g')).
  split; [exact Cr |]. split; [exact Cw |]. split; lia.
Qed.

(** X5: in [r_w_2.c], when the thread the librarian wakes runs the first
    block of [read_books] or [write_book] before anything else changes,
    the library then holds readers only, or one writer and nobody else, as
    its two counting functions see it; and a thread that leaves keeps it
    so. (The librarian reads the head of the queue again after its wait,
    so threads run in another order can break this.) *)
Theorem woken_thread_enters_exclusively (past_end now : Z) (g : RW2.globals) :
  well_formed g ->
  (forall w g',
     RW2.librarian_turn g = Some (Some w) ->
     RW2.enter past_end now w g = Some g' ->
     well_formed g' /\ exclusive g') /\
  (forall w g',
     exclusive g -> RW2.depart now w g = Some g' ->
     well_formed g' /\ exclusive g').
Proof.
  intros Hwf. split.
  - intros w g' Hturn Henter. exact (turn_then_enter past_end now g g' w Hwf Hturn Henter).
  - intros w g' Hex Hdep. exact (depart_keeps_exclusive now g g' w Hwf Hex Hdep).
Qed.

Lemma woken_thread_enters_exclusively_witness :
  well_formed
    (RW2.mkGlobals 0 1 1
       [RW2.mkPresence 2 0 100; RW2.mkPresence 1 0 101]
       [RW2.mkPresence 0 0 0; RW2.mkPresence 0 0 0] 0 5 5 15) /\
  exclusive
    (RW2.mkGlobals 0 1 1
       [RW2.mkPresence 1 0 101; RW2.mkPresence 0 0 101]
       [RW2.mkPresence 2 0 105; RW2.mkPresence 0 0 0] 0 5 5 15).
Proof.
  assert (Hwf : well_formed
                  (RW2.mkGlobals 0 1 1
                     [RW2.mkPresence 2 0 100; RW2.mkPresence 1 0 101]
                     [RW2.mkPresence 0 0 0; RW2.mkPresence 0 0 0] 0 5 5 15))
    by (split; reflexivity).
  split; [exact Hwf |].
  apply (proj1 (woken_thread_enters_exclusively 0 105 _ Hwf) (RW2.WakeWriter 0));
    reflexivity.
Defined.

Lemma serve_readers (past_end now : Z) (n : nat) :
  forall g ws g',
    well_formed g ->
    1 <= tally (kind_is RW2.READER_KIND) (RW2.in_library g) ->
    RW2.serve n past_end now g = Some (ws, g') ->
    Forall is_reader ws.
Proof.
  induction n as [| n IH]; intros g ws g' Hwf Hr H.
  - injection H as <- <-. constructor.
  - cbn [RW2.serve] in H.
    destruct (RW2.librarian_turn g) as [[w |] |] eqn:Hturn; cbn [obind] in H;
      [| injection H as <- <-; constructor | discriminate].
    destruct (RW2.enter past_end now w g) as [g1 |] eqn:Henter; [| discriminate].
    cbn [obind] in H.
    destruct (RW2.serve n past_end now g1) as [[ws1 g2] |] eqn:Hserve; [| discriminate].
    cbn [obind fst snd] in H. injection H as <- <-.
    destruct (turn_cases g w (proj2 Hwf) Hturn) as [_ [[i ->] | Hr0]]; [| lia].
    destruct (enter_cases past_end now (RW2.WakeReader i) g) as (k & j & _ & E & _).
    rewrite E in Henter.
    destruct (enter_library k j past_end now g g1 Henter) as (Hs & Hl' & Hq' & Ht).
    pose proof (Ht _ (kind_is_counts_threads _ reader_not_no_kind)) as Tr.
    constructor; [exact I |].
    apply (IH g1 ws1 g2); [destruct Hwf; split; congruence | | exact Hserve].
    destruct (kind_is RW2.READER_KIND (RW2.mkPresence k j now)); lia.
Qed.

Lemma serve_after_writer (past_end now : Z) (n : nat) (g g' : RW2.globals)
  (ws : list RW2.wake) :
  well_formed g ->
  tally (kind_is RW2.WRITER_KIND) (RW2.in_library g) = 1 ->
  RW2.serve n past_end now g = Some (ws, g') ->
  ws = [] /\ g' = g.
Proof.
  intros Hwf Hw H. destruct n as [| n]; [injection H as <- <-; auto |].
  cbn [RW2.serve] in H.
  destruct (RW2.librarian_turn g) as [[w |] |] eqn:Hturn; cbn [obind] in H;
    [| injection H as <- <-; auto | discriminate].
  destruct (turn_cases g w (proj2 Hwf) Hturn) as [Hw0 _]. lia.
Qed.

Lemma serve_keeps_exclusive (past_end now : Z) (n : nat) :
  forall g ws g',
    well_formed g -> exclusive g ->
    RW2.serve n past_end now g = Some (ws, g') ->
    well_formed g' /\ exclusive g'.
Proof.
  induction n as [| n IH]; intros g ws g' Hwf Hex H.
  - injection H as <- <-. auto.
  - cbn [RW2.serve] in H.
    destruct (RW2.librarian_turn g) as [[w |] |] eqn:Hturn; cbn [obind] in H;
      [| injection H as <- <-; auto | discriminate].
    destruct (RW2.enter past_end now w g) as [g1 |] eqn:Henter; [| discriminate].
    cbn [obind] in H.
    destruct (RW2.serve n past_end now g1) as [[ws1 g2] |] eqn:Hserve; [| discriminate].
    cbn [obind fst snd] in H. injection H as <- <-.
    destruct (turn_then_enter past_end now g g1 w Hwf Hturn Henter) as [Hwf1 Hex1].
    exact (IH g1 ws1 g2 Hwf1 Hex1 Hserve).
Qed.

(** X6: in [r_w_2.c], a round in which the librarian wakes the head of the
    queue again and again, each woken thread entering at once, admits
    readers only, or exactly one writer; and a library that held readers
    only, or one writer and nobody else, is so again after the round. *)
Theorem serve_admits_readers_or_one_writer (past_end now : Z) (n : nat)
  (g g' : RW2.globals) (ws : list RW2.wake) :
  well_formed g -> exclusive g ->
  RW2.serve n past_end now g = Some (ws, g') ->
  readers_or_one_writer ws /\ well_formed g' /\ exclusive g'.
Proof.
  intros Hwf Hex H. split; [| exact (serve_keeps_exclusive past_end now n g ws g' Hwf Hex H)].
  destruct n as [| n]; [injection H as <- <-; left; constructor |].
  cbn [RW2.serve] in H.
  destruct (RW2.librarian_turn g) as [[w |] |] eqn:Hturn; cbn [obind] in H;
    [| injection H as <- <-; left; constructor | discriminate].
  destruct (RW2.enter past_end now w g) as [g1 |] eqn:Henter; [| discriminate].
  cbn [obind] in H.
  destruct (RW2.serve n past_end now g1) as [[ws1 g2] |] eqn:Hserve; [| discriminate].
  cbn [obind fst snd] in H. injection H as <- <-.
  destruct (turn_cases g w (proj2 Hwf) Hturn) as [Hw0 _].
  destruct (enter_cases past_end now w g) as (k & i & Hk & E & _).
  rewrite E in Henter.
  destruct (enter_library k i past_end now g g1 Henter) as (Hs & Hl' & Hq' & Ht).
  assert (Hwf1 : well_formed g1) by (destruct Hwf; split; congruence).
  pose proof (Ht _ (kind_is_counts_threads _ reader_not_no_kind)) as Tr.
  pose proof (Ht _ (kind_is_counts_threads _ writer_not_no_kind)) as Tw.
  pose proof (tally_nonneg (kind_is RW2.READER_KIND) (RW2.in_library g)) as Nr.
  destruct Hk as [[-> ->] | [-> ->]]; cbn in Tr, Tw.
  - left. constructor; [exact I |].
    apply (serve_readers past_end now n g1 ws1 g2 Hwf1); [lia | exact Hserve].
  - right. exists i.
    destruct (serve_after_writer past_end now n g1 g2 ws1 Hwf1) as [-> _];
      [lia | exact Hserve | reflexivity].
Qed.

Lemma serve_admits_readers_or_one_writer_witness :
  readers_or_one_writer [RW2.WakeReader 0; RW2.WakeReader 1].
Proof.
  refine (proj1 (serve_admits_readers_or_one_writer 0 105 3
                   (RW2.mkGlobals 0 2 1
                      [RW2.mkPresence 1 0 100; RW2.mkPresence 1 1 101;
                       RW2.mkPresence 2 0 102]
                      [RW2.mkPresence 0 0 0; RW2.mkPresence 0 0 0; RW2.mkPresence 0 0 0]
                      0 5 5 15)
                   (RW2.mkGlobals 0 2 1
                      [RW2.mkPresence 2 0 102; RW2.mkPresence 0 0 102;
                       RW2.mkPresence 0 0 102]
                      [RW2.mkPresence 1 0 105; RW2.mkPresence 1 1 105;
                       RW2.mkPresence 0 0 0]
                      0 5 5 15)
                   [RW2.WakeReader 0; RW2.WakeReader 1] _ _ _)).
  - split; reflexivity.
  - exists 0, 0. repeat split; (reflexivity || lia || (left; reflexivity)).
  - reflexivity.
Defined.

(** ** [r_w_2.c]: the queue is first in, first out up to 21 threads *)

Lemma last_cons_default {A : Type} (x d : A) (l : list A) :
  last (x :: l) d = last l x.
Proof.
  revert x d. induction l as [| y l IH]; intros x d; [reflexivity |].
  change (last (x :: y :: l) d) with (last (y :: l) d).
  rewrite (IH y d), (IH y x). reflexivity.
Qed.

Lemma leave_queue_from_compact (past_end : Z) :
  forall (pre : list RW2.presence) (i : nat) (x : RW2.presence)
         (tail : list RW2.presence),
    Forall occupied pre -> (i + List.length pre <= 20)%nat ->
    compact_tail past_end tail ->
    RW2.leave_queue_from past_end i (x :: pre ++ tail)
    = Some (pre ++ RW2.set_kind (last pre x) RW2.NO_KIND :: tail).
Proof.
  induction pre as [| y pre IH]; intros i x tail Hocc Hlen Htail.
  - cbn [app last]. destruct tail as [| e rest].
    + rewrite leave_queue_from_last. cbn in Htail. rewrite Htail. reflexivity.
    + rewrite leave_queue_from_step. cbn in Htail. unfold empty in Htail.
      rewrite Htail. reflexivity.
  - cbn [app]. rewrite leave_queue_from_step.
    inversion Hocc as [| ? ? Hy Hpre]; subst.
    destruct (Z.eqb_spec (RW2.kind y) RW2.NO_KIND) as [E | _]; [now elim Hy |].
    cbn [List.length] in Hlen.
    destruct (Nat.ltb_spec i 20) as [_ | Hi]; [| lia].
    cbn [negb andb]. rewrite IH by (assumption || lia).
    rewrite last_cons_default. reflexivity.
Qed.

(** X7: [leave_queue] of [r_w_2.c], on a queue of at most 21 threads
    standing in the first slots and followed by an empty slot (or by the
    end of the block, with [NO_KIND] in the next word), takes the head out
    and moves every other thread one slot forward in the same order; the
    slot of the last thread keeps its [id] and timestamp with kind
    [NO_KIND], and nothing else changes. *)
Theorem leave_queue_shifts_line (past_end : Z) (g : RW2.globals)
  (x : RW2.presence) (line tail : list RW2.presence) :
  RW2.queue g = x :: line ++ tail ->
  Forall occupied line -> (List.length line <= 20)%nat ->
  compact_tail past_end tail ->
  RW2.leave_queue past_end g
  = Some (RW2.set_queue g (line ++ RW2.set_kind (last line x) RW2.NO_KIND :: tail)).
Proof.
  intros Hq Hocc Hlen Htail. unfold RW2.leave_queue. rewrite Hq.
  rewrite (leave_queue_from_compact past_end line 0 x tail Hocc) by (assumption || lia).
  reflexivity.
Qed.

Lemma leave_queue_shifts_line_witness :
  RW2.leave_queue 7
    (RW2.mkGlobals 0 2 1
       [RW2.mkPresence 1 0 100; RW2.mkPresence 2 0 101; RW2.mkPresence 1 1 102;
        RW2.mkPresence 0 5 50]
       [] 0 5 5 15)
  = Some (RW2.mkGlobals 0 2 1
            [RW2.mkPresence 2 0 101; RW2.mkPresence 1 1 102; RW2.mkPresence 0 1 102;
             RW2.mkPresence 0 5 50]
            [] 0 5 5 15).
Proof.
  apply (leave_queue_shifts_line 7
           (RW2.mkGlobals 0 2 1
              [RW2.mkPresence 1 0 100; RW2.mkPresence 2 0 101; RW2.mkPresence 1 1 102;
               RW2.mkPresence 0 5 50]
              [] 0 5 5 15)
           (RW2.mkPresence 1 0 100)
           [RW2.mkPresence 2 0 101; RW2.mkPresence 1 1 102]
           [RW2.mkPresence 0 5 50]).
  - reflexivity.
  - repeat constructor; discriminate.
  - simpl. lia.
  - reflexivity.
Defined.

(** X8: [get_to_queue] and [get_to_library] of [r_w_2.c] write the thread,
    with the timestamp, into the first slot whose kind is [NO_KIND] and
    change nothing else; when every slot of the array is taken the scan
    for an empty slot leaves the block. *)
Theorem get_to_first_empty_slot (k i now : Z) (g : RW2.globals) :
  (forall pre e rest,
     RW2.queue g = pre ++ e :: rest -> Forall occupied pre -> empty e ->
     RW2.get_to_queue k i now g
     = Some (RW2.set_queue g (pre ++ RW2.mkPresence k i now :: rest))) /\
  (forall pre e rest,
     RW2.in_library g = pre ++ e :: rest -> Forall occupied pre -> empty e ->
     RW2.get_to_library k i now g
     = Some (RW2.set_in_library g (pre ++ RW2.mkPresence k i now :: rest))) /\
  (Forall occupied (RW2.queue g) -> RW2.get_to_queue k i now g = None) /\
  (Forall occupied (RW2.in_library g) -> RW2.get_to_library k i now g = None).
Proof.
  unfold RW2.get_to_queue, RW2.get_to_library. repeat split.
  - intros pre e rest -> Hpre He. rewrite (put_first_empty_at _ e pre rest Hpre He).
    reflexivity.
  - intros pre e rest -> Hpre He. rewrite (put_first_empty_at _ e pre rest Hpre He).
    reflexivity.
  - intros H. rewrite (put_first_empty_none _ _ H). reflexivity.
  - intros H. rewrite (put_first_empty_none _ _ H). reflexivity.
Qed.

(** ** [r_w_2.c]: the library array says who is inside *)

Lemma thread_at_eqb_eq (a b : RW2.thread_at) : RW2.thread_at_eqb a b = true <-> a = b.
Proof. destruct a, b; cbn; split; intros H; try reflexivity; discriminate H. Qed.

Lemma move_inside (l l' : list RW2.thread_at) (i : Z) (from to : RW2.thread_at) :
  move RW2.thread_at_eqb l i from to = Some l' ->
  List.length l' = List.length l /\
  inside l i = is_inside from /\
  forall j, inside l' j
            = inside l j + (if j =? i then is_inside to - is_inside from else 0).
Proof.
  intros H. unfold move in H.
  destruct (load l i) as [a |] eqn:Ha; [| discriminate].
  destruct (RW2.thread_at_eqb a from) eqn:Hfrom; [| discriminate].
  apply thread_at_eqb_eq in Hfrom. subst a.
  destruct (store_some _ _ _ _ H) as (pre & y & rest & -> & -> & Hi & Hy).
  rewrite Ha in Hy. injection Hy as <-.
  split; [rewrite !length_app; reflexivity |].
  split; [unfold inside; rewrite Ha; reflexivity |].
  intros j. unfold inside. destruct (Z.eqb_spec j i) as [-> | Hj].
  - rewrite <- Hi, !load_middle. lia.
  - rewrite (load_other pre rest from to j) by lia. lia.
Qed.

Lemma move_thread_inside (t : RW2.wake) (from to : RW2.thread_at) (s s1 : RW2.system) :
  RW2.move_thread t from to s = Some s1 ->
  RW2.mem s1 = RW2.mem s /\
  thread_inside s (kind_of t) (id_of t) = is_inside from /\
  forall k j,
    thread_inside s1 k j
    = thread_inside s k j
      + (if (k =? kind_of t) && (j =? id_of t) then is_inside to - is_inside from else 0).
Proof.
  destruct t as [i | i]; cbn [RW2.move_thread kind_of id_of].
  - destruct (move RW2.thread_at_eqb (RW2.readers s) i from to) as [l' |] eqn:E;
      [| discriminate].
    cbn [option_map]. intros H. injection H as <-.
    destruct (move_inside _ _ _ _ _ E) as (_ & Hat & Hall).
    split; [reflexivity |]. split; [exact Hat |].
    intros k j. unfold thread_inside. cbn [RW2.with_readers RW2.readers RW2.writers].
    destruct (Z.eqb_spec k RW2.READER_KIND) as [-> | Hk].
    + rewrite Hall. reflexivity.
    + cbn [andb]. lia.
  - destruct (move RW2.thread_at_eqb (RW2.writers s) i from to) as [l' |] eqn:E;
      [| discriminate].
    cbn [option_map]. intros H. injection H as <-.
    destruct (move_inside _ _ _ _ _ E) as (_ & Hat & Hall).
    split; [reflexivity |]. split; [exact Hat |].
    intros k j. unfold thread_inside. cbn [RW2.with_writers RW2.readers RW2.writers].
    destruct (Z.eqb_spec k RW2.READER_KIND) as [-> | Hk]; [cbn; lia |].
    destruct (Z.eqb_spec k RW2.WRITER_KIND) as [-> | Hk'].
    + rewrite Hall. reflexivity.
    + cbn [andb]. lia.
Qed.

Lemma tally_positive (f : RW2.presence -> bool) (a : list RW2.presence) :
  0 < tally f a -> Exists (fun p => f p = true) a.
Proof.
  induction a as [| p a IH]; cbn [tally]; [lia |].
  destruct (f p) eqn:Hp; [left; exact Hp | intros H; right; apply IH; lia].
Qed.

Lemma kind_of_not_no_kind (t : RW2.wake) : kind_of t <> RW2.NO_KIND.
Proof. destruct t; discriminate. Qed.

Lemma kind_of_cases (t : RW2.wake) :
  kind_of t = RW2.READER_KIND \/ kind_of t = RW2.WRITER_KIND.
Proof. destruct t; [left | right]; reflexivity. Qed.

Lemma enter_as_moves (past_end now : Z) (t : RW2.wake) (g : RW2.globals) :
  RW2.enter past_end now t g
  = (g1 <- RW2.leave_queue past_end g ;;
     RW2.get_to_library (kind_of t) (id_of t) now g1) /\
  RW2.depart now t g
  = (g1 <- RW2.leave_library (kind_of t) (id_of t) g ;;
     RW2.get_to_queue (kind_of t) (id_of t) now g1).
Proof. destruct t; split; reflexivity. Qed.

(** The second block of [read_books] and [write_book], for a thread that
    has a slot in the library: exactly one slot of it is cleared. *)
Lemma depart_library_exact (k i now : Z) (g g' : RW2.globals) :
  k <> RW2.NO_KIND ->
  List.length (RW2.in_library g) = RW2.slots g ->
  0 < tally (holds k i) (RW2.in_library g) ->
  (g1 <- RW2.leave_library k i g ;; RW2.get_to_queue k i now g1) = Some g' ->
  forall f, counts_threads f ->
    tally f (RW2.in_library g')
    = tally f (RW2.in_library g) - (if f (RW2.mkPresence k i now) then 1 else 0).
Proof.
  intros Hk Hl Hpos H f Hf.
  destruct (leave_library_loop_tally k i (RW2.in_library g) Hk (tally_positive _ _ Hpos))
    as (lib & Hlib & _ & Ht).
  unfold RW2.leave_library, RW2.get_to_queue in H.
  replace (Z.to_nat (wrap_int (RW2.readers_count g + RW2.writers_count g)))
    with (List.length (RW2.in_library g)) in H
    by (rewrite Hl; unfold RW2.slots; rewrite Z.add_comm; reflexivity).
  rewrite Hlib in H. cbn [option_map obind] in H.
  destruct (RW2.put_first_empty _ _) as [q |] in H; [| discriminate].
  cbn [option_map] in H. injection H as <-.
  replace (RW2.in_library (RW2.set_queue (RW2.set_in_library g lib) q)) with lib
    by (destruct g; reflexivity).
  exact (Ht f now Hf).
Qed.

Lemma holds_presence (k j k' i now : Z) :
  holds k j (RW2.mkPresence k' i now) = (k =? k') && (j =? i).
Proof. unfold holds. cbn. rewrite (Z.eqb_sym k' k), (Z.eqb_sym i j). reflexivity. Qed.

Lemma step_keeps_library_tracks (past_end : Z) (a : RW2.action) (s s1 : RW2.system) :
  library_tracks s -> RW2.step past_end a s = Some s1 -> library_tracks s1.
Proof.
  intros [Hl Ht] Hstep. destruct a as [| t | t | t | | |]; cbn [RW2.step] in Hstep.
  - injection Hstep as <-. split; assumption.
  - destruct (move_thread_inside t _ _ s s1 Hstep) as (Hm & _ & Hall).
    split; [rewrite Hm; exact Hl |].
    intros k j Hk. rewrite Hm, Hall, (Ht k j Hk). cbn. destruct (_ && _); lia.
  - destruct (RW2.move_thread t RW2.TWoken RW2.TInside s) as [s2 |] eqn:Hmove;
      [| discriminate].
    cbn [obind] in Hstep.
    destruct (RW2.enter past_end (RW2.time_now s) t (RW2.mem s)) as [g |] eqn:Henter;
      [| discriminate].
    cbn [obind] in Hstep. injection Hstep as <-.
    destruct (move_thread_inside t _ _ s s2 Hmove) as (Hm & _ & Hall).
    rewrite (proj1 (enter_as_moves _ _ _ _)) in Henter.
    destruct (enter_library _ _ _ _ _ _ Henter) as (Hs & Hlen & _ & Hin).
    split; [cbn; congruence |].
    intros k j Hk.
    assert (Hf : counts_threads (holds k j))
      by (apply holds_counts_threads; destruct Hk as [-> | ->]; discriminate).
    change (RW2.mem (RW2.with_mem s2 g)) with g.
    replace (thread_inside (RW2.with_mem s2 g) k j) with (thread_inside s2 k j)
      by reflexivity.
    rewrite (Hin _ Hf), Hall, (Ht k j Hk), holds_presence. cbn.
    destruct (_ && _); lia.
  - destruct (RW2.move_thread t RW2.TInside RW2.TTop s) as [s2 |] eqn:Hmove;
      [| discriminate].
    cbn [obind] in Hstep.
    destruct (RW2.depart (RW2.time_now s) t (RW2.mem s)) as [g |] eqn:Hdep;
      [| discriminate].
    cbn [obind] in Hstep. injection Hstep as <-.
    destruct (move_thread_inside t _ _ s s2 Hmove) as (Hm & Hat & Hall).
    rewrite (proj2 (enter_as_moves 0 _ _ _)) in Hdep.
    destruct (depart_library _ _ _ _ _ Hdep) as (Hs & Hlen & _ & _).
    assert (Hpos : 0 < tally (holds (kind_of t) (id_of t)) (RW2.in_library (RW2.mem s))).
    { rewrite (Ht _ _ (kind_of_cases t)), Hat. cbn. lia. }
    pose proof (depart_library_exact _ _ _ _ _ (kind_of_not_no_kind t) Hl Hpos Hdep)
      as Hout.
    split; [cbn; congruence |].
    intros k j Hk.
    assert (Hf : counts_threads (holds k j))
      by (apply holds_counts_threads; destruct Hk as [-> | ->]; discriminate).
    change (RW2.mem (RW2.with_mem s2 g)) with g.
    replace (thread_inside (RW2.with_mem s2 g) k j) with (thread_inside s2 k j)
      by reflexivity.
    rewrite (Hout _ Hf), Hall, (Ht k j Hk), holds_presence. cbn.
    destruct (_ && _); lia.
  - destruct (RW2.librarian s); try discriminate.
    destruct (load _ 0) as [head |]; [| discriminate].
    injection Hstep as <-. split; assumption.
  - destruct (RW2.librarian s); try discriminate.
    destruct (RW2.librarian_may_go _ _) as [[|] |]; try discriminate;
      injection Hstep as <-; split; assumption.
  - destruct (RW2.librarian s) as [| c | c]; try discriminate.
    destruct (load _ 0) as [head |]; [| discriminate].
    cbn [obind] in Hstep. injection Hstep as <-.
    unfold RW2.broadcast.
    destruct (RW2.move_thread _ RW2.TCondWait RW2.TWoken s) as [s2 |] eqn:Hmove;
      [| split; assumption].
    destruct (move_thread_inside _ _ _ s s2 Hmove) as (Hm & _ & Hall).
    split; [cbn; rewrite Hm; exact Hl |].
    intros k j Hk.
    change (RW2.mem (RW2.with_librarian s2 RW2.LTop)) with (RW2.mem s2).
    replace (thread_inside (RW2.with_librarian s2 RW2.LTop) k j)
      with (thread_inside s2 k j) by reflexivity.
    rewrite Hm, Hall, (Ht k j Hk). cbn. destruct (_ && _); lia.
Qed.

Lemma move_thread_lengths (t : RW2.wake) (from to : RW2.thread_at) (s s1 : RW2.system) :
  RW2.move_thread t from to s = Some s1 ->
  List.length (RW2.readers s1) = List.length (RW2.readers s) /\
  List.length (RW2.writers s1) = List.length (RW2.writers s).
Proof.
  destruct t as [i | i]; cbn [RW2.move_thread].
  - destruct (move RW2.thread_at_eqb (RW2.readers s) i from to) as [l' |] eqn:E;
      [| discriminate].
    cbn [option_map]. intros H. injection H as <-.
    split; [exact (proj1 (move_inside _ _ _ _ _ E)) | reflexivity].
  - destruct (move RW2.thread_at_eqb (RW2.writers s) i from to) as [l' |] eqn:E;
      [| discriminate].
    cbn [option_map]. intros H. injection H as <-.
    split; [reflexivity | exact (proj1 (move_inside _ _ _ _ _ E))].
Qed.

Lemma step_keeps_thread_lists (past_end : Z) (a : RW2.action) (s s1 : RW2.system) :
  RW2.step past_end a s = Some s1 ->
  List.length (RW2.readers s1) = List.length (RW2.readers s) /\
  List.length (RW2.writers s1) = List.length (RW2.writers s).
Proof.
  intros Hstep. destruct a as [| t | t | t | | |]; cbn [RW2.step] in Hstep.
  - injection Hstep as <-. split; reflexivity.
  - exact (move_thread_lengths _ _ _ _ _ Hstep).
  - destruct (RW2.move_thread t RW2.TWoken RW2.TInside s) as [s2 |] eqn:Hmove;
      [| discriminate].
    cbn [obind] in Hstep.
    destruct (RW2.enter _ _ _ _) as [g |]; [| discriminate].
    injection Hstep as <-. exact (move_thread_lengths _ _ _ _ _ Hmove).
  - destruct (RW2.move_thread t RW2.TInside RW2.TTop s) as [s2 |] eqn:Hmove;
      [| discriminate].
    cbn [obind] in Hstep.
    destruct (RW2.depart _ _ _) as [g |]; [| discriminate].
    injection Hstep as <-. exact (move_thread_lengths _ _ _ _ _ Hmove).
  - destruct (RW2.librarian s); try discriminate.
    destruct (load _ 0) as [head |]; [| discriminate].
    injection Hstep as <-. split; reflexivity.
  - destruct (RW2.librarian s); try discriminate.
    destruct (RW2.librarian_may_go _ _) as [[|] |]; try discriminate;
      injection Hstep as <-; split; reflexivity.
  - destruct (RW2.librarian s) as [| c | c]; try discriminate.
    destruct (load _ 0) as [head |]; [| discriminate].
    cbn [obind] in Hstep. injection Hstep as <-.
    unfold RW2.broadcast.
    destruct (RW2.move_thread _ RW2.TCondWait RW2.TWoken s) as [s2 |] eqn:Hmove;
      [| split; reflexivity].
    exact (move_thread_lengths _ _ _ _ _ Hmove).
Qed.

Lemma run_keeps_library_tracks (past_end : Z) (acts : list RW2.action) :
  forall s s', library_tracks s -> RW2.run past_end acts s = Some s' ->
               library_tracks s' /\
               List.length (RW2.readers s') = List.length (RW2.readers s) /\
               List.length (RW2.writers s') = List.length (RW2.writers s).
Proof.
  induction acts as [| a acts IH]; intros s s' Hinv Hrun.
  - injection Hrun as <-. auto.
  - cbn [RW2.run] in Hrun.
    destruct (RW2.step past_end a s) as [s1 |] eqn:Hstep; [| discriminate].
    cbn [obind] in Hrun.
    destruct (IH s1 s' (step_keeps_library_tracks past_end a s s1 Hinv Hstep) Hrun)
      as (Hinv' & Hr & Hw).
    destruct (step_keeps_thread_lists past_end a s s1 Hstep) as [Hr1 Hw1].
    split; [exact Hinv' | split; congruence].
Qed.

Lemma tally_same (f h : RW2.presence -> bool) (a : list RW2.presence) :
  (forall p, In p a -> f p = h p) -> tally f a = tally h a.
Proof.
  induction a as [| p a IH]; intros H; [reflexivity |]. cbn [tally].
  rewrite (H p (or_introl eq_refl)), IH; [reflexivity |].
  intros q Hq. apply H. right. exact Hq.
Qed.

Lemma tally_member (f : RW2.presence -> bool) (a : list RW2.presence) (p : RW2.presence) :
  In p a -> f p = true -> 0 < tally f a.
Proof.
  induction a as [| q a IH]; intros Hin Hp; [contradiction |].
  cbn [tally]. pose proof (tally_nonneg f a) as Hn.
  destruct Hin as [-> | Hin]; [rewrite Hp; lia |].
  specialize (IH Hin Hp). destruct (f q); lia.
Qed.

Lemma tally_next_id (k : Z) (m : nat) (a : list RW2.presence) :
  tally (below k (S m)) a = tally (below k m) a + tally (holds k (Z.of_nat m)) a.
Proof.
  induction a as [| p a IH]; [reflexivity |]. cbn [tally]. rewrite IH.
  unfold below, holds, kind_is.
  destruct (RW2.kind p =? k); cbn [andb]; [| lia].
  destruct (Z.leb_spec 0 (RW2.id p)), (Z.ltb_spec (RW2.id p) (Z.of_nat (S m))),
    (Z.ltb_spec (RW2.id p) (Z.of_nat m)), (Z.eqb_spec (RW2.id p) (Z.of_nat m));
    cbn [andb]; lia.
Qed.

Lemma headcount_next (l : list RW2.thread_at) (m : nat) :
  headcount (firstn (S m) l) = headcount (firstn m l) + inside l (Z.of_nat m).
Proof.
  unfold headcount, inside, load.
  destruct (Z.ltb_spec (Z.of_nat m) 0) as [Hneg | _]; [lia |]. rewrite Nat2Z.id.
  revert m. induction l as [| a l IH]; intros m.
  - rewrite !firstn_nil. destruct m; reflexivity.
  - destruct m as [| m].
    + cbn. unfold is_inside. destruct (RW2.thread_at_eqb a RW2.TInside); lia.
    + change (firstn (S (S m)) (a :: l)) with (a :: firstn (S m) l).
      change (firstn (S m) (a :: l)) with (a :: firstn m l).
      cbn [standing nth_error]. rewrite (IH m). lia.
Qed.

Lemma tally_below_headcount (k : Z) (a : list RW2.presence) (l : list RW2.thread_at) :
  (forall j, tally (holds k j) a = inside l j) ->
  forall m, tally (below k m) a = headcount (firstn m l).
Proof.
  intros H. induction m as [| m IH].
  - cbn [firstn]. unfold headcount. cbn [standing].
    transitivity (tally (fun _ => false) a).
    + apply tally_same. intros p _. unfold below.
      destruct (Z.ltb_spec (RW2.id p) (Z.of_nat 0)), (Z.leb_spec 0 (RW2.id p));
        rewrite ?andb_false_r; try reflexivity; lia.
    + clear. induction a as [| p a IH]; [reflexivity | exact IH].
  - rewrite tally_next_id, headcount_next, IH, H. reflexivity.
Qed.

Lemma tally_kind_headcount (k : Z) (a : list RW2.presence) (l : list RW2.thread_at) :
  (forall j, tally (holds k j) a = inside l j) ->
  tally (kind_is k) a = headcount l.
Proof.
  intros H. rewrite <- (firstn_all l), <- (tally_below_headcount k a l H).
  apply tally_same. intros p Hin. unfold below.
  destruct (kind_is k p) eqn:Hk; [| reflexivity]. cbn [andb].
  assert (Hpos : 0 < tally (holds k (RW2.id p)) a).
  { apply (tally_member _ a p Hin). unfold holds. unfold kind_is in Hk.
    rewrite Hk, Z.eqb_refl. reflexivity. }
  rewrite H in Hpos. unfold inside, load in Hpos.
  destruct (Z.ltb_spec (RW2.id p) 0) as [Hneg | Hnn]; [lia |].
  destruct (nth_error l (Z.to_nat (RW2.id p))) as [x |] eqn:Hx; [| lia].
  assert (Hlt : (Z.to_nat (RW2.id p) < List.length l)%nat)
    by (apply nth_error_Some; congruence).
  destruct (Z.leb_spec 0 (RW2.id p)); [| lia].
  destruct (Z.ltb_spec (RW2.id p) (Z.of_nat (List.length l))); [reflexivity | lia].
Qed.

Lemma inside_repeat_top (n : nat) (j : Z) : inside (repeat RW2.TTop n) j = 0.
Proof.
  unfold inside, load. destruct (j <? 0); [reflexivity |].
  destruct (nth_error (repeat RW2.TTop n) (Z.to_nat j)) as [a |] eqn:E; [| reflexivity].
  apply nth_error_In, repeat_spec in E. subst a. reflexivity.
Qed.

Lemma tally_empty (f : RW2.presence -> bool) (a : list RW2.presence) :
  counts_threads f -> Forall empty a -> tally f a = 0.
Proof.
  intros [Hf _]. induction 1 as [| p a Hp _ IH]; [reflexivity |].
  cbn [tally]. rewrite (Hf p Hp), IH. reflexivity.
Qed.

(** X10: in [r_w_2.c], from the start with an empty library of the
    allocated size, after any interleaving of steps of the threads the
    library array says who is inside: every reader and writer has one slot
    there while it is between the two blocks of [read_books] or
    [write_book], and none otherwise; so the two counting functions of the
    library return the numbers of readers and of writers that are inside.
    This holds although the queue can lose a thread. *)
Theorem library_says_who_is_inside (past_end now : Z) (g : RW2.globals)
  (acts : list RW2.action) (s : RW2.system) :
  List.length (RW2.in_library g) = RW2.slots g ->
  Forall empty (RW2.in_library g) ->
  RW2.run past_end acts (RW2.boot g now) = Some s ->
  library_tracks s /\
  RW2.get_readers_in_library_count (RW2.mem s) = Some (headcount (RW2.readers s)) /\
  RW2.get_writers_in_library_count (RW2.mem s) = Some (headcount (RW2.writers s)).
Proof.
  intros Hl Hempty Hrun.
  assert (Hboot : library_tracks (RW2.boot g now)).
  { split; [exact Hl |]. intros k j Hk. cbn [RW2.boot RW2.mem].
    rewrite (tally_empty (holds k j) _
               (holds_counts_threads k j ltac:(destruct Hk as [-> | ->]; discriminate))
               Hempty).
    unfold thread_inside. cbn [RW2.boot RW2.readers RW2.writers].
    rewrite !inside_repeat_top. destruct (k =? RW2.READER_KIND), (k =? RW2.WRITER_KIND);
      reflexivity. }
  destruct (run_keeps_library_tracks past_end acts _ _ Hboot Hrun) as ([Hl' Ht] & _).
  split; [split; assumption |].
  destruct (library_counts (RW2.mem s) Hl') as [Cr Cw].
  rewrite Cr, Cw. split; f_equal; apply tally_kind_headcount; intros j.
  - exact (Ht RW2.READER_KIND j (or_introl eq_refl)).
  - exact (Ht RW2.WRITER_KIND j (or_intror eq_refl)).
Qed.

Lemma library_says_who_is_inside_witness :
  exists s,
    RW2.run 0
      [RW2.ThreadWait (RW2.WakeWriter 0); RW2.ThreadWait (RW2.WakeWriter 1);
       RW2.LibrarianSwitch; RW2.LibrarianCheck; RW2.LibrarianBroadcast; RW2.Tick;
       RW2.LibrarianSwitch; RW2.LibrarianCheck;
       RW2.ThreadEnter (RW2.WakeWriter 0);
       RW2.LibrarianBroadcast;
       RW2.ThreadEnter (RW2.WakeWriter 1)]
      (RW2.boot
         (RW2.mkGlobals 0 0 2
            [RW2.mkPresence 2 0 100; RW2.mkPresence 2 1 100]
            [RW2.mkPresence 0 0 0; RW2.mkPresence 0 0 0] 0 5 5 15) 100) = Some s /\
    RW2.get_writers_in_library_count (RW2.mem s) = Some (headcount (RW2.writers s)) /\
    headcount (RW2.writers s) = 2.
Proof.
  destruct (RW2.run 0
              [RW2.ThreadWait (RW2.WakeWriter 0); RW2.ThreadWait (RW2.WakeWriter 1);
               RW2.LibrarianSwitch; RW2.LibrarianCheck; RW2.LibrarianBroadcast; RW2.Tick;
               RW2.LibrarianSwitch; RW2.LibrarianCheck;
               RW2.ThreadEnter (RW2.WakeWriter 0);
               RW2.LibrarianBroadcast;
               RW2.ThreadEnter (RW2.WakeWriter 1)]
              (RW2.boot
                 (RW2.mkGlobals 0 0 2
                    [RW2.mkPresence 2 0 100; RW2.mkPresence 2 1 100]
                    [RW2.mkPresence 0 0 0; RW2.mkPresence 0 0 0] 0 5 5 15) 100))
    as [s |] eqn:Hrun; [| vm_compute in Hrun; discriminate Hrun].
  exists s. split; [reflexivity |].
  destruct (library_says_who_is_inside 0 100
              (RW2.mkGlobals 0 0 2
                 [RW2.mkPresence 2 0 100; RW2.mkPresence 2 1 100]
                 [RW2.mkPresence 0 0 0; RW2.mkPresence 0 0 0] 0 5 5 15)
              _ s eq_refl ltac:(repeat constructor) Hrun) as (_ & _ & Hw).
  split; [exact Hw |].
  vm_compute in Hrun. injection Hrun as <-. reflexivity.
Defined.

(** ** [get_random]: when it has no value *)

(** X11: [get_random], the same in both files, divides by zero exactly
    when [max - min + 1] is 0 as an [int]: for [min = max + 1], and for
    the full range [INT_MIN], [INT_MAX], whose size wraps to 0. *)
Theorem get_random_divides_by_zero (rand_value min max : Z) :
  in_int min -> in_int max ->
  (get_random rand_value min max = None <->
   min = max + 1 \/ (min = INT_MIN /\ max = INT_MAX)).
Proof.
  unfold get_random, wrap_int, in_int, INT_MIN, INT_MAX. intros Hmin Hmax.
  destruct (Z.eqb_spec
              ((((max - min + 2147483648) mod 4294967296 - 2147483648 + 1 + 2147483648)
                mod 4294967296) - 2147483648) 0) as [E | E];
    (split; [intros H | intros H]); try discriminate H; try reflexivity.
  - Z.div_mod_to_equations. lia.
  - exfalso. Z.div_mod_to_equations. lia.
Qed.

Lemma get_random_divides_by_zero_witness :
  get_random 7 6 5 = None <-> 6 = 5 + 1 \/ (6 = INT_MIN /\ 5 = INT_MAX).
Proof.
  apply (get_random_divides_by_zero 7 6 5); int_bounds; lia.
Defined.

(** ** [r_w_1.c]: whom the librarian signals *)

(** X12: in [r_w_1.c], a turn of the librarian that finds no writer in the
    library sets the gate and signals one writer, whatever the timestamps
    and the clock are: the first writer whose waiting time, the difference
    between the timestamp read in its iteration and its queue stamp taken
    as an [int], is the largest, when some waiting time is positive, and
    writer 0 otherwise. The index is always that of a writer thread. *)
Theorem librarian_signals_first_longest (clock : Z -> Z) (g : RW1.globals) :
  RW1.writers_in_library_count g = 0 ->
  0 < RW1.writers_count g <= INT_MAX ->
  List.length (RW1.writers_queue g) = Z.to_nat (RW1.writers_count g) ->
  exists m t,
    RW1.librarian_turn clock g = Some (RW1.set_writer_notification g 1, Some m) /\
    0 <= m < RW1.writers_count g /\
    scanned clock (RW1.writers_queue g) (List.length (RW1.writers_queue g)) m t.
Proof.
  intros Hin Hw Hlen. unfold RW1.librarian_turn. rewrite Hin. cbn [Z.eqb].
  replace (RW1.writers_count (RW1.set_writer_notification g 1))
    with (RW1.writers_count g) by (destruct g; reflexivity).
  replace (RW1.writers_queue (RW1.set_writer_notification g 1))
    with (RW1.writers_queue g) by (destruct g; reflexivity).
  rewrite <- Hlen.
  destruct (longest_waiter_scan clock (RW1.writers_queue g) ltac:(lia)
              (List.length (RW1.writers_queue g)) 0 0 0 eq_refl)
    as (m & t & Hscan & Hs).
  { split; [lia |]. split; [intros j Hj; lia | left; split; reflexivity]. }
  change (Z.of_nat 0) with 0 in Hscan.
  exists m, t. rewrite Hscan. cbn [obind]. split; [reflexivity |].
  split; [| exact Hs].
  destruct Hs as (_ & _ & [[_ ->] | (m' & -> & Hm' & _)]); lia.
Qed.

Lemma librarian_signals_first_longest_witness :
  exists m t,
    RW1.librarian_turn (fun i => 200 + i)
      (RW1.mkGlobals 0 1 3 [0; 0; 0] 0 [0] 0 [150; 140; 141] 3 [100] 1 0 0 5 5 15 10 20)
    = Some (RW1.mkGlobals 0 1 3 [0; 0; 0] 0 [0] 0 [150; 140; 141] 3 [100] 1 1 0 5 5 15 10 20,
            Some m) /\
    0 <= m < 3 /\
    scanned (fun i => 200 + i) [150; 140; 141] 3 m t.
Proof.
  apply (librarian_signals_first_longest (fun i => 200 + i)
           (RW1.mkGlobals 0 1 3 [0; 0; 0] 0 [0] 0 [150; 140; 141] 3 [100] 1 0 0 5 5 15
              10 20));
    [reflexivity | int_bounds; simpl; lia | reflexivity].
Defined.

(** ** [r_w_2.c]: [init_queue] on a queue that is not cleared *)

(** X13: [init_queue] of [r_w_2.c] clears the library slots but not the
    queue slots: on a queue block in which every slot has a kind other
    than [NO_KIND], as [malloc] may return it, the first [get_to_queue]
    finds no empty slot and its scan leaves the block. *)
Theorem init_queue_needs_cleared_queue (clock : Z -> Z) (g : RW2.globals) :
  0 <= RW2.readers_count g -> 0 <= RW2.writers_count g ->
  0 < RW2.writers_count g + RW2.readers_count g <= INT_MAX ->
  Forall occupied (RW2.queue g) ->
  RW2.init_queue clock g = None.
Proof.
  intros Hr Hw Hsum Hocc. unfold RW2.init_queue.
  rewrite (wrap_int_id (RW2.writers_count g + RW2.readers_count g))
    by (int_bounds; lia).
  destruct (Z.to_nat (RW2.readers_count g)) as [| n] eqn:En.
  - cbn [RW2.init_readers obind].
    destruct (Z.to_nat (RW2.writers_count g + RW2.readers_count g
                        - RW2.readers_count g)) as [| k] eqn:Ek; [lia |].
    cbn [RW2.init_writers]. unfold RW2.get_to_queue.
    rewrite (put_first_empty_none _ _ Hocc). reflexivity.
  - cbn [RW2.init_readers]. unfold RW2.get_to_queue.
    rewrite (put_first_empty_none _ _ Hocc). reflexivity.
Qed.

Lemma init_queue_needs_cleared_queue_witness :
  RW2.init_queue (fun i => 100 + i)
    (RW2.mkGlobals 0 1 1 [RW2.mkPresence 7 3 9; RW2.mkPresence 2 8 1]
       [RW2.mkPresence 0 0 0; RW2.mkPresence 0 0 0] 0 5 5 15) = None.
Proof.
  apply init_queue_needs_cleared_queue;
    [simpl; lia | simpl; lia | int_bounds; simpl; lia | repeat constructor; discriminate].
Defined.

(** ** [r_w_2.c]: a visit to the library *)

(** X14: in [r_w_2.c], a thread that runs the first block of [read_books]
    or [write_book] and later the second one, with nothing between that
    changes the arrays, ends right behind the line of the threads that
    were queued behind the head, with the timestamp of its return; the
    head of the queue is removed whoever it was, so the queue is rotated
    when the visitor was the head. The library slot it took is empty
    again and keeps its [id] and the timestamp of its entry. *)
Theorem visit_ends_behind_line (past_end now now' : Z) (t : RW2.wake) (g : RW2.globals)
  (x e : RW2.presence) (line tail inside rest : list RW2.presence) :
  List.length (RW2.in_library g) = RW2.slots g ->
  RW2.queue g = x :: line ++ tail ->
  Forall occupied line -> (List.length line <= 20)%nat ->
  compact_tail past_end tail ->
  RW2.in_library g = inside ++ e :: rest ->
  Forall occupied inside -> empty e ->
  Forall (fun p => holds (kind_of t) (id_of t) p = false) inside ->
  (g1 <- RW2.enter past_end now t g ;; RW2.depart now' t g1)
  = Some (RW2.set_in_library
            (RW2.set_queue g
               (line ++ RW2.mkPresence (kind_of t) (id_of t) now' :: tail))
            (inside ++ RW2.mkPresence RW2.NO_KIND (id_of t) now :: rest)).
Proof.
  intros Hl Hq Hline Hlen Htail Hlib Hin He Hnot.
  rewrite (proj1 (enter_as_moves past_end now t g)).
  unfold RW2.leave_queue. rewrite Hq.
  rewrite (leave_queue_from_compact past_end line 0 x tail Hline)
    by (assumption || lia).
  cbn [option_map obind]. unfold RW2.get_to_library.
  replace (RW2.in_library (RW2.set_queue g _)) with (RW2.in_library g)
    by (destruct g; reflexivity).
  rewrite Hlib, (put_first_empty_at _ e inside rest Hin He).
  cbn [option_map obind].
  rewrite (proj2 (enter_as_moves past_end now' t _)).
  unfold RW2.leave_library.
  match goal with
  | |- context [RW2.leave_library_loop ?n _ _ (RW2.in_library ?g1)] =>
      replace (RW2.in_library g1)
        with (inside ++ RW2.mkPresence (kind_of t) (id_of t) now :: rest)
        by (destruct g; reflexivity);
      replace n
        with (List.length (inside ++ RW2.mkPresence (kind_of t) (id_of t) now :: rest))
  end.
  - rewrite (leave_library_loop_first_match _ _ inside rest _ Hnot)
      by (unfold holds; cbn; rewrite !Z.eqb_refl; reflexivity).
    cbn [option_map obind RW2.id RW2.timestamp]. unfold RW2.get_to_queue.
    match goal with
    | |- context [RW2.put_first_empty _ (RW2.queue ?g1)] =>
        replace (RW2.queue g1)
          with (line ++ RW2.set_kind (last line x) RW2.NO_KIND :: tail)
          by (destruct g; reflexivity)
    end.
    rewrite (put_first_empty_at _ (RW2.set_kind (last line x) RW2.NO_KIND) line tail
               Hline eq_refl).
    cbn [option_map]. destruct g; reflexivity.
  - rewrite Hlib in Hl. rewrite !length_app in *. cbn [List.length] in *.
    rewrite Hl. unfold RW2.slots. rewrite Z.add_comm. destruct g; reflexivity.
Qed.

Lemma visit_ends_behind_line_witness :
  (g1 <- RW2.enter 0 105 (RW2.WakeReader 0)
           (RW2.mkGlobals 0 2 1
              [RW2.mkPresence 1 0 100; RW2.mkPresence 1 1 101; RW2.mkPresence 2 0 102]
              [RW2.mkPresence 0 0 0; RW2.mkPresence 0 0 0; RW2.mkPresence 0 0 0]
              0 5 5 15) ;;
   RW2.depart 108 (RW2.WakeReader 0) g1)
  = Some (RW2.mkGlobals 0 2 1
            [RW2.mkPresence 1 1 101; RW2.mkPresence 2 0 102; RW2.mkPresence 1 0 108]
            [RW2.mkPresence 0 0 105; RW2.mkPresence 0 0 0; RW2.mkPresence 0 0 0]
            0 5 5 15).
Proof.
  apply (visit_ends_behind_line 0 105 108 (RW2.WakeReader 0)
           (RW2.mkGlobals 0 2 1
              [RW2.mkPresence 1 0 100; RW2.mkPresence 1 1 101; RW2.mkPresence 2 0 102]
              [RW2.mkPresence 0 0 0; RW2.mkPresence 0 0 0; RW2.mkPresence 0 0 0]
              0 5 5 15)
           (RW2.mkPresence 1 0 100) (RW2.mkPresence 0 0 0)
           [RW2.mkPresence 1 1 101; RW2.mkPresence 2 0 102] [] []
           [RW2.mkPresence 0 0 0; RW2.mkPresence 0 0 0]).
  - reflexivity.
  - reflexivity.
  - repeat constructor; discriminate.
  - simpl. lia.
  - reflexivity.
  - reflexivity.
  - constructor.
  - reflexivity.
  - constructor.
Defined.

(** ** Witnesses of facts proved above *)

Lemma leave_queue_keeps_far_slots_witness :
  exists g',
    RW2.leave_queue 0
      (RW2.mkGlobals 0 23 0
         (map (fun j => RW2.mkPresence 1 (Z.of_nat j) 100) (seq 0 23))
         (repeat (RW2.mkPresence 0 0 0) 23) 0 5 5 15) = Some g' /\
    nth_error (RW2.queue g') 21 = Some (RW2.mkPresence 1 21 100).
Proof.
  destruct (RW2.leave_queue 0
              (RW2.mkGlobals 0 23 0
                 (map (fun j => RW2.mkPresence 1 (Z.of_nat j) 100) (seq 0 23))
                 (repeat (RW2.mkPresence 0 0 0) 23) 0 5 5 15)) as [g' |] eqn:Hleave;
    [| vm_compute in Hleave; discriminate Hleave].
  exists g'. split; [reflexivity |].
  rewrite (leave_queue_keeps_far_slots 0 _ g' 21 ltac:(lia) Hleave). reflexivity.
Defined.

(** ** [r_w_1.c]: a signal to a writer that does not wait *)

(** C5: in [r_w_1.c] the librarian's scan runs over every writer and does
    not ask whether the writer is blocked in its [pthread_cond_wait]. With
    two writers queued at the same time, writer 1 waiting on its condition
    variable and writer 0 not there yet, the turn sets the gate and
    signals [writers_conds[0]]; nobody waits on it, so the signal is lost:
    after the turn writer 1 still waits, and writer 0 blocks in its wait
    as soon as it reaches it. No writer was woken in a cycle in which a
    writer waited. Besides, the clock is read anew for every writer: when
    it advances during the scan, of two writers queued at the same time
    the one with the higher id is signalled. *)
Theorem librarian_signal_is_lost_on_writer_not_waiting :
  (exists g s s',
      RW1.main_start atoi_c ["ReaderAndWriters1"; "2"; "0"]%string [0; 0] [0; 0] [] [] 100
        = Continue (Some g) /\
      RW1.run [RW1.WriterWait 1; RW1.Tick] (RW1.boot g 100) = Some s /\
      RW1.writers s = [RW1.WTop; RW1.WCondWait] /\
      RW1.writers_queue (RW1.mem s) = [100; 100] /\
      RW1.librarian_turn (fun _ => RW1.time_now s) (RW1.mem s)
        = Some (RW1.set_writer_notification (RW1.mem s) 1, Some 0) /\
      RW1.run [RW1.LibrarianTurn] s = Some s' /\
      RW1.writers s' = [RW1.WTop; RW1.WCondWait] /\
      RW1.writer_notification (RW1.mem s') = 1 /\
      option_map RW1.writers (RW1.run [RW1.WriterWait 0] s')
        = Some [RW1.WCondWait; RW1.WCondWait]) /\
  (exists g,
      RW1.librarian_turn (fun i => 100 + i)
        (RW1.mkGlobals 0 0 2 [0; 0] 0 [] 0 [30; 30] 2 [] 0 0 0 5 5 15 10 20)
      = Some (g, Some 1)).
Proof.
  split.
  - eexists. eexists. eexists. by_running.
  - eexists. by_running.
Qed.

(** ** [args_interpreter]: what is accepted after [-debug] *)

Lemma debug_line_not_refused_1 (argv : list string) :
  RW1.arg argv 3 = "-debug"%string -> (4 < List.length argv < 11)%nat ->
  ~ refused_1 argv.
Proof.
  intros Hd Hlen. unfold refused_1, too_few, unknown_flag, too_many.
  change (11 - 1)%nat with 10%nat.
  intros [[H | [H _]] | [[(_ & _ & H) | [H _]] | H]];
    try lia; try (rewrite Hd in H; discriminate H); now apply H.
Qed.

Lemma debug_line_not_refused_2 (argv : list string) :
  RW2.arg argv 3 = "-debug"%string -> (4 < List.length argv < 9)%nat ->
  ~ refused_2 argv.
Proof.
  intros Hd Hlen. unfold refused_2, too_few, unknown_flag, too_many.
  change (9 - 1)%nat with 8%nat.
  intros [[H | [H _]] | [[(_ & _ & H) | [H _]] | H]];
    try lia; try (rewrite Hd in H; discriminate H); now apply H.
Qed.

(** C7: both programs accept command lines that are malformed. After
    [-debug] as the fourth argument nothing is looked at below the largest
    accepted length (11 arguments in [r_w_1.c], 9 in [r_w_2.c]): whatever
    follows, [args_interpreter] goes on, and [main] sets up the queues and
    starts the threads; [... 1 2 -debug -verbose] is such a line. And the
    two counts are converted by [atoi], which reports no error: [abc] is
    taken as 0 writers and [1x] as 1 reader. *)
Theorem unknown_flag_after_debug_is_accepted :
  (forall atoi argv g,
      RW1.arg argv 3 = "-debug"%string -> (4 < List.length argv < 11)%nat ->
      exists g', RW1.args_interpreter atoi argv g = Continue g' /\
                 RW1.is_debug_run g' = 1) /\
  (forall atoi argv g,
      RW2.arg argv 3 = "-debug"%string -> (4 < List.length argv < 9)%nat ->
      exists g', RW2.args_interpreter atoi argv g = Continue g' /\
                 RW2.is_debug_run g' = 1) /\
  (exists g,
      RW1.main_start atoi_c ["ReaderAndWriters1"; "1"; "2"; "-debug"; "-verbose"]%string
        [0] [0] [0; 0] [0; 0] 100 = Continue (Some g) /\
      RW1.writers_count g = 1 /\ RW1.readers_count g = 2 /\
      RW1.readers_queue g = [100; 100] /\ RW1.writers_queue g = [100]) /\
  (exists g,
      RW2.main_start atoi_c ["ReaderAndWriters2"; "1"; "2"; "-debug"; "-verbose"]%string
        (repeat (RW2.mkPresence 0 0 0) 3) (repeat (RW2.mkPresence 0 0 0) 3)
        (fun _ => 100) = Continue (Some g) /\
      RW2.queue g = [RW2.mkPresence RW2.READER_KIND 0 100;
                     RW2.mkPresence RW2.READER_KIND 1 100;
                     RW2.mkPresence RW2.WRITER_KIND 0 100]) /\
  (exists g,
      RW1.main_start atoi_c ["ReaderAndWriters1"; "abc"; "1x"]%string [] [] [7] [7] 100
        = Continue (Some g) /\
      RW1.writers_count g = 0 /\ RW1.readers_count g = 1) /\
  (exists g,
      RW2.main_start atoi_c ["ReaderAndWriters2"; "abc"; "1x"]%string
        [RW2.mkPresence 0 0 0] [RW2.mkPresence 7 7 7] (fun _ => 100)
        = Continue (Some g) /\
      RW2.writers_count g = 0 /\ RW2.readers_count g = 1).
Proof.
  split; [| split; [| split; [| split; [| split]]]].
  - intros atoi argv g Hd Hlen.
    pose proof (args_result_1 atoi argv g) as H.
    destruct (RW1.args_interpreter atoi argv g) as [m st | g'].
    + destruct H as (_ & _ & Href).
      elim (debug_line_not_refused_1 argv Hd Hlen Href).
    + exists g'. split; [reflexivity |].
      destruct H as (_ & _ & _ & _ & _ & Hdebug & _).
      apply Hdebug. left. split; [lia | exact Hd].
  - intros atoi argv g Hd Hlen.
    pose proof (args_result_2 atoi argv g) as H.
    destruct (RW2.args_interpreter atoi argv g) as [m st | g'].
    + destruct H as (_ & _ & Href).
      elim (debug_line_not_refused_2 argv Hd Hlen Href).
    + exists g'. split; [reflexivity |].
      destruct H as (_ & _ & _ & Hdebug & _).
      apply Hdebug. left. split; [lia | exact Hd].
  - eexists. by_running.
  - eexists. by_running.
  - eexists. by_running.
  - eexists. by_running.
Qed.

(** ** [r_w_2.c]: [init_queue] on a queue block with a slot that is not
    cleared *)

Lemma put_first_empty_takes_slot (p : RW2.presence) :
  RW2.kind p <> RW2.NO_KIND ->
  forall a a', RW2.put_first_empty p a = Some a' ->
    tally (kind_is RW2.NO_KIND) a' = tally (kind_is RW2.NO_KIND) a - 1.
Proof.
  intros Hp. induction a as [| x rest IH]; intros a' H; [discriminate |].
  cbn [RW2.put_first_empty] in H. cbn [tally]. unfold kind_is at 2.
  destruct (Z.eqb_spec (RW2.kind x) RW2.NO_KIND) as [Hx | Hx].
  - injection H as <-. cbn [tally]. unfold kind_is at 1.
    destruct (Z.eqb_spec (RW2.kind p) RW2.NO_KIND); [contradiction | lia].
  - destruct (RW2.put_first_empty p rest) as [r |] eqn:E; [| discriminate].
    injection H as <-. cbn [tally]. unfold kind_is at 1.
    destruct (Z.eqb_spec (RW2.kind x) RW2.NO_KIND); [contradiction |].
    rewrite (IH r eq_refl). lia.
Qed.

Lemma queue_slot_taken (k i now : Z) (j : Z) (g g2 : RW2.globals) :
  k <> RW2.NO_KIND ->
  (g1 <- RW2.get_to_queue k i now g ;; RW2.clear_library_slot j g1) = Some g2 ->
  tally (kind_is RW2.NO_KIND) (RW2.queue g2)
  = tally (kind_is RW2.NO_KIND) (RW2.queue g) - 1 /\
  RW2.readers_count g2 = RW2.readers_count g.
Proof.
  intros Hk. unfold RW2.get_to_queue, RW2.clear_library_slot.
  destruct (RW2.put_first_empty _ (RW2.queue g)) as [q |] eqn:Eq; [| discriminate].
  cbn [option_map obind].
  destruct (load _ j) as [p |]; [| discriminate]. cbn [obind].
  destruct (store _ j _) as [lib |]; [| discriminate]. cbn [obind].
  intros H. injection H as <-.
  rewrite <- (put_first_empty_takes_slot (RW2.mkPresence k i now) Hk _ _ Eq).
  destruct g; split; reflexivity.
Qed.

Lemma init_readers_take_slots (clock : Z -> Z) (n : nat) :
  forall i g g',
    RW2.init_readers n i clock g = Some g' ->
    tally (kind_is RW2.NO_KIND) (RW2.queue g')
    = tally (kind_is RW2.NO_KIND) (RW2.queue g) - Z.of_nat n /\
    RW2.readers_count g' = RW2.readers_count g.
Proof.
  induction n as [| n IH]; intros i g g' H.
  - injection H as <-. split; [lia | reflexivity].
  - cbn [RW2.init_readers] in H.
    destruct (RW2.get_to_queue RW2.READER_KIND i (clock i) g) as [g1 |] eqn:E1;
      [| discriminate].
    cbn [obind] in H.
    destruct (RW2.clear_library_slot i g1) as [g2 |] eqn:E2; [| discriminate].
    cbn [obind] in H.
    destruct (queue_slot_taken RW2.READER_KIND i (clock i) i g g2 reader_not_no_kind)
      as [Ht Hc]; [rewrite E1; exact E2 |].
    destruct (IH _ _ _ H) as [Ht' Hc']. split; [lia | congruence].
Qed.

Lemma init_writers_take_slots (clock : Z -> Z) (n : nat) :
  forall i g g',
    RW2.init_writers n i clock g = Some g' ->
    tally (kind_is RW2.NO_KIND) (RW2.queue g')
    = tally (kind_is RW2.NO_KIND) (RW2.queue g) - Z.of_nat n.
Proof.
  induction n as [| n IH]; intros i g g' H.
  - injection H as <-. lia.
  - cbn [RW2.init_writers] in H.
    destruct (RW2.get_to_queue RW2.WRITER_KIND _ (clock i) g) as [g1 |] eqn:E1;
      [| discriminate].
    cbn [obind] in H.
    destruct (RW2.clear_library_slot i g1) as [g2 |] eqn:E2; [| discriminate].
    cbn [obind] in H.
    destruct (queue_slot_taken RW2.WRITER_KIND (wrap_int (i - RW2.readers_count g))
                (clock i) i g g2 writer_not_no_kind)
      as [Ht _]; [rewrite E1; exact E2 |].
    rewrite (IH _ _ _ H). lia.
Qed.

Lemma tally_at_most_length (f : RW2.presence -> bool) (a : list RW2.presence) :
  tally f a <= Z.of_nat (List.length a).
Proof.
  induction a as [| p a IH]; [cbn; lia |]. cbn [tally List.length].
  destruct (f p); lia.
Qed.

Lemma occupied_slot_is_not_free (a : list RW2.presence) :
  Exists occupied a -> tally (kind_is RW2.NO_KIND) a < Z.of_nat (List.length a).
Proof.
  induction 1 as [p a Hp | p a _ IH]; cbn [tally List.length].
  - pose proof (tally_at_most_length (kind_is RW2.NO_KIND) a) as Hb.
    unfold kind_is at 1.
    destruct (Z.eqb_spec (RW2.kind p) RW2.NO_KIND); [contradiction | lia].
  - destruct (kind_is RW2.NO_KIND p); lia.
Qed.

(** C9: [init_queue] of [r_w_2.c] does not clear the queue it fills, and
    [variables_initializer] takes the block from [malloc], which does not
    clear it either. Whenever one slot of the block holds a kind other than
    [NO_KIND], the queue is not laid out as readers then writers: the
    threads take the slots that happen to be empty, there is one slot too
    few, and the last [get_to_queue] scans past the end of the block. With
    2 readers and 1 writer and such a word in the second slot, the readers
    are put in slots 0 and 2 and no slot is left for writer 0. *)
Theorem init_queue_reads_uncleared_queue :
  (forall clock g,
      0 <= RW2.readers_count g -> 0 <= RW2.writers_count g ->
      RW2.writers_count g + RW2.readers_count g <= INT_MAX ->
      List.length (RW2.queue g) = RW2.slots g ->
      Exists occupied (RW2.queue g) ->
      RW2.init_queue clock g = None) /\
  RW2.init_readers 2 0 (fun _ => 100)
    (RW2.mkGlobals 0 2 1
       [RW2.mkPresence 0 0 0; RW2.mkPresence 5 0 0; RW2.mkPresence 0 0 0]
       [RW2.mkPresence 0 0 0; RW2.mkPresence 0 0 0; RW2.mkPresence 0 0 0] 0 5 5 15)
  = Some (RW2.mkGlobals 0 2 1
            [RW2.mkPresence RW2.READER_KIND 0 100; RW2.mkPresence 5 0 0;
             RW2.mkPresence RW2.READER_KIND 1 100]
            [RW2.mkPresence 0 0 0; RW2.mkPresence 0 0 0; RW2.mkPresence 0 0 0]
            0 5 5 15) /\
  RW2.main_start atoi_c ["ReaderAndWriters2"; "1"; "2"]%string
    [RW2.mkPresence 0 0 0; RW2.mkPresence 5 0 0; RW2.mkPresence 0 0 0]
    [RW2.mkPresence 0 0 0; RW2.mkPresence 0 0 0; RW2.mkPresence 0 0 0]
    (fun _ => 100) = Continue None.
Proof.
  split; [| split; reflexivity].
  intros clock g Hr Hw Hsum Hlen Hdirty.
  destruct (RW2.init_queue clock g) as [g' |] eqn:E; [exfalso | reflexivity].
  unfold RW2.init_queue in E.
  destruct (RW2.init_readers _ 0 clock g) as [g1 |] eqn:E1; [| discriminate E].
  cbn [obind] in E.
  destruct (init_readers_take_slots clock _ _ _ _ E1) as [T1 C1].
  pose proof (init_writers_take_slots clock _ _ _ _ E) as T2.
  pose proof (occupied_slot_is_not_free _ Hdirty) as Hfree.
  pose proof (tally_nonneg (kind_is RW2.NO_KIND) (RW2.queue g')) as Hnn.
  rewrite Hlen in Hfree. unfold RW2.slots in Hfree.
  rewrite (wrap_int_id (RW2.writers_count g + RW2.readers_count g)) in *
    by (int_bounds; lia).
  lia.
Qed.

(** ** [r_w_2.c]: readers at the head of the queue are admitted in order *)

Lemma seat_nobody (lib : list RW2.presence) : seat [] lib = lib.
Proof.
  induction lib as [| s rest IH]; [reflexivity |]. cbn [seat].
  destruct (RW2.kind s =? RW2.NO_KIND); [reflexivity | rewrite IH; reflexivity].
Qed.

Lemma put_first_empty_seat (p : RW2.presence) (lib : list RW2.presence) :
  Exists empty lib -> RW2.put_first_empty p lib = Some (seat [p] lib).
Proof.
  induction lib as [| s rest IH]; intros He; [inversion He |].
  cbn [RW2.put_first_empty seat].
  destruct (Z.eqb_spec (RW2.kind s) RW2.NO_KIND) as [Hs | Hs].
  - rewrite seat_nobody. reflexivity.
  - inversion He as [? ? H | ? ? H]; subst; [contradiction |].
    rewrite (IH H). reflexivity.
Qed.

Lemma seat_next (p : RW2.presence) (ps lib : list RW2.presence) :
  RW2.kind p <> RW2.NO_KIND -> seat ps (seat [p] lib) = seat (p :: ps) lib.
Proof.
  intros Hp. induction lib as [| s rest IH]; [reflexivity |].
  cbn [seat]. destruct (Z.eqb_spec (RW2.kind s) RW2.NO_KIND) as [Hs | Hs].
  - rewrite seat_nobody. cbn [seat].
    destruct (Z.eqb_spec (RW2.kind p) RW2.NO_KIND); [contradiction | reflexivity].
  - cbn [seat]. destruct (Z.eqb_spec (RW2.kind s) RW2.NO_KIND); [contradiction |].
    rewrite IH. reflexivity.
Qed.

Lemma free_slot_exists (lib : list RW2.presence) :
  0 < tally (kind_is RW2.NO_KIND) lib -> Exists empty lib.
Proof.
  intros H. apply tally_positive in H. eapply Exists_impl; [| exact H].
  intros p Hp. now apply Z.eqb_eq in Hp.
Qed.

Lemma serve_line_of_readers (past_end now : Z) (behind : list RW2.presence) :
  Forall occupied behind ->
  forall (line : list RW2.presence) (g : RW2.globals) (d : RW2.presence)
         (tail : list RW2.presence),
    well_formed g ->
    RW2.queue g = line ++ behind ++ tail ->
    Forall queued_reader line ->
    (List.length line + List.length behind <= 21)%nat ->
    compact_tail past_end tail ->
    tally (kind_is RW2.WRITER_KIND) (RW2.in_library g) = 0 ->
    Z.of_nat (List.length line) <= tally (kind_is RW2.NO_KIND) (RW2.in_library g) ->
    exists g',
      RW2.serve (List.length line) past_end now g = Some (map wake_reader line, g') /\
      RW2.queue g'
      = behind
        ++ repeat (RW2.set_kind (last (line ++ behind) d) RW2.NO_KIND) (List.length line)
        ++ tail /\
      RW2.in_library g' = seat (map (reading_since now) line) (RW2.in_library g).
Proof.
  intros Hbehind.
  induction line as [| x line IH];
    intros g d tail Hwf Hq Hline Hlen Htail Hnow Hroom.
  - exists g. cbn. split; [reflexivity |]. split; [assumption |].
    rewrite seat_nobody. reflexivity.
  - inversion Hline as [| ? ? Hx Hline']; subst.
    cbn [List.length] in Hlen, Hroom.
    assert (Hocc : Forall occupied (line ++ behind)).
    { apply Forall_app. split; [| exact Hbehind].
      eapply Forall_impl; [| exact Hline']. intros p Hp. red. red in Hp. rewrite Hp.
      discriminate. }
    assert (Hturn : RW2.librarian_turn g = Some (Some (wake_reader x))).
    { unfold RW2.librarian_turn. rewrite Hq. cbn [app load Z.ltb Z.compare Z.to_nat
        nth_error obind]. red in Hx. rewrite Hx. cbn [Z.eqb RW2.READER_KIND Pos.eqb].
      rewrite (proj2 (library_counts g (proj2 Hwf))), Hnow. reflexivity. }
    pose (q1 := (line ++ behind)
                ++ RW2.set_kind (last (line ++ behind) x) RW2.NO_KIND :: tail).
    pose (l1 := seat [reading_since now x] (RW2.in_library g)).
    assert (Hput : RW2.put_first_empty (reading_since now x) (RW2.in_library g)
                   = Some l1).
    { apply put_first_empty_seat, free_slot_exists. lia. }
    assert (Henter : RW2.enter past_end now (wake_reader x) g
                     = Some (RW2.set_in_library (RW2.set_queue g q1) l1)).
    { cbn [RW2.enter wake_reader]. unfold RW2.read_books_enter, RW2.leave_queue.
      replace ((x :: line) ++ behind ++ tail) with (x :: (line ++ behind) ++ tail) in Hq
        by (cbn [app]; rewrite <- app_assoc; reflexivity).
      rewrite Hq.
      rewrite (leave_queue_from_compact past_end (line ++ behind) 0 x tail Hocc)
        by (assumption || (rewrite length_app; lia)).
      cbn [option_map obind]. unfold RW2.get_to_library.
      replace (RW2.in_library (RW2.set_queue g _)) with (RW2.in_library g)
        by (destruct g; reflexivity).
      unfold reading_since in Hput. rewrite Hput. reflexivity. }
    assert (Hkind : RW2.kind (reading_since now x) <> RW2.NO_KIND) by discriminate.
    destruct (put_first_empty_tally (reading_since now x) (RW2.in_library g)
                ltac:(apply free_slot_exists; lia)) as (l1' & Hput' & Hlen1 & Ht1).
    rewrite Hput in Hput'. injection Hput' as <-.
    pose proof (Ht1 _ (kind_is_counts_threads _ writer_not_no_kind)) as Tw.
    cbn in Tw.
    pose proof (put_first_empty_takes_slot _ Hkind _ _ Hput) as Tf.
    destruct (IH (RW2.set_in_library (RW2.set_queue g q1) l1) x
                (RW2.set_kind (last (line ++ behind) x) RW2.NO_KIND :: tail))
      as (g' & Hserve & Hq' & Hl').
    + destruct Hwf as [W1 W2]. rewrite Hq in W1.
      unfold well_formed.
      replace (RW2.slots (RW2.set_in_library (RW2.set_queue g q1) l1))
        with (RW2.slots g) by (destruct g; reflexivity).
      replace (RW2.queue (RW2.set_in_library (RW2.set_queue g q1) l1))
        with q1 by (destruct g; reflexivity).
      replace (RW2.in_library (RW2.set_in_library (RW2.set_queue g q1) l1))
        with l1 by (destruct g; reflexivity).
      split; [| congruence].
      rewrite <- W1. unfold q1.
      rewrite ?length_app; cbn [List.length]; rewrite ?length_app;
        cbn [List.length]; lia.
    + replace (RW2.queue (RW2.set_in_library (RW2.set_queue g q1) l1))
        with q1 by (destruct g; reflexivity).
      unfold q1. rewrite <- app_assoc. reflexivity.
    + exact Hline'.
    + lia.
    + reflexivity.
    + replace (RW2.in_library (RW2.set_in_library (RW2.set_queue g q1) l1))
        with l1 by (destruct g; reflexivity).
      lia.
    + replace (RW2.in_library (RW2.set_in_library (RW2.set_queue g q1) l1))
        with l1 by (destruct g; reflexivity).
      lia.
    + exists g'. split; [| split].
      * cbn [RW2.serve List.length]. rewrite Hturn. cbn [obind]. rewrite Henter.
        cbn [obind]. rewrite Hserve. reflexivity.
      * rewrite Hq'. change ((x :: line) ++ behind) with (x :: line ++ behind).
        rewrite last_cons_default. cbn [List.length repeat].
        rewrite (repeat_cons (List.length line)), <- !app_assoc. reflexivity.
      * rewrite Hl'.
        replace (RW2.in_library (RW2.set_in_library (RW2.set_queue g q1) l1))
          with l1 by (destruct g; reflexivity).
        unfold l1. cbn [map]. apply seat_next. exact Hkind.
Qed.

(** X9: in [r_w_2.c], with both arrays of the allocated size, at most 21
    threads queued in the first slots of the queue and followed by an
    empty slot (or by the end of the block, with [NO_KIND] in the next
    word), readers standing at the head of the queue, no writer in the
    library and at least as many empty library slots as these readers,
    wherever in the array they are, a round in which every woken thread
    enters at once admits these readers
    one after the other in the order of the queue; they take the empty
    slots of the library in the order of the array, the other library
    slots are kept, and the threads that stood behind them are now at the
    head of the queue, in their order. *)
Theorem serve_admits_line_in_order (past_end now : Z) (g : RW2.globals)
  (line behind tail : list RW2.presence) :
  well_formed g ->
  RW2.queue g = line ++ behind ++ tail ->
  Forall queued_reader line -> Forall occupied behind ->
  (List.length line + List.length behind <= 21)%nat ->
  compact_tail past_end tail ->
  RW2.get_writers_in_library_count g = Some 0 ->
  Z.of_nat (List.length line) <= tally (kind_is RW2.NO_KIND) (RW2.in_library g) ->
  exists g',
    RW2.serve (List.length line) past_end now g = Some (map wake_reader line, g') /\
    (forall d,
       RW2.queue g'
       = behind
         ++ repeat (RW2.set_kind (last (line ++ behind) d) RW2.NO_KIND)
              (List.length line)
         ++ tail) /\
    RW2.in_library g' = seat (map (reading_since now) line) (RW2.in_library g).
Proof.
  intros Hwf Hq Hline Hbehind Hlen Htail Hnow Hroom.
  assert (Hw0 : tally (kind_is RW2.WRITER_KIND) (RW2.in_library g) = 0).
  { rewrite (proj2 (library_counts g (proj2 Hwf))) in Hnow. now injection Hnow. }
  destruct (serve_line_of_readers past_end now behind Hbehind line g
              (RW2.mkPresence 0 0 0) tail Hwf Hq Hline Hlen Htail Hw0 Hroom)
    as (g' & Hserve & _ & Hl').
  exists g'. split; [exact Hserve |]. split; [| exact Hl'].
  intros d.
  destruct (serve_line_of_readers past_end now behind Hbehind line g d
              tail Hwf Hq Hline Hlen Htail Hw0 Hroom)
    as (g2 & Hserve2 & Hq2 & _).
  rewrite Hserve in Hserve2. injection Hserve2 as <-. exact Hq2.
Qed.

(** Readers 0 and 1 ahead of writer 0, readers 2 and 3 inside, with free
    library slots before, between and behind them. *)
Lemma serve_admits_line_in_order_witness :
  exists g',
    RW2.serve 2 7 105
      (RW2.mkGlobals 0 4 1
         [RW2.mkPresence 1 0 100; RW2.mkPresence 1 1 101; RW2.mkPresence 2 0 102;
          RW2.mkPresence 0 0 0; RW2.mkPresence 0 0 0]
         [RW2.mkPresence 0 0 0; RW2.mkPresence 1 2 90; RW2.mkPresence 0 0 0;
          RW2.mkPresence 1 3 91; RW2.mkPresence 0 0 0]
         0 5 5 15)
    = Some ([RW2.WakeReader 0; RW2.WakeReader 1], g') /\
    RW2.queue g'
    = [RW2.mkPresence 2 0 102; RW2.mkPresence 0 0 102; RW2.mkPresence 0 0 102;
       RW2.mkPresence 0 0 0; RW2.mkPresence 0 0 0] /\
    RW2.in_library g'
    = [RW2.mkPresence 1 0 105; RW2.mkPresence 1 2 90; RW2.mkPresence 1 1 105;
       RW2.mkPresence 1 3 91; RW2.mkPresence 0 0 0].
Proof.
  destruct (serve_admits_line_in_order 7 105
              (RW2.mkGlobals 0 4 1
                 [RW2.mkPresence 1 0 100; RW2.mkPresence 1 1 101; RW2.mkPresence 2 0 102;
                  RW2.mkPresence 0 0 0; RW2.mkPresence 0 0 0]
                 [RW2.mkPresence 0 0 0; RW2.mkPresence 1 2 90; RW2.mkPresence 0 0 0;
                  RW2.mkPresence 1 3 91; RW2.mkPresence 0 0 0]
                 0 5 5 15)
              [RW2.mkPresence 1 0 100; RW2.mkPresence 1 1 101]
              [RW2.mkPresence 2 0 102]
              [RW2.mkPresence 0 0 0; RW2.mkPresence 0 0 0])
    as (g' & Hserve & Hq & Hl).
  - split; reflexivity.
  - reflexivity.
  - repeat constructor.
  - repeat constructor. discriminate.
  - simpl. lia.
  - reflexivity.
  - reflexivity.
  - simpl. lia.
  - exists g'. split; [exact Hserve |]. split; [exact (Hq (RW2.mkPresence 0 0 0)) | exact Hl].
Defined.

(** ** [r_w_1.c]: readers at a gate that no writer clears *)

Lemma move_lands {A : Type} (eqb : A -> A -> bool) (l l' : list A) (i : Z) (from to : A) :
  move eqb l i from to = Some l' -> load l' i = Some to.
Proof.
  unfold move. destruct (load l i) as [a |]; [| discriminate].
  destruct (eqb a from); [| discriminate]. intros H.
  destruct (store_some _ _ _ _ H) as (pre & y & rest & -> & -> & <- & _).
  apply load_middle.
Qed.

(** X16: in [r_w_1.c], once [writer_notification] is 1 and there is no
    writer thread, no step of any thread resets it: after every run it is
    still 1 and there is still no writer, so every reader that then runs
    its test of the gate goes into [pthread_cond_wait (&readers_cond)],
    and the gate is still set after that. *)
Theorem readers_block_at_gate_without_writers (acts : list RW1.action)
  (s s' : RW1.system) :
  RW1.writers s = [] -> RW1.writer_notification (RW1.mem s) = 1 ->
  RW1.run acts s = Some s' ->
  RW1.writers s' = [] /\ RW1.writer_notification (RW1.mem s') = 1 /\
  forall i s'',
    RW1.step (RW1.ReaderCheck i) s' = Some s'' ->
    load (RW1.readers s'') i = Some RW1.RCondWait /\
    RW1.writer_notification (RW1.mem s'') = 1.
Proof.
  intros Hw Hg Hrun.
  destruct (gate_stays_set_without_writers acts s s' Hw Hg Hrun) as [Hw' Hg'].
  split; [exact Hw' |]. split; [exact Hg' |].
  intros i s'' Hstep. cbn [RW1.step] in Hstep. rewrite Hg' in Hstep.
  cbn [Z.eqb] in Hstep.
  destruct (move RW1.reader_at_eqb (RW1.readers s') i RW1.RTop RW1.RCondWait)
    as [rs |] eqn:Hmove; [| discriminate].
  cbn [obind] in Hstep. injection Hstep as <-.
  split; [exact (move_lands _ _ _ _ _ _ Hmove) | exact Hg'].
Qed.

Lemma readers_block_at_gate_without_writers_witness :
  exists s' s'',
    RW1.run [RW1.LibrarianSpin; RW1.LibrarianTurn; RW1.Tick]
      (RW1.mkSystem
         (RW1.mkGlobals 0 1 0 [] 0 [0] 0 [] 0 [100] 1 1 0 5 5 15 10 20)
         [RW1.RTop] [] RW1.LSpin 100) = Some s' /\
    RW1.writer_notification (RW1.mem s') = 1 /\
    RW1.step (RW1.ReaderCheck 0) s' = Some s'' /\
    load (RW1.readers s'') 0 = Some RW1.RCondWait.
Proof.
  destruct (RW1.run [RW1.LibrarianSpin; RW1.LibrarianTurn; RW1.Tick]
              (RW1.mkSystem
                 (RW1.mkGlobals 0 1 0 [] 0 [0] 0 [] 0 [100] 1 1 0 5 5 15 10 20)
                 [RW1.RTop] [] RW1.LSpin 100)) as [s' |] eqn:Hrun;
    [| vm_compute in Hrun; discriminate Hrun].
  destruct (readers_block_at_gate_without_writers
              [RW1.LibrarianSpin; RW1.LibrarianTurn; RW1.Tick]
              (RW1.mkSystem
                 (RW1.mkGlobals 0 1 0 [] 0 [0] 0 [] 0 [100] 1 1 0 5 5 15 10 20)
                 [RW1.RTop] [] RW1.LSpin 100) s' eq_refl eq_refl Hrun)
    as (_ & Hg & Hcheck).
  destruct (RW1.step (RW1.ReaderCheck 0) s') as [s'' |] eqn:Hstep.
  - exists s', s''. split; [reflexivity |]. split; [exact Hg |].
    split; [exact Hstep | exact (proj1 (Hcheck 0 s'' Hstep))].
  - exfalso. vm_compute in Hrun. injection Hrun as <-. vm_compute in Hstep.
    discriminate Hstep.
Defined.
